(** * Matter framework backend: the chip-tool bridge of [handlers.go]

    A shallow embedding of the Go backend that sits between the WebSocket
    clients and the [chip-tool] command line program, and the properties of
    its output parsers, its dispatcher and its outbound queue.

    Go strings are byte strings: they are modelled as [string], whose
    characters ([ascii]) are the bytes.  The functions of Go's standard
    library that the handlers call are modelled in the first modules
    ([GoStrings], [Strconv], [Bufio]); the code of [handlers.go] follows. *)

From Stdlib Require Import String Ascii List ZArith NArith Lia Bool.
From Stdlib Require Import Floats.SpecFloat.
Import ListNotations.
Open Scope string_scope.

(* ================================================================== *)
(** ** Package [strings] *)
(* ================================================================== *)

Module GoStrings.

(** [s[n:]] *)
Fixpoint sliceFrom (n : nat) (s : string) : string :=
  match n, s with
  | O, _ => s
  | S n', String _ r => sliceFrom n' r
  | S _, EmptyString => EmptyString
  end.

(** [strings.HasPrefix(s, p)] *)
Fixpoint HasPrefix (s p : string) : bool :=
  match p, s with
  | EmptyString, _ => true
  | String c p', String d s' => Ascii.eqb c d && HasPrefix s' p'
  | String _ _, EmptyString => false
  end.

(** [strings.Index(s, sub)]; [None] stands for [-1]. *)
Fixpoint Index (s sub : string) : option nat :=
  if HasPrefix s sub then Some O
  else match s with
       | EmptyString => None
       | String _ r => option_map S (Index r sub)
       end.

(** [strings.Contains(s, sub)] *)
Definition Contains (s sub : string) : bool :=
  match Index s sub with Some _ => true | None => false end.

Definition rev (s : string) : string :=
  string_of_list_ascii (List.rev (list_ascii_of_string s)).

(** [strings.HasSuffix(s, p)] *)
Definition HasSuffix (s p : string) : bool := HasPrefix (rev s) (rev p).

Definition byte (c : ascii) : N := N_of_ascii c.

(** The table [asciiSpace] of package [strings]. *)
Definition isAsciiSpace (c : ascii) : bool :=
  let b := byte c in
  ((9 <=? b) && (b <=? 13) || (b =? 32))%N.

(** [unicode.IsSpace] on the runes above U+007F, by their UTF-8 encodings:
    U+0085, U+00A0 (two bytes) and U+1680, U+2000..U+200A, U+2028, U+2029,
    U+202F, U+205F, U+3000 (three bytes). *)
Definition isSpace2 (c d : ascii) : bool :=
  ((byte c =? 194) && ((byte d =? 133) || (byte d =? 160)))%N.

Definition isSpace3 (c d e : ascii) : bool :=
  let '(x, y, z) := (byte c, byte d, byte e) in
  ((x =? 225) && (y =? 154) && (z =? 128)
   || (x =? 226) && (y =? 128)
      && ((128 <=? z) && (z <=? 138) || (z =? 168) || (z =? 169) || (z =? 175))
   || (x =? 226) && (y =? 129) && (z =? 159)
   || (x =? 227) && (y =? 128) && (z =? 128))%N.

(** [strings.TrimLeftFunc(s, unicode.IsSpace)]: a byte sequence that is not
    the encoding of a white space rune (also an invalid one) stops it. *)
Fixpoint trimLeftSpace (s : string) : string :=
  match s with
  | EmptyString => EmptyString
  | String c r =>
      if isAsciiSpace c then trimLeftSpace r
      else match r with
           | String d r2 =>
               if isSpace2 c d then trimLeftSpace r2
               else match r2 with
                    | String e r3 =>
                        if isSpace3 c d e then trimLeftSpace r3 else s
                    | EmptyString => s
                    end
           | EmptyString => s
           end
  end.

(** The same from the right end, on the reversed string: the bytes of a
    rune come last byte first. *)
Fixpoint trimLeftSpaceRev (s : string) : string :=
  match s with
  | EmptyString => EmptyString
  | String c r =>
      if isAsciiSpace c then trimLeftSpaceRev r
      else match r with
           | String d r2 =>
               if isSpace2 d c then trimLeftSpaceRev r2
               else match r2 with
                    | String e r3 =>
                        if isSpace3 e d c then trimLeftSpaceRev r3 else s
                    | EmptyString => s
                    end
           | EmptyString => s
           end
  end.

Definition trimRightSpace (s : string) : string :=
  rev (trimLeftSpaceRev (rev s)).

(** [strings.TrimSpace(s)] *)
Definition TrimSpace (s : string) : string :=
  trimRightSpace (trimLeftSpace s).

Fixpoint trimLeftByte (b : ascii) (s : string) : string :=
  match s with
  | String c r => if Ascii.eqb c b then trimLeftByte b r else s
  | EmptyString => EmptyString
  end.

(** [strings.Trim(s, cutset)] for a cutset of one ASCII byte. *)
Definition Trim (s : string) (b : ascii) : string :=
  rev (trimLeftByte b (rev (trimLeftByte b s))).

Definition lowerByte (c : ascii) : ascii :=
  let b := byte c in
  if ((65 <=? b) && (b <=? 90))%N then ascii_of_N (b + 32) else c.

(** [strings.ToLower(s)] on ASCII text: the names of clusters, commands
    and attributes are ASCII identifiers.  On a text with bytes outside
    ASCII the function of Go also maps the letters of other alphabets, which
    this one keeps: what is proved of an argument vector holds for ASCII
    names. *)
Fixpoint ToLower (s : string) : string :=
  match s with
  | EmptyString => EmptyString
  | String c r => String (lowerByte c) (ToLower r)
  end.

(** [strings.Join(elems, sep)] *)
Fixpoint Join (elems : list string) (sep : string) : string :=
  match elems with
  | [] => ""
  | [x] => x
  | x :: rest => x ++ sep ++ Join rest sep
  end.

Definition isEmpty (s : string) : bool :=
  match s with EmptyString => true | String _ _ => false end.

(** A byte of printable ASCII that is no space: it is no white space, nor
    part of the encoding of a white space rune. *)
Definition isGraphic (c : ascii) : bool :=
  let b := byte c in ((33 <=? b) && (b <=? 126))%N.

End GoStrings.

(* ================================================================== *)
(** ** Package [strconv] *)
(* ================================================================== *)

Module Strconv.

(** The two errors of a [*strconv.NumError]. *)
Inductive NumErr := ErrSyntax | ErrRange.

Definition isDigit (c : ascii) : bool :=
  let b := GoStrings.byte c in ((48 <=? b) && (b <=? 57))%N.

Definition digitVal (c : ascii) : Z := Z.of_N (GoStrings.byte c) - 48.

(** The digit loop of [ParseUint(s, 10, bitSize)]: a byte that is no digit is
    a syntax error, a value above [maxVal] a range error, whichever comes
    first. *)
Fixpoint parseDigits (maxVal : Z) (s : string) (acc : Z) : NumErr + Z :=
  match s with
  | EmptyString => inr acc
  | String c r =>
      if negb (isDigit c) then inl ErrSyntax
      else let n1 := (acc * 10 + digitVal c)%Z in
           if (maxVal <? n1)%Z then inl ErrRange
           else parseDigits maxVal r n1
  end.

(** The value of a text of digits read after the value [a]. *)
Fixpoint valDigits (s : string) (a : Z) : Z :=
  match s with
  | EmptyString => a
  | String c r => valDigits r (a * 10 + digitVal c)
  end.

(** [strconv.ParseUint(s, 10, bitSize)] *)
Definition ParseUint (s : string) (bitSize : Z) : NumErr + Z :=
  match s with
  | EmptyString => inl ErrSyntax
  | _ => parseDigits (2 ^ bitSize - 1) s 0
  end.

(** [strconv.ParseInt(s, 10, 64)] *)
Definition ParseInt (s : string) : NumErr + Z :=
  match s with
  | EmptyString => inl ErrSyntax
  | String c r =>
      let neg := Ascii.eqb c "-" in
      let digits := if Ascii.eqb c "+" || neg then r else s in
      match ParseUint digits 64 with
      | inl e => inl e
      | inr un =>
          if negb neg && (2 ^ 63 <=? un)%Z then inl ErrRange
          else if neg && (2 ^ 63 <? un)%Z then inl ErrRange
          else inr (if neg then (- un)%Z else un)
      end
  end.

(** [strconv.Atoi(s)]: [ParseInt(s, 10, 0)] with a 64-bit [int]. *)
Definition Atoi (s : string) : NumErr + Z := ParseInt s.

(** [strconv.ParseBool(str)] *)
Definition ParseBool (str : string) : option bool :=
  if existsb (String.eqb str) ["1"; "t"; "T"; "TRUE"; "true"; "True"]
  then Some true
  else if existsb (String.eqb str) ["0"; "f"; "F"; "FALSE"; "false"; "False"]
  then Some false
  else None.

Definition digitChar (d : N) : ascii := ascii_of_N (48 + d).

(** Decimal digits of [n], most significant first, in front of [acc]. *)
Fixpoint utoa (fuel : nat) (n : N) (acc : string) : string :=
  let acc' := String (digitChar (n mod 10)) acc in
  match fuel with
  | O => acc'
  | S f => if (n <? 10)%N then acc' else utoa f (n / 10) acc'
  end.

Definition formatUint (n : N) : string := utoa (N.to_nat (N.log2 n)) n "".

(** [strconv.Itoa(i)], also the verb [%d]. *)
Definition Itoa (i : Z) : string :=
  if (i <? 0)%Z then "-" ++ formatUint (Z.abs_N i) else formatUint (Z.to_N i).

Fixpoint zeros (n : nat) : string :=
  match n with O => "" | S k => String "0" (zeros k) end.

(** The verb [%04d] at a value that is not negative. *)
Definition format04d (n : N) : string :=
  let d := formatUint n in zeros (4 - String.length d) ++ d.

(** The verb [%t]. *)
Definition formatBool (b : bool) : string := if b then "true" else "false".

Definition errText (e : NumErr) : string :=
  match e with
  | ErrSyntax => "invalid syntax"
  | ErrRange => "value out of range"
  end.

(** The double quote byte. *)
Definition dquote : ascii := ascii_of_N 34.

(** The method [Error] of [NumError].  [strconv.Quote] is taken at a text of
    printable ASCII without quote or backslash, where it only adds the
    quotes. *)
Definition numErrorText (fn num : string) (e : NumErr) : string :=
  "strconv." ++ fn ++ ": parsing " ++ String dquote (num ++ String dquote "")
  ++ ": " ++ errText e.

(** [special]: the special values [ParseFloat] reads, whatever the case of
    the letters: an optional sign and "inf" or "infinity", or "nan". *)
Definition special (s : string) : option spec_float :=
  let l := GoStrings.ToLower s in
  if existsb (String.eqb l) ["inf"; "+inf"; "infinity"; "+infinity"]
  then Some (S754_infinity false)
  else if existsb (String.eqb l) ["-inf"; "-infinity"]
  then Some (S754_infinity true)
  else if String.eqb l "nan" then Some S754_nan
  else None.

End Strconv.

(* ================================================================== *)
(** ** Package [bufio]: the line scanner *)
(* ================================================================== *)

Module Bufio.

Definition newline : ascii := ascii_of_N 10.
Definition carriageReturn : ascii := ascii_of_N 13.

(** [bufio.MaxScanTokenSize]: a line whose bytes before the newline reach
    this size ends the scan with [ErrTooLong]. *)
Definition MaxScanTokenSize : N := 65536.

(** The pieces of the text between newline bytes; the last piece is what
    follows the last newline. *)
Fixpoint pieces (s : string) : list string :=
  match s with
  | EmptyString => [""]
  | String c r =>
      if Ascii.eqb c newline then "" :: pieces r
      else match pieces r with
           | l :: ls => String c l :: ls
           | [] => [String c ""]
           end
  end.

(** The tokens of [bufio.ScanLines]: an empty piece at the end of the input
    is no line. *)
Fixpoint tokens (ps : list string) : list string :=
  match ps with
  | [] => []
  | [p] => if GoStrings.isEmpty p then [] else [p]
  | p :: rest => p :: tokens rest
  end.

Fixpoint untilTooLong (ps : list string) : list string :=
  match ps with
  | [] => []
  | p :: rest =>
      if (N.of_nat (String.length p) <? MaxScanTokenSize)%N
      then p :: untilTooLong rest else []
  end.

(** [dropCR]: one carriage return at the end of a line is dropped. *)
Definition dropCR (p : string) : string :=
  match GoStrings.rev p with
  | String c r => if Ascii.eqb c carriageReturn then GoStrings.rev r else p
  | EmptyString => p
  end.

(** The texts [scanner.Text()] yields while [scanner.Scan()] is true, for a
    scanner over the whole of [s]. *)
Definition scanLines (s : string) : list string :=
  map dropCR (untilTooLong (tokens (pieces s))).

(** A text made of lines, each ended by a newline. *)
Fixpoint joinLines (ls : list string) : string :=
  match ls with
  | [] => ""
  | l :: rest => l ++ String newline (joinLines rest)
  end.

(** A line the scanner gives back as it is: no newline in it, no carriage
    return at its end, and shorter than [MaxScanTokenSize]. *)
Definition plainLine (l : string) : bool :=
  forallb (fun c => negb (Ascii.eqb c newline)) (list_ascii_of_string l)
  && negb (GoStrings.HasPrefix (GoStrings.rev l) (String carriageReturn ""))
  && (N.of_nat (String.length l) <? MaxScanTokenSize)%N.

End Bufio.

(* ================================================================== *)
(** ** [models.go]: the discovered device *)
(* ================================================================== *)

Record DiscoveredDevice := {
  ID : string;
  Name : string;
  Type_ : string;   (* the field Type *)
  IPAddress : string;
  Port : Z;
  MrpIntervalIdle : string;
  MrpIntervalActive : string;
  MrpActiveThreshold : string;
  TCPClientSupported : bool;
  TCPServerSupported : bool;
  ICD : string;
  Discriminator : string;
  VendorID : string;
  ProductID : string;
  NodeID : string;
  MACAddress : string;
  PairingHint : Z;
  DeviceType : Z;
  CommissioningMode : Z;
  InstanceName : string;
  SupportsCommissionerGeneratedPasscode : bool
}.

Definition set_ID (v : string) (d : DiscoveredDevice) : DiscoveredDevice :=
  Build_DiscoveredDevice v (Name d) (Type_ d) (IPAddress d) (Port d)
    (MrpIntervalIdle d) (MrpIntervalActive d) (MrpActiveThreshold d)
    (TCPClientSupported d) (TCPServerSupported d) (ICD d) (Discriminator d)
    (VendorID d) (ProductID d) (NodeID d) (MACAddress d) (PairingHint d)
    (DeviceType d) (CommissioningMode d) (InstanceName d)
    (SupportsCommissionerGeneratedPasscode d).

Definition set_Name (v : string) (d : DiscoveredDevice) : DiscoveredDevice :=
  Build_DiscoveredDevice (ID d) v (Type_ d) (IPAddress d) (Port d)
    (MrpIntervalIdle d) (MrpIntervalActive d) (MrpActiveThreshold d)
    (TCPClientSupported d) (TCPServerSupported d) (ICD d) (Discriminator d)
    (VendorID d) (ProductID d) (NodeID d) (MACAddress d) (PairingHint d)
    (DeviceType d) (CommissioningMode d) (InstanceName d)
    (SupportsCommissionerGeneratedPasscode d).

Definition set_Type_ (v : string) (d : DiscoveredDevice) : DiscoveredDevice :=
  Build_DiscoveredDevice (ID d) (Name d) v (IPAddress d) (Port d)
    (MrpIntervalIdle d) (MrpIntervalActive d) (MrpActiveThreshold d)
    (TCPClientSupported d) (TCPServerSupported d) (ICD d) (Discriminator d)
    (VendorID d) (ProductID d) (NodeID d) (MACAddress d) (PairingHint d)
    (DeviceType d) (CommissioningMode d) (InstanceName d)
    (SupportsCommissionerGeneratedPasscode d).

Definition set_IPAddress (v : string) (d : DiscoveredDevice) : DiscoveredDevice :=
  Build_DiscoveredDevice (ID d) (Name d) (Type_ d) v (Port d)
    (MrpIntervalIdle d) (MrpIntervalActive d) (MrpActiveThreshold d)
    (TCPClientSupported d) (TCPServerSupported d) (ICD d) (Discriminator d)
    (VendorID d) (ProductID d) (NodeID d) (MACAddress d) (PairingHint d)
    (DeviceType d) (CommissioningMode d) (InstanceName d)
    (SupportsCommissionerGeneratedPasscode d).

Definition set_Port (v : Z) (d : DiscoveredDevice) : DiscoveredDevice :=
  Build_DiscoveredDevice (ID d) (Name d) (Type_ d) (IPAddress d) v
    (MrpIntervalIdle d) (MrpIntervalActive d) (MrpActiveThreshold d)
    (TCPClientSupported d) (TCPServerSupported d) (ICD d) (Discriminator d)
    (VendorID d) (ProductID d) (NodeID d) (MACAddress d) (PairingHint d)
    (DeviceType d) (CommissioningMode d) (InstanceName d)
    (SupportsCommissionerGeneratedPasscode d).

Definition set_MrpIntervalIdle (v : string) (d : DiscoveredDevice) : DiscoveredDevice :=
  Build_DiscoveredDevice (ID d) (Name d) (Type_ d) (IPAddress d) (Port d) v
    (MrpIntervalActive d) (MrpActiveThreshold d) (TCPClientSupported d)
    (TCPServerSupported d) (ICD d) (Discriminator d) (VendorID d) (ProductID
    d) (NodeID d) (MACAddress d) (PairingHint d) (DeviceType d)
    (CommissioningMode d) (InstanceName d)
    (SupportsCommissionerGeneratedPasscode d).

Definition set_MrpIntervalActive (v : string) (d : DiscoveredDevice) : DiscoveredDevice :=
  Build_DiscoveredDevice (ID d) (Name d) (Type_ d) (IPAddress d) (Port d)
    (MrpIntervalIdle d) v (MrpActiveThreshold d) (TCPClientSupported d)
    (TCPServerSupported d) (ICD d) (Discriminator d) (VendorID d) (ProductID
    d) (NodeID d) (MACAddress d) (PairingHint d) (DeviceType d)
    (CommissioningMode d) (InstanceName d)
    (SupportsCommissionerGeneratedPasscode d).

Definition set_MrpActiveThreshold (v : string) (d : DiscoveredDevice) : DiscoveredDevice :=
  Build_DiscoveredDevice (ID d) (Name d) (Type_ d) (IPAddress d) (Port d)
    (MrpIntervalIdle d) (MrpIntervalActive d) v (TCPClientSupported d)
    (TCPServerSupported d) (ICD d) (Discriminator d) (VendorID d) (ProductID
    d) (NodeID d) (MACAddress d) (PairingHint d) (DeviceType d)
    (CommissioningMode d) (InstanceName d)
    (SupportsCommissionerGeneratedPasscode d).

Definition set_TCPClientSupported (v : bool) (d : DiscoveredDevice) : DiscoveredDevice :=
  Build_DiscoveredDevice (ID d) (Name d) (Type_ d) (IPAddress d) (Port d)
    (MrpIntervalIdle d) (MrpIntervalActive d) (MrpActiveThreshold d) v
    (TCPServerSupported d) (ICD d) (Discriminator d) (VendorID d) (ProductID
    d) (NodeID d) (MACAddress d) (PairingHint d) (DeviceType d)
    (CommissioningMode d) (InstanceName d)
    (SupportsCommissionerGeneratedPasscode d).

Definition set_TCPServerSupported (v : bool) (d : DiscoveredDevice) : DiscoveredDevice :=
  Build_DiscoveredDevice (ID d) (Name d) (Type_ d) (IPAddress d) (Port d)
    (MrpIntervalIdle d) (MrpIntervalActive d) (MrpActiveThreshold d)
    (TCPClientSupported d) v (ICD d) (Discriminator d) (VendorID d) (ProductID
    d) (NodeID d) (MACAddress d) (PairingHint d) (DeviceType d)
    (CommissioningMode d) (InstanceName d)
    (SupportsCommissionerGeneratedPasscode d).

Definition set_ICD (v : string) (d : DiscoveredDevice) : DiscoveredDevice :=
  Build_DiscoveredDevice (ID d) (Name d) (Type_ d) (IPAddress d) (Port d)
    (MrpIntervalIdle d) (MrpIntervalActive d) (MrpActiveThreshold d)
    (TCPClientSupported d) (TCPServerSupported d) v (Discriminator d)
    (VendorID d) (ProductID d) (NodeID d) (MACAddress d) (PairingHint d)
    (DeviceType d) (CommissioningMode d) (InstanceName d)
    (SupportsCommissionerGeneratedPasscode d).

Definition set_Discriminator (v : string) (d : DiscoveredDevice) : DiscoveredDevice :=
  Build_DiscoveredDevice (ID d) (Name d) (Type_ d) (IPAddress d) (Port d)
    (MrpIntervalIdle d) (MrpIntervalActive d) (MrpActiveThreshold d)
    (TCPClientSupported d) (TCPServerSupported d) (ICD d) v (VendorID d)
    (ProductID d) (NodeID d) (MACAddress d) (PairingHint d) (DeviceType d)
    (CommissioningMode d) (InstanceName d)
    (SupportsCommissionerGeneratedPasscode d).

Definition set_VendorID (v : string) (d : DiscoveredDevice) : DiscoveredDevice :=
  Build_DiscoveredDevice (ID d) (Name d) (Type_ d) (IPAddress d) (Port d)
    (MrpIntervalIdle d) (MrpIntervalActive d) (MrpActiveThreshold d)
    (TCPClientSupported d) (TCPServerSupported d) (ICD d) (Discriminator d) v
    (ProductID d) (NodeID d) (MACAddress d) (PairingHint d) (DeviceType d)
    (CommissioningMode d) (InstanceName d)
    (SupportsCommissionerGeneratedPasscode d).

Definition set_ProductID (v : string) (d : DiscoveredDevice) : DiscoveredDevice :=
  Build_DiscoveredDevice (ID d) (Name d) (Type_ d) (IPAddress d) (Port d)
    (MrpIntervalIdle d) (MrpIntervalActive d) (MrpActiveThreshold d)
    (TCPClientSupported d) (TCPServerSupported d) (ICD d) (Discriminator d)
    (VendorID d) v (NodeID d) (MACAddress d) (PairingHint d) (DeviceType d)
    (CommissioningMode d) (InstanceName d)
    (SupportsCommissionerGeneratedPasscode d).

Definition set_PairingHint (v : Z) (d : DiscoveredDevice) : DiscoveredDevice :=
  Build_DiscoveredDevice (ID d) (Name d) (Type_ d) (IPAddress d) (Port d)
    (MrpIntervalIdle d) (MrpIntervalActive d) (MrpActiveThreshold d)
    (TCPClientSupported d) (TCPServerSupported d) (ICD d) (Discriminator d)
    (VendorID d) (ProductID d) (NodeID d) (MACAddress d) v (DeviceType d)
    (CommissioningMode d) (InstanceName d)
    (SupportsCommissionerGeneratedPasscode d).

Definition set_CommissioningMode (v : Z) (d : DiscoveredDevice) : DiscoveredDevice :=
  Build_DiscoveredDevice (ID d) (Name d) (Type_ d) (IPAddress d) (Port d)
    (MrpIntervalIdle d) (MrpIntervalActive d) (MrpActiveThreshold d)
    (TCPClientSupported d) (TCPServerSupported d) (ICD d) (Discriminator d)
    (VendorID d) (ProductID d) (NodeID d) (MACAddress d) (PairingHint d)
    (DeviceType d) v (InstanceName d) (SupportsCommissionerGeneratedPasscode
    d).

Definition set_InstanceName (v : string) (d : DiscoveredDevice) : DiscoveredDevice :=
  Build_DiscoveredDevice (ID d) (Name d) (Type_ d) (IPAddress d) (Port d)
    (MrpIntervalIdle d) (MrpIntervalActive d) (MrpActiveThreshold d)
    (TCPClientSupported d) (TCPServerSupported d) (ICD d) (Discriminator d)
    (VendorID d) (ProductID d) (NodeID d) (MACAddress d) (PairingHint d)
    (DeviceType d) (CommissioningMode d) v
    (SupportsCommissionerGeneratedPasscode d).

Definition set_SupportsCommissionerGeneratedPasscode (v : bool) (d : DiscoveredDevice) : DiscoveredDevice :=
  Build_DiscoveredDevice (ID d) (Name d) (Type_ d) (IPAddress d) (Port d)
    (MrpIntervalIdle d) (MrpIntervalActive d) (MrpActiveThreshold d)
    (TCPClientSupported d) (TCPServerSupported d) (ICD d) (Discriminator d)
    (VendorID d) (ProductID d) (NodeID d) (MACAddress d) (PairingHint d)
    (DeviceType d) (CommissioningMode d) (InstanceName d) v.

(** [&DiscoveredDevice{}]: every field at its zero value. *)
Definition emptyDevice : DiscoveredDevice :=
  {| ID := ""; Name := ""; Type_ := ""; IPAddress := ""; Port := 0;
     MrpIntervalIdle := ""; MrpIntervalActive := ""; MrpActiveThreshold := "";
     TCPClientSupported := false; TCPServerSupported := false; ICD := "";
     Discriminator := ""; VendorID := ""; ProductID := ""; NodeID := "";
     MACAddress := ""; PairingHint := 0; DeviceType := 0;
     CommissioningMode := 0; InstanceName := "";
     SupportsCommissionerGeneratedPasscode := false |}.

(* ================================================================== *)
(** ** [handlers.go]: the discovery parser *)
(* ================================================================== *)

Module Discovery.

Import GoStrings.

Definition escape : ascii := ascii_of_N 27.

Definition isLetter (c : ascii) : bool :=
  let b := byte c in
  ((65 <=? b) && (b <=? 90) || (97 <=? b) && (b <=? 122))%N.

(** Length of a match, at the head of [s], of digits and semicolons followed
    by one letter. *)
Fixpoint ansiTailLen (s : string) : option nat :=
  match s with
  | EmptyString => None
  | String c r =>
      if Strconv.isDigit c || Ascii.eqb c ";" then option_map S (ansiTailLen r)
      else if isLetter c then Some 1 else None
  end.

(** Length of a match of [ansiRegex] at the head of [s]: the escape byte, an
    opening bracket, digits and semicolons, one letter. *)
Definition ansiMatchLen (s : string) : option nat :=
  match s with
  | String e (String b r) =>
      if Ascii.eqb e escape && Ascii.eqb b "[" then
        option_map (fun n => 2 + n) (ansiTailLen r)
      else None
  | _ => None
  end.

(** [ansiRegex.ReplaceAllString(str, "")]: [skip] counts the bytes of the
    current match that are still to be dropped. *)
Fixpoint dropAnsi (skip : nat) (s : string) : string :=
  match s with
  | EmptyString => EmptyString
  | String c r =>
      match skip with
      | S k => dropAnsi k r
      | O => match ansiMatchLen s with
             | Some n => dropAnsi (Nat.pred n) r
             | None => String c (dropAnsi O r)
             end
      end
  end.

Definition stripAnsi (str : string) : string := dropAnsi O str.

Definition extractValueAfterKey (line key : string) : string :=
  match Index line key with
  | Some idx => TrimSpace (sliceFrom (idx + String.length key) line)
  | None => ""
  end.

(** The keys of the else-if chain, in its order. *)
Inductive Key :=
  | KHostname | KIPAddress | KPort | KMrpIdle | KMrpActive | KMrpThreshold
  | KTCPClient | KTCPServer | KICD | KVendorID | KProductID
  | KLongDiscriminator | KPairingHint | KInstanceName | KCommissioningMode
  | KSupportsPasscode.

Definition keyText (k : Key) : string :=
  match k with
  | KHostname => "Hostname:"
  | KIPAddress => "IP Address #1:"
  | KPort => "Port:"
  | KMrpIdle => "Mrp Interval idle:"
  | KMrpActive => "Mrp Interval active:"
  | KMrpThreshold => "Mrp Active Threshold:"
  | KTCPClient => "TCP Client Supported:"
  | KTCPServer => "TCP Server Supported:"
  | KICD => "ICD:"
  | KVendorID => "Vendor ID:"
  | KProductID => "Product ID:"
  | KLongDiscriminator => "Long Discriminator:"
  | KPairingHint => "Pairing Hint:"
  | KInstanceName => "Instance Name:"
  | KCommissioningMode => "Commissioning Mode:"
  | KSupportsPasscode => "Supports Commissioner Generated Passcode:"
  end.

Definition chain : list Key :=
  [KHostname; KIPAddress; KPort; KMrpIdle; KMrpActive; KMrpThreshold;
   KTCPClient; KTCPServer; KICD; KVendorID; KProductID; KLongDiscriminator;
   KPairingHint; KInstanceName; KCommissioningMode; KSupportsPasscode].

(** The branch the else-if chain takes on a line: the first key whose
    extracted value is not empty, with that value. *)
Fixpoint firstKey (ks : list Key) (content : string) : option (Key * string) :=
  match ks with
  | [] => None
  | k :: rest =>
      let val := extractValueAfterKey content (keyText k) in
      if isEmpty val then firstKey rest content else Some (k, val)
  end.

Definition selectKey (content : string) : option (Key * string) :=
  firstKey chain content.

(** The device type of a commissioning mode. *)
Definition modeType (cm : Z) : string :=
  if (cm =? 1)%Z then "BLE"
  else if (cm =? 2)%Z then "OnNetwork (DNS-SD)"
  else "CM:" ++ Strconv.Itoa cm.

(** The body of a branch of the chain: the updated device and the text of
    the log line sent to the client. *)
Definition setField (k : Key) (val : string) (d : DiscoveredDevice)
  : DiscoveredDevice * string :=
  match k with
  | KHostname => (set_Name val d, "Parsed Hostname (as Name): " ++ val)
  | KIPAddress => (set_IPAddress val d, "Parsed IP Address: " ++ val)
  | KPort =>
      match Strconv.Atoi val with
      | inr port => (set_Port port d, "Parsed Port: " ++ Strconv.Itoa port)
      | inl e => (d, "Error parsing Port '" ++ val ++ "': "
                     ++ Strconv.numErrorText "Atoi" val e)
      end
  | KMrpIdle => (set_MrpIntervalIdle val d, "Parsed Mrp Interval idle: " ++ val)
  | KMrpActive =>
      (set_MrpIntervalActive val d, "Parsed Mrp Interval active: " ++ val)
  | KMrpThreshold =>
      (set_MrpActiveThreshold val d, "Parsed Mrp Active Threshold: " ++ val)
  | KTCPClient =>
      let b := String.eqb val "1" in
      (set_TCPClientSupported b d,
       "Parsed TCP Client Supported: " ++ Strconv.formatBool b)
  | KTCPServer =>
      let b := String.eqb val "1" in
      (set_TCPServerSupported b d,
       "Parsed TCP Server Supported: " ++ Strconv.formatBool b)
  | KICD => (set_ICD val d, "Parsed ICD: " ++ val)
  | KVendorID => (set_VendorID val d, "Parsed Vendor ID: " ++ val)
  | KProductID => (set_ProductID val d, "Parsed Product ID: " ++ val)
  | KLongDiscriminator =>
      (set_Discriminator val d, "Parsed Long Discriminator: " ++ val)
  | KPairingHint =>
      match Strconv.ParseUint val 16 with
      | inr ph => (set_PairingHint ph d, "Parsed Pairing Hint: " ++ Strconv.Itoa ph)
      | inl e => (d, "Error parsing Pairing Hint '" ++ val ++ "': "
                     ++ Strconv.numErrorText "ParseUint" val e)
      end
  | KInstanceName => (set_InstanceName val d, "Parsed Instance Name: " ++ val)
  | KCommissioningMode =>
      match Strconv.ParseUint val 8 with
      | inr cm =>
          (set_Type_ (modeType cm) (set_CommissioningMode cm d),
           "Parsed Commissioning Mode: " ++ Strconv.Itoa cm
           ++ " (Type: " ++ modeType cm ++ ")")
      | inl e => (d, "Error parsing Commissioning Mode '" ++ val ++ "': "
                     ++ Strconv.numErrorText "ParseUint" val e)
      end
  | KSupportsPasscode =>
      let b := String.eqb val "true" in
      (set_SupportsCommissionerGeneratedPasscode b d,
       "Parsed Supports Commissioner Generated Passcode: "
       ++ Strconv.formatBool b)
  end.

(** The condition under which a device is appended to the result. *)
Definition complete (d : DiscoveredDevice) : bool :=
  negb (isEmpty (Discriminator d)) || negb (isEmpty (InstanceName d)).

(** The defaults given to [ID] and [Name] before a device is appended. *)
Definition defaultID (d : DiscoveredDevice) : DiscoveredDevice :=
  if isEmpty (ID d) then
    if negb (isEmpty (InstanceName d))
    then set_ID ("dnsd_instance_" ++ InstanceName d) d
    else set_ID ("dnsd_vid" ++ VendorID d ++ "_pid" ++ ProductID d
                 ++ "_disc" ++ Discriminator d) d
  else d.

Definition defaultName (d : DiscoveredDevice) : DiscoveredDevice :=
  if isEmpty (Name d) then
    if negb (isEmpty (InstanceName d))
    then set_Name ("MatterDevice-" ++ InstanceName d) d
    else if negb (isEmpty (VendorID d)) && negb (isEmpty (ProductID d))
    then set_Name ("MatterDevice-VID" ++ VendorID d ++ "-PID" ++ ProductID d) d
    else set_Name "Unknown Matter Device" d
  else d.

Definition finalize (d : DiscoveredDevice) : DiscoveredDevice :=
  defaultName (defaultID d).

(** The verb [%+v] at a device. *)
Definition formatDevice (d : DiscoveredDevice) : string :=
  "{ID:" ++ ID d ++ " Name:" ++ Name d ++ " Type:" ++ Type_ d
  ++ " IPAddress:" ++ IPAddress d ++ " Port:" ++ Strconv.Itoa (Port d)
  ++ " MrpIntervalIdle:" ++ MrpIntervalIdle d
  ++ " MrpIntervalActive:" ++ MrpIntervalActive d
  ++ " MrpActiveThreshold:" ++ MrpActiveThreshold d
  ++ " TCPClientSupported:" ++ Strconv.formatBool (TCPClientSupported d)
  ++ " TCPServerSupported:" ++ Strconv.formatBool (TCPServerSupported d)
  ++ " ICD:" ++ ICD d ++ " Discriminator:" ++ Discriminator d
  ++ " VendorID:" ++ VendorID d ++ " ProductID:" ++ ProductID d
  ++ " NodeID:" ++ NodeID d ++ " MACAddress:" ++ MACAddress d
  ++ " PairingHint:" ++ Strconv.Itoa (PairingHint d)
  ++ " DeviceType:" ++ Strconv.Itoa (DeviceType d)
  ++ " CommissioningMode:" ++ Strconv.Itoa (CommissioningMode d)
  ++ " InstanceName:" ++ InstanceName d
  ++ " SupportsCommissionerGeneratedPasscode:"
  ++ Strconv.formatBool (SupportsCommissionerGeneratedPasscode d) ++ "}".

(** The variables of the loop: the devices appended so far, the device in
    progress ([None] for the nil pointer), and the log lines sent to the
    client so far. *)
Record Parser := {
  devices : list DiscoveredDevice;
  currentDevice : option DiscoveredDevice;
  logs : list string
}.

Definition start : Parser :=
  {| devices := []; currentDevice := None; logs := [] |}.

Definition disMarker : string := "[DIS]".
Definition blockMarker : string := "Discovered commissionable/commissioner node:".

(** The text after the first [disMarker] of a line, trimmed; [None] for a
    line the loop skips. *)
Definition contentAfterDis (rawLine : string) : option string :=
  let strippedLine := stripAnsi rawLine in
  match Index strippedLine disMarker with
  | None => None
  | Some idxDis =>
      Some (TrimSpace (sliceFrom (idxDis + String.length disMarker) strippedLine))
  end.

(** Appends the device in progress when it is complete. *)
Definition flush (final : bool) (p : Parser) : Parser :=
  match currentDevice p with
  | Some d =>
      if complete d then
        let d' := finalize d in
        {| devices := devices p ++ [d'];
           currentDevice := Some d';
           logs := logs p ++
                   [(if final then "Completed parsing final device: "
                     else "Completed parsing device: ") ++ formatDevice d'] |}
      else p
  | None => p
  end.

(** One turn of the loop on the content of a [disMarker] line. *)
Definition onContent (content : string) (p : Parser) : Parser :=
  let p := {| devices := devices p; currentDevice := currentDevice p;
              logs := logs p ++ ["Processing content after [DIS]: '"
                                 ++ content ++ "'"] |} in
  if HasPrefix content blockMarker then
    let p := flush false p in
    {| devices := devices p;
       currentDevice := Some emptyDevice;
       logs := logs p ++ ["New device block started by 'Discovered commissionable/commissioner node:'."] |}
  else
    match currentDevice p with
    | None => p
    | Some d =>
        match selectKey content with
        | None => p
        | Some (k, val) =>
            let (d', line) := setField k val d in
            {| devices := devices p; currentDevice := Some d';
               logs := logs p ++ [line] |}
        end
    end.

(** One turn of the loop on a scanned line. *)
Definition step (p : Parser) (rawLine : string) : Parser :=
  match contentAfterDis rawLine with
  | None => p
  | Some content => onContent content p
  end.

(** The last log line of the parser. *)
Definition summary (ds : list DiscoveredDevice) : string :=
  match ds with
  | [] => "No devices parsed from output. Check chip-tool output and parsing logic. Final output scan complete."
  | _ => "Successfully parsed " ++ Strconv.Itoa (Z.of_nat (List.length ds))
         ++ " device(s)."
  end.

(** What follows the loop. *)
Definition finish (p : Parser) : list DiscoveredDevice * list string :=
  let p := flush true p in
  (devices p, app (logs p) [summary (devices p)]).

(** [parseDiscoveryOutput(output, client)]: the returned devices, and the
    [discovery_log] lines sent when [client] is not nil. *)
Definition parseDiscoveryOutput (output : string)
  : list DiscoveredDevice * list string :=
  finish (fold_left step (Bufio.scanLines output) start).

(** *** The device blocks of an output

    The reading of an output by blocks, against which the loop is checked:
    a block is what follows one line of [blockMarker], up to the next one. *)

(** The contents of the [disMarker] lines the scanner delivers. *)
Definition disContents (output : string) : list string :=
  flat_map (fun l => match contentAfterDis l with
                     | Some c => [c]
                     | None => []
                     end) (Bufio.scanLines output).

Definition Block := list string.

(** The lines in front of the first block, and the blocks. *)
Fixpoint splitBlocks (cs : list string) : list string * list Block :=
  match cs with
  | [] => ([], [])
  | c :: rest =>
      let (pre, bs) := splitBlocks rest in
      if HasPrefix c blockMarker then ([], pre :: bs) else (c :: pre, bs)
  end.

Definition blocks (output : string) : list Block :=
  snd (splitBlocks (disContents output)).

(** A line of a block that carries the key [k] with a value. *)
Definition carries (k : Key) (content : string) : bool :=
  match selectKey content with
  | Some (KLongDiscriminator, _) =>
      match k with KLongDiscriminator => true | _ => false end
  | Some (KInstanceName, _) =>
      match k with KInstanceName => true | _ => false end
  | _ => false
  end.

(** A well-formed block: one with a Long Discriminator or an Instance Name
    line (the value such a line carries is never empty). *)
Definition wellFormed (b : Block) : bool :=
  existsb (carries KLongDiscriminator) b || existsb (carries KInstanceName) b.

(** The effect of one line of a block on the device in progress. *)
Definition applyLine (d : DiscoveredDevice) (content : string)
  : DiscoveredDevice :=
  match selectKey content with
  | Some (k, val) => fst (setField k val d)
  | None => d
  end.

(** The device the lines of a block describe. *)
Definition blockDevice (b : Block) : DiscoveredDevice :=
  fold_left applyLine b emptyDevice.

(** The id the derivation rule gives a device. *)
Definition derivedID (d : DiscoveredDevice) : string :=
  if isEmpty (InstanceName d)
  then "dnsd_vid" ++ VendorID d ++ "_pid" ++ ProductID d
       ++ "_disc" ++ Discriminator d
  else "dnsd_instance_" ++ InstanceName d.

(** What the loop appends, from the device in progress [cur] on. *)
Definition flushed (cur : option DiscoveredDevice) : list DiscoveredDevice :=
  match cur with
  | Some d => if complete d then [finalize d] else []
  | None => []
  end.

Fixpoint collect (cur : option DiscoveredDevice) (cs : list string)
  : list DiscoveredDevice :=
  match cs with
  | [] => flushed cur
  | c :: rest =>
      if HasPrefix c blockMarker
      then flushed cur ++ collect (Some emptyDevice) rest
      else collect (option_map (fun d => applyLine d c) cur) rest
  end.

(** The devices of the blocks, in the order of the blocks. *)
Definition blockDevices (bs : list Block) : list DiscoveredDevice :=
  map finalize (filter complete (map blockDevice bs)).

(** *** A family of outputs *)

(** A decimal text: digits, one at least, fewer than a thousand. *)
Definition isDecimal (s : string) : bool :=
  negb (isEmpty s)
  && forallb Strconv.isDigit (list_ascii_of_string s)
  && Nat.ltb (String.length s) 1000.

(** The lines that announce a device of which only the long discriminator
    is known. *)
Definition announce (disc : string) : list string :=
  ["[1700000000.200] [55:57] [DIS] Discovered commissionable/commissioner node:";
   "[1700000000.201] [55:57] [DIS]   Long Discriminator: " ++ disc].

(** The output that announces the devices of the given discriminators. *)
Definition announcements (discs : list string) : string :=
  Bufio.joinLines (flat_map announce discs).

End Discovery.

(** *** The device blocks of an output text

    The reading of the text of an output as the specification words it, to
    which the parser is compared: the lines are those of the whole text, however
    long, and a block is well-formed by the keys its lines hold, whatever
    branch the parser takes on them. *)
Module DiscoverySpec.

Import GoStrings.

(** The lines of a text: what stands between newline bytes; an empty piece
    after the last newline is no line. *)
Definition rawLines (output : string) : list string :=
  Bufio.tokens (Bufio.pieces output).

(** The same without the carriage return at the end of a line. *)
Definition lines (output : string) : list string :=
  map Bufio.dropCR (rawLines output).

(** The discovery lines of the text: of each line that, stripped of
    control sequences, holds the tag [DIS], what follows the tag, trimmed. *)
Definition contents (output : string) : list string :=
  flat_map (fun l => match Discovery.contentAfterDis l with
                     | Some c => [c]
                     | None => []
                     end) (lines output).

(** The blocks of the text: what follows each line that starts with the
    block marker, up to the next one. *)
Definition blocks (output : string) : list (list string) :=
  snd (Discovery.splitBlocks (contents output)).

(** The value a line gives a key: what follows the first occurrence of
    the key on the line, without the white space around it; nothing when
    the line does not hold the key. *)
Definition valueOf (key line : string) : string :=
  match Index line key with
  | Some at_ => TrimSpace (sliceFrom (at_ + String.length key) line)
  | None => ""
  end.

(** A line that holds a key with a value that is not empty. *)
Definition hasValue (key line : string) : bool :=
  negb (isEmpty (valueOf key line)).

(** A well-formed block: one of its lines holds a Long Discriminator, or
    an Instance Name, that is not empty. *)
Definition wellFormed (b : list string) : bool :=
  existsb (hasValue "Long Discriminator:") b
  || existsb (hasValue "Instance Name:") b.

(** A line that holds a value for one of the keys of the parser at most. *)
Definition oneKey (line : string) : bool :=
  Nat.leb
    (List.length
       (filter (fun k => hasValue (Discovery.keyText k) line) Discovery.chain))
    1.

(** Every line fits the buffer of the scanner. *)
Definition fits (output : string) : bool :=
  forallb (fun p => (N.of_nat (String.length p) <? Bufio.MaxScanTokenSize)%N)
          (rawLines output).

(** A valid output: lines that fit the scanner, and discovery lines of one
    key each. *)
Definition valid (output : string) : bool :=
  fits output && forallb oneKey (contents output).

End DiscoverySpec.


(* ================================================================== *)
(** ** [models.go]: messages and payloads *)
(* ================================================================== *)

(** A value of an attribute, the dynamic type of [AttributeUpdatePayload.Value]:
    [bool], [int64], [float64] (an IEEE 754 binary64 value) or [string]. *)
Inductive Value :=
  | VBool (b : bool)
  | VInt (i : Z)
  | VFloat (f : spec_float)
  | VString (s : string).

Module DiscoveryResultPayload.
Record t := { Devices : list DiscoveredDevice; Error : string }.
End DiscoveryResultPayload.

Module CommissioningStatusPayload.
Record t := {
  Success : bool;
  NodeID : string;
  Details : string;
  Error : string;
  OriginalDiscriminator : string;
  EndpointId : string;
  DiscriminatorAssociatedWithRequest : string
}.
End CommissioningStatusPayload.

Module CommandResponsePayload.
Record t := {
  Success : bool;
  NodeID : string;
  Details : string;
  Error : string
}.
End CommandResponsePayload.

Module AttributeUpdatePayload.
Record t := {
  NodeID : string;
  EndpointID : string;
  Cluster : string;
  Attribute : string;
  Value : Value
}.
End AttributeUpdatePayload.

(** The value the handler of [get_status] builds.  Its two fields are not
    exported, so [json.Marshal] writes none of them: see [statusMessageBytes] for
    what the client is sent. *)
Module DeviceStatusPayload.
Record t := { nodeID : string; status : string }.
End DeviceStatusPayload.

(** The payloads the handlers give to [sendPayload] and [notifyClient]; the
    last one is the map [{"message": ...}] of the [error] messages. *)
Inductive Payload :=
  | PDiscoveryResult (p : DiscoveryResultPayload.t)
  | PCommissioningStatus (p : CommissioningStatusPayload.t)
  | PCommandResponse (p : CommandResponsePayload.t)
  | PAttributeUpdate (p : AttributeUpdatePayload.t)
  | PDeviceStatus (p : DeviceStatusPayload.t)
  | PMessage (message : string).

(** The fields of [CommissionDevicePayload] the handler reads or writes. *)
Module CommissionDevicePayload.
Record t := {
  SetupCode : string;
  VendorID : string;
  ProductID : string;
  LongDiscriminator : string;
  CommissioningMode : string;
  NodeID : string
}.
End CommissionDevicePayload.

(** A value of the map [Params], seen through the two operations the
    handler applies to it: the type assertion to [float64], and the text
    the verb [%v] gives it. *)
Module Param.
Record t := { asFloat64 : option spec_float; text : string }.
End Param.

Module DeviceCommandPayload.
Record t := {
  NodeID : string;
  Cluster : string;
  Command : string;
  (** The entries of the map, in the order in which [range] visits them. *)
  Params : list (string * Param.t)
}.
End DeviceCommandPayload.

Module SubscribeAttributePayload.
Record t := {
  NodeID : string;
  EndpointID : string;
  Cluster : string;
  Attribute : string;
  MinInterval : string;
  MaxInterval : string
}.
End SubscribeAttributePayload.

(** The result of decoding [msg.Payload] into the struct of a handler with
    [json.Marshal] and [json.Unmarshal]. *)
Inductive Decoded (A : Type) :=
  | Invalid (err : string)
  | Valid (a : A).
Arguments Invalid {A} err.
Arguments Valid {A} a.

(** A [ClientMessage], by its [Type].  The struct of [get_status],
    [DeviceGetStatusPayload], has no exported field: decoding it cannot fail
    and leaves both fields empty, so all that matters of the payload is
    whether it is a JSON object. *)
Inductive ClientMessage :=
  | DiscoverDevices
  | CommissionDevice (payload : Decoded CommissionDevicePayload.t)
  | DeviceCommand (payload : Decoded DeviceCommandPayload.t)
  | GetStatus (payloadIsObject : bool)
  | SubscribeAttribute (payload : Decoded SubscribeAttributePayload.t)
  | UnknownType (type : string).

(* ================================================================== *)
(** ** What a handler does *)
(* ================================================================== *)

(** The functions started with [go]. *)
Inductive Goroutine :=
  | ReadAttribute (nodeID endpointID clusterName attributeName : string)
  | StartAttributeSubscription
      (nodeID endpointID clusterName attributeName minInterval maxInterval
       : string).

(** The actions of a handler that the properties are about, in the order
    in which it performs them.  The handlers run concurrently with the
    writer of the session, which empties the outbound queue, so a handler
    is described by the calls it makes; what a call does to the queue is
    the matter of [Session] below.  Lines written to the log of the server
    are left out. *)
Inductive Action :=
  | NotifyLog (logType data : string)            (* c.notifyClientLog *)
  | SendPayload (msgType : string) (payload : Payload)
                                      (* c.sendPayload, c.notifyClient *)
  | Run (argv : list string)     (* exec.Command(chipToolPath, argv...) run *)
  | Go (g : Goroutine).

(** How the code of a handler ends, its calls of the send operations taken
    as made: it returns, or the goroutine panics, which ends the server
    process.  A send operation panics itself on a channel the hub has closed;
    that is the matter of [Session] and of the steps of a session below. *)
Inductive Outcome :=
  | Returned
  | Panicked (reason : string).

Definition Behaviour : Type := list Action * Outcome.

(** [t ;; k]: the actions [t], then the behaviour [k]. *)
Definition andThen (t : list Action) (k : Behaviour) : Behaviour :=
  (app t (fst k), snd k).
Notation "t ;; k" := (andThen t k) (at level 61, right associativity).

Definition done : Behaviour := ([], Returned).

(** What a run of [chip-tool] gives back: the two buffers and the error of
    [cmd.Run()] by its text ([None] for nil: the tool ran and exited with
    status 0). *)
Record ToolResult := {
  stdout : string;
  stderr : string;
  err : option string
}.

(** The verb [%v] at an error. *)
Definition errorText (e : option string) : string :=
  match e with Some t => t | None => "<nil>" end.

(** The surroundings of a handler. *)
Record Env := {
  (** the run of [chip-tool] on an argument vector *)
  tool : list string -> ToolResult;
  (** [ctx.Err() == context.DeadlineExceeded] after the discovery run *)
  deadlineExceeded : bool;
  (** the error of [os.Getwd()] *)
  getwdErr : option string;
  (** the state of the generator behind [rand.Intn] *)
  randSrc : N
}.

(** [rand.Intn(n)] *)
Definition Intn (e : Env) (n : N) : N := (randSrc e mod n)%N.

Definition chipToolPath : string := "/snap/bin/chip-tool".

(* ================================================================== *)
(** ** The regular expressions of [handlers.go] *)
(* ================================================================== *)

(** Each expression is modelled by a function that gives the submatches of
    its leftmost match, as [FindStringSubmatch] does; [None] stands for the
    nil slice.  The expressions have no alternative that could match where
    the preferred one also leads to a match, so the match at a position is
    found without backtracking. *)
Module Regexp.

Import GoStrings.

(** [s] without the literal [lit] in front of it. *)
Fixpoint eat (lit s : string) : option string :=
  match lit, s with
  | EmptyString, _ => Some s
  | String c lit', String d s' => if Ascii.eqb c d then eat lit' s' else None
  | String _ _, EmptyString => None
  end.

(** The class "\s": tab, newline, form feed, carriage return, space. *)
Definition isReSpace (c : ascii) : bool :=
  let b := byte c in
  ((b =? 9) || (b =? 10) || (b =? 12) || (b =? 13) || (b =? 32))%N.

Fixpoint skipSpaces (s : string) : string :=
  match s with
  | String c r => if isReSpace c then skipSpaces r else s
  | EmptyString => EmptyString
  end.

(** The digits at the head of [s], and what follows them. *)
Fixpoint digits (s : string) : string * string :=
  match s with
  | String c r =>
      if Strconv.isDigit c then let (d, rest) := digits r in (String c d, rest)
      else ("", s)
  | EmptyString => ("", "")
  end.

(** One digit or more. *)
Definition digits1 (s : string) : option (string * string) :=
  match digits s with
  | (EmptyString, _) => None
  | (d, rest) => Some (d, rest)
  end.

(** The leftmost position of [s] at which [here] matches. *)
Fixpoint leftmost {A : Type} (here : string -> option A) (s : string)
  : option A :=
  match here s with
  | Some a => Some a
  | None => match s with
            | String _ r => leftmost here r
            | EmptyString => None
            end
  end.

(** What a greedy group of any characters takes at the head of [s]: the
    bytes in front of the first newline. *)
Fixpoint line (s : string) : string :=
  match s with
  | String c r => if Ascii.eqb c Bufio.newline then "" else String c (line r)
  | EmptyString => ""
  end.

(** [reValue]: the text "CHIP:DMG: Value = ", then a group with the rest of
    the line. *)
Definition reValue (s : string) : option string :=
  leftmost (fun t => option_map line (eat "CHIP:DMG: Value = " t)) s.

(** The expression "Data = (true|false)". *)
Definition reStatus (s : string) : option string :=
  leftmost (fun t =>
    match eat "Data = " t with
    | Some r => if HasPrefix r "true" then Some "true"
                else if HasPrefix r "false" then Some "false" else None
    | None => None
    end) s.

(** One log prefix at the head of [s]: "[digits.digits] [digits:digits] [DMG]"
    and the white space after it. *)
Definition logPrefix (s : string) : option string :=
  match eat "[" s with None => None | Some s =>
  match digits1 s with None => None | Some (_, s) =>
  match eat "." s with None => None | Some s =>
  match digits1 s with None => None | Some (_, s) =>
  match eat "] [" s with None => None | Some s =>
  match digits1 s with None => None | Some (_, s) =>
  match eat ":" s with None => None | Some s =>
  match digits1 s with None => None | Some (_, s) =>
  match eat "] [DMG]" s with None => None | Some s =>
  Some (skipSpaces s)
  end end end end end end end end end.

(** The starred group: log prefixes as long as there is one. *)
Fixpoint logPrefixes (fuel : nat) (s : string) : string :=
  match fuel with
  | O => s
  | S f => match logPrefix s with
           | Some r => logPrefixes f r
           | None => s
           end
  end.

(** The expression of the parts list: the text "Data = [", white space, any
    number of log prefixes, then a group of one digit or more, then the
    text " (unsigned)". *)
Definition rePartsList (s : string) : option string :=
  leftmost (fun t =>
    match eat "Data = [" t with None => None | Some r =>
    let r := skipSpaces r in
    let r := logPrefixes (String.length r) r in
    match digits1 r with None => None | Some (d, r) =>
    match eat " (unsigned)" r with None => None | Some _ => Some d end
    end end) s.

(** What is in front of the last closing parenthesis of [s]. *)
Fixpoint beforeLastParen (s : string) : option string :=
  match s with
  | EmptyString => None
  | String c r =>
      match beforeLastParen r with
      | Some b => Some (String c b)
      | None => if Ascii.eqb c ")" then Some "" else None
      end
  end.

(** A greedy group, a space, a parenthesised greedy group, on a line: the
    first group ends at the last space and opening parenthesis that still have a
    closing parenthesis after them, and the second one at the last closing
    parenthesis. *)
Fixpoint valueAndType (s : string) : option (string * string) :=
  match s with
  | EmptyString => None
  | String c r =>
      match valueAndType r with
      | Some (v, t) => Some (String c v, t)
      | None =>
          if Ascii.eqb c " " then
            match eat "(" r with
            | Some a => option_map (fun t => ("", t)) (beforeLastParen a)
            | None => None
            end
          else None
      end
  end.

(** [reDataLine]: the text "CHIP:DMG:", white space (one byte or more), the
    text "Data = ", then the value and, in parentheses, the type. *)
Definition reDataLine (s : string) : option (string * string) :=
  leftmost (fun t =>
    match eat "CHIP:DMG:" t with None => None | Some r =>
    match r with
    | String c _ =>
        if isReSpace c then
          match eat "Data = " (skipSpaces r) with
          | Some d => valueAndType (line d)
          | None => None
          end
        else None
    | EmptyString => None
    end end) s.

(** The expression "CHIP:DMG: ReportDataMessage =". *)
Definition reReportStart (s : string) : bool :=
  Contains s "CHIP:DMG: ReportDataMessage =".

End Regexp.

(* ================================================================== *)
(** ** [handlers.go]: the attribute parsers *)
(* ================================================================== *)

Section AttributeParsers.

Import GoStrings.

(** [strconv.ParseFloat(s, 64)]: the parsed [float64], or [None] when it
    returns an error.  The conversion itself is no part of the model: the
    parsers are described for whatever it answers. *)
Variable ParseFloat : string -> option spec_float.

(** The unwrapping of a quoted text. *)
Definition unquote (valStr : string) : string :=
  let q := String Strconv.dquote "" in
  if HasPrefix valStr q && HasSuffix valStr q
  then Trim valStr Strconv.dquote else valStr.

(** The interpretation of the text of a value in [readAttribute]. *)
Definition interpret (valStr : string) : Value :=
  match Strconv.ParseBool valStr with
  | Some bVal => VBool bVal
  | None =>
      match Strconv.ParseInt valStr with
      | inr iVal => VInt iVal
      | inl _ =>
          match ParseFloat valStr with
          | Some fVal => VFloat fVal
          | None => VString (unquote valStr)
          end
      end
  end.

(** The value [readAttribute] reports for the standard output of a read
    that exited with status 0, and the flag [parsed]. *)
Definition attributeValue (stdout : string) : Value * bool :=
  match Regexp.reValue stdout with
  | Some m => (interpret (TrimSpace m), true)
  | None => (VString ("Raw: " ++ stdout), false)
  end.

(** [readAttribute(client, nodeID, endpointID, clusterName, attributeName)] *)
Definition readAttribute (e : Env)
    (nodeID endpointID clusterName attributeName : string) : Behaviour :=
  let cmdArgs := [ToLower clusterName; "read"; attributeName; nodeID; endpointID] in
  let r := tool e cmdArgs in
  [NotifyLog "commissioning_log"
     ("Reading attribute " ++ clusterName ++ "." ++ attributeName
      ++ " for Node " ++ nodeID ++ "...");
   Run cmdArgs] ;;
  match err r with
  | Some t =>
      [NotifyLog "commissioning_log"
         ("Failed to read attribute " ++ clusterName ++ "." ++ attributeName
          ++ ": " ++ t)] ;; done
  | None =>
      let (value, parsed) := attributeValue (stdout r) in
      (if parsed then []
       else [NotifyLog "commissioning_log"
               ("Could not parse value for " ++ clusterName ++ "."
                ++ attributeName)]) ;;
      [SendPayload "attribute_update"
         (PAttributeUpdate
            {| AttributeUpdatePayload.NodeID := nodeID;
               AttributeUpdatePayload.EndpointID := endpointID;
               AttributeUpdatePayload.Cluster := clusterName;
               AttributeUpdatePayload.Attribute := attributeName;
               AttributeUpdatePayload.Value := value |})] ;; done
  end.

(** The type tags decoded as integers. *)
Definition integerTypes : list string :=
  ["INT8S"; "INT16S"; "INT32S"; "INT64S"; "UINT8"; "UINT16"; "UINT32";
   "UINT64"; "INT8U"; "INT16U"; "INT32U"; "INT64U"].

(** The decoder of a report: the [switch] on the type tag, and the fall
    back to the text when the conversion fails. *)
Definition decode (typeStr valStr : string) : Value :=
  if String.eqb typeStr "BOOLEAN" then
    match Strconv.ParseBool valStr with
    | Some b => VBool b
    | None => VString valStr
    end
  else if existsb (String.eqb typeStr) integerTypes then
    match Strconv.ParseInt valStr with
    | inr i => VInt i
    | inl _ => VString valStr
    end
  else if String.eqb typeStr "FLOAT" || String.eqb typeStr "DOUBLE" then
    match ParseFloat valStr with
    | Some f => VFloat f
    | None => VString valStr
    end
  else if String.eqb typeStr "UTF8S" || String.eqb typeStr "OCTET_STRING" then
    VString (unquote valStr)
  else VString valStr.

(** The subscription a stream belongs to. *)
Record Subscription := {
  subNodeID : string;
  subEndpointID : string;
  subClusterName : string;
  subAttributeName : string
}.

Definition update (sub : Subscription) (value : Value) : Action :=
  SendPayload "attribute_update"
    (PAttributeUpdate
       {| AttributeUpdatePayload.NodeID := subNodeID sub;
          AttributeUpdatePayload.EndpointID := subEndpointID sub;
          AttributeUpdatePayload.Cluster := subClusterName sub;
          AttributeUpdatePayload.Attribute := subAttributeName sub;
          AttributeUpdatePayload.Value := value |}).

(** One turn of the loop over the standard output of [chip-tool ...
    subscribe]: the new value of [inReportBlock] and what is sent. *)
Definition reportStep (sub : Subscription) (inReportBlock : bool)
    (line : string) : bool * list Action :=
  if Regexp.reReportStart line then (true, [])
  else if inReportBlock then
    match Regexp.reDataLine line with
    | Some (m1, m2) =>
        (false, [update sub (decode (TrimSpace m2) (TrimSpace m1))])
    | None =>
        if Contains line "CHIP:DMG: }" then (false, []) else (true, [])
    end
  else (false, []).

(** The loop, from a value of [inReportBlock] on. *)
Fixpoint reportLoop (sub : Subscription) (inReportBlock : bool)
    (lines : list string) : bool * list Action :=
  match lines with
  | [] => (inReportBlock, [])
  | line :: rest =>
      let (b, sent) := reportStep sub inReportBlock line in
      let (b', sent') := reportLoop sub b rest in
      (b', app sent sent')
  end.

(** The updates the goroutine of the standard output sends for a stream. *)
Definition reportUpdates (sub : Subscription) (stdout : string)
  : list Action :=
  snd (reportLoop sub false (Bufio.scanLines stdout)).

End AttributeParsers.

(** *** The report blocks of a stream

    The reading of the standard output of a subscription by blocks,
    against which the loop is checked. *)
Module Report.

Import GoStrings.

(** A piece of a stream: a line outside any report block; a report block
    with a data line (the line that opens it, the lines in between, the
    data line); a report block without one (the line that opens it, the
    lines in between, the line that closes it). *)
Inductive Item :=
  | Outside (line : string)
  | WithData (opening : string) (between : list string) (data : string)
  | WithoutData (opening : string) (between : list string) (closing : string).

Definition lines (it : Item) : list string :=
  match it with
  | Outside l => [l]
  | WithData o mid d => o :: app mid [d]
  | WithoutData o mid c => o :: app mid [c]
  end.

Definition isData (l : string) : bool :=
  match Regexp.reDataLine l with Some _ => true | None => false end.

Definition isClosing (l : string) : bool := Contains l "CHIP:DMG: }".

(** A line in the middle of a block: it opens the block again, or it is
    neither a data line nor a closing line. *)
Definition isBetween (l : string) : bool :=
  Regexp.reReportStart l || negb (isData l) && negb (isClosing l).

Definition wellFormed (it : Item) : bool :=
  match it with
  | Outside l => negb (Regexp.reReportStart l)
  | WithData o mid d =>
      Regexp.reReportStart o && forallb isBetween mid
      && negb (Regexp.reReportStart d) && isData d
  | WithoutData o mid c =>
      Regexp.reReportStart o && forallb isBetween mid
      && negb (Regexp.reReportStart c) && negb (isData c) && isClosing c
  end.

(** The value and the type tag of a data line. *)
Definition dataOf (l : string) : string * string :=
  match Regexp.reDataLine l with
  | Some (m1, m2) => (TrimSpace m1, TrimSpace m2)
  | None => ("", "")
  end.

(** The updates a piece of a stream calls for. *)
Definition expected (ParseFloat : string -> option spec_float)
    (sub : Subscription) (it : Item) : list Action :=
  match it with
  | WithData _ _ d =>
      [update sub (decode ParseFloat (snd (dataOf d)) (fst (dataOf d)))]
  | _ => []
  end.

End Report.

(* ================================================================== *)
(** ** [handlers.go]: the dispatcher *)
(* ================================================================== *)

Module Dispatcher.

Import GoStrings.

Definition nl : string := String Bufio.newline "".

(** The text the handlers make of the two buffers of a run. *)
Definition outputText (out errOut : string) : string :=
  "Stdout:" ++ nl ++ out ++ nl ++ "Stderr:" ++ nl ++ errOut.

(** *** [discover_devices] *)

Definition discoverArgs : list string := ["discover"; "commissionables"].

Definition discoveryErrMsg (e : Env) (r : ToolResult) : string :=
  if deadlineExceeded e then
    "Discovery command timed out after 1m0s. Stdout: " ++ stdout r
    ++ ", Stderr: " ++ stderr r
  else
    "Error running chip-tool 'discover commissionables': "
    ++ errorText (err r) ++ ". Stdout: " ++ stdout r
    ++ ", Stderr: " ++ stderr r.

Definition discoveryResult (ds : list DiscoveredDevice) (error : string)
  : Action :=
  SendPayload "discovery_result"
    (PDiscoveryResult {| DiscoveryResultPayload.Devices := ds;
                         DiscoveryResultPayload.Error := error |}).

(** The handler reports the error of the run whatever the run gave: no
    test of [err] stands in front of these lines. *)
Definition handleDiscover (e : Env) : Behaviour :=
  let r := tool e discoverArgs in
  let errMsg := discoveryErrMsg e r in
  let (discovered, parserLogs) := Discovery.parseDiscoveryOutput (stdout r) in
  [NotifyLog "discovery_log"
     "Starting 'discover commissionables' via chip-tool...";
   Run discoverArgs;
   NotifyLog "discovery_log"
     ((if deadlineExceeded e then "Discovery timed out: "
       else "Error during discovery: ") ++ errMsg);
   discoveryResult [] errMsg;
   NotifyLog "discovery_log"
     "Discovery command 'discover commissionables' finished. Output processing..."] ;;
  map (NotifyLog "discovery_log") parserLogs ;;
  [discoveryResult discovered ""] ;; done.

(** *** [commission_device] *)

Definition commissioningStatus (success : bool)
    (nodeID details error endpointId original associated : string) : Action :=
  SendPayload "commissioning_status"
    (PCommissioningStatus
       {| CommissioningStatusPayload.Success := success;
          CommissioningStatusPayload.NodeID := nodeID;
          CommissioningStatusPayload.Details := details;
          CommissioningStatusPayload.Error := error;
          CommissioningStatusPayload.OriginalDiscriminator := original;
          CommissioningStatusPayload.EndpointId := endpointId;
          CommissioningStatusPayload.DiscriminatorAssociatedWithRequest
            := associated |}).

(** The node id the handler gives the device. *)
Definition generatedNodeID (e : Env) : string :=
  Strconv.format04d (Intn e 100000).

Definition pairingArgs (e : Env) (payload : CommissionDevicePayload.t)
  : list string :=
  ["pairing"; "onnetwork-long"; generatedNodeID e;
   CommissionDevicePayload.SetupCode payload;
   CommissionDevicePayload.LongDiscriminator payload].

Definition partsListArgs (e : Env) : list string :=
  ["descriptor"; "read"; "parts-list"; generatedNodeID e; "0"].

Definition reportsSuccess (out errOut : string) : bool :=
  Contains out "Commissioning success"
  || Contains out "commissioning complete"
  || Contains errOut "Commissioning success"
  || (Contains errOut "commissioning complete" && isEmpty errOut).

(** The handler once the setup code is known to be there.  The second run
    writes to the buffers of the first one, so its output follows the
    output of the pairing. *)
Definition commission (e : Env) (payload : CommissionDevicePayload.t)
  : Behaviour :=
  let disc := CommissionDevicePayload.LongDiscriminator payload in
  [NotifyLog "commissioning_log"
     ("Attempting to commission Node ID "
      ++ CommissionDevicePayload.CommissioningMode payload
      ++ " with setup code " ++ CommissionDevicePayload.SetupCode payload
      ++ " (using 'pairing code')")] ;;
  match getwdErr e with
  | Some _ => done
  | None =>
      let nodeID := generatedNodeID e in
      let cmdArgs := pairingArgs e payload in
      let r1 := tool e cmdArgs in
      let commissioningOutput := outputText (stdout r1) (stderr r1) in
      let r2 := tool e (partsListArgs e) in
      let out := stdout r1 ++ stdout r2 in
      let errOut := stderr r1 ++ stderr r2 in
      [NotifyLog "commissioning_log"
         ("Executing: " ++ chipToolPath ++ " " ++ Join cmdArgs " ");
       Run cmdArgs;
       NotifyLog "commissioning_log"
         ("Commissioning command output:" ++ nl ++ commissioningOutput);
       Run (partsListArgs e)] ;;
      match Regexp.rePartsList out, err r2 with
      | None, Some t =>
          [commissioningStatus false ""
             commissioningOutput
             ("Error commissioning device: " ++ t ++ ". Output: "
              ++ commissioningOutput)
             "" disc disc] ;; done
      | None, None => done
      | Some endpoint, _ =>
          [commissioningStatus true nodeID
             ("Device commissioned successfully. " ++ commissioningOutput)
             "" endpoint disc disc;
           Go (ReadAttribute nodeID "1" "BasicInformation" "NodeLabel");
           if reportsSuccess out errOut then
             commissioningStatus true ""
               ("Commissioning reported success. Node ID may need to be queried or was already known. Output: "
                ++ commissioningOutput)
               "" "" disc disc
           else
             commissioningStatus false "" commissioningOutput
               "Commissioning finished, but success or Node ID unclear from output. Check logs."
               "" disc disc] ;; done
      end
  end.

Definition handleCommission (e : Env)
    (decoded : Decoded CommissionDevicePayload.t) : Behaviour :=
  match decoded with
  | Invalid t =>
      [NotifyLog "commissioning_log"
         ("Invalid payload for commission_device: " ++ t);
       commissioningStatus false "" "" ("Invalid payload: " ++ t) "" "" ""] ;;
      done
  | Valid payload =>
      if isEmpty (CommissionDevicePayload.SetupCode payload) then
        [NotifyLog "commissioning_log"
           "Missing setupCode or nodeIdToAssign for commissioning.";
         commissioningStatus false "" ""
           "Missing setupCode or nodeIdToAssign." ""
           (CommissionDevicePayload.LongDiscriminator payload) ""] ;; done
      else commission e payload
  end.

(** *** [device_command] *)

Definition commandResponse (success : bool) (nodeID details error : string)
  : Action :=
  SendPayload "command_response"
    (PCommandResponse
       {| CommandResponsePayload.Success := success;
          CommandResponsePayload.NodeID := nodeID;
          CommandResponsePayload.Details := details;
          CommandResponsePayload.Error := error |}).

(** [payload.Params[key].(float64)] *)
Definition paramFloat64 (params : list (string * Param.t)) (key : string)
  : option spec_float :=
  match find (fun kv => String.eqb (fst kv) key) params with
  | Some (_, v) => Param.asFloat64 v
  | None => None
  end.

(** [int(f)] at a [float64] whose integer part an [int] of 64 bits
    holds: the fraction is dropped.  For the other values (NaN, the
    infinities, what lies beyond the range) the conversion of Go depends on
    the implementation; nothing is proved of what this function gives
    there. *)
Definition floatToInt (f : spec_float) : Z :=
  match f with
  | S754_finite s m e =>
      let a := if (0 <=? e)%Z then (Zpos m * 2 ^ e)%Z
               else (Zpos m / 2 ^ (- e))%Z in
      if s then (- a)%Z else a
  | _ => 0%Z
  end.

(** The positional parameters the [switch] on the cluster appends, with the
    warnings sent on the way; [inl] when the handler answers and returns
    instead. *)
Definition commandParams (payload : DeviceCommandPayload.t)
  : Action + (list Action * list string) :=
  let cluster := DeviceCommandPayload.Cluster payload in
  let command := DeviceCommandPayload.Command payload in
  let params := DeviceCommandPayload.Params payload in
  if String.eqb cluster "OnOff" then inr ([], [])
  else if String.eqb cluster "LevelControl" then
    if String.eqb command "MoveToLevel" then
      match paramFloat64 params "level" with
      | None =>
          inl (commandResponse false (DeviceCommandPayload.NodeID payload) ""
                 "Missing or invalid 'level' parameter for MoveToLevel")
      | Some levelVal =>
          inr ([],
               [Strconv.Itoa (floatToInt levelVal);
                match paramFloat64 params "transitionTime" with
                | Some ttVal => Strconv.Itoa (floatToInt ttVal)
                | None => "0"
                end; "0"; "0"])
      end
    else inr ([], [])
  else
    inr (map (fun kv =>
                NotifyLog "command_response"
                  ("Warning: Generic param handling for " ++ cluster ++ "."
                   ++ command ++ " - " ++ fst kv ++ ":" ++ Param.text (snd kv)
                   ++ ". May not be correct for chip-tool.")) params,
         map (fun kv => Param.text (snd kv)) params).

(** The textual error markers of a run that exited with status 0. *)
Definition hasErrorMarker (out errOut : string) : bool :=
  Contains out "CHIP Error" || Contains errOut "CHIP Error"
  || Contains errOut "Error:".

(** The state-refreshing read that follows a command. *)
Definition followUp (payload : DeviceCommandPayload.t) (endpointID : string)
  : list Action :=
  let cluster := DeviceCommandPayload.Cluster payload in
  let command := DeviceCommandPayload.Command payload in
  let nodeID := DeviceCommandPayload.NodeID payload in
  app
    (if String.eqb cluster "OnOff"
        && (String.eqb command "On" || String.eqb command "Off"
            || String.eqb command "Toggle")
     then [Go (ReadAttribute nodeID endpointID "OnOff" "OnOff")] else [])
    (if String.eqb cluster "LevelControl" && String.eqb command "MoveToLevel"
     then [Go (ReadAttribute nodeID endpointID "LevelControl" "CurrentLevel")]
     else []).

Definition handleDeviceCommand (e : Env)
    (decoded : Decoded DeviceCommandPayload.t) : Behaviour :=
  match decoded with
  | Invalid t =>
      [NotifyLog "command_response"
         ("Invalid payload for device_command: " ++ t);
       commandResponse false "" "" ("Invalid payload: " ++ t)] ;; done
  | Valid payload =>
      let nodeID := DeviceCommandPayload.NodeID payload in
      let cluster := DeviceCommandPayload.Cluster payload in
      let command := DeviceCommandPayload.Command payload in
      if isEmpty nodeID || isEmpty cluster || isEmpty command then
        [commandResponse false nodeID "" "Missing nodeId, cluster, or command"]
        ;; done
      else
        let endpointID := "1" in
        match commandParams payload with
        | inl answer => [answer] ;; done
        | inr (warnings, positional) =>
            let cmdArgs :=
              app [ToLower cluster; ToLower command]
                  (app positional [nodeID; endpointID]) in
            let r := tool e cmdArgs in
            let cmdOutput := outputText (stdout r) (stderr r) in
            warnings ;;
            [NotifyLog "command_response"
               ("Executing: " ++ chipToolPath ++ " " ++ Join cmdArgs " ");
             Run cmdArgs] ;;
            match err r with
            | Some t =>
                [commandResponse false nodeID cmdOutput
                   ("Error executing " ++ command ++ "." ++ cluster ++ " on "
                    ++ nodeID ++ ": " ++ t ++ ". Output: " ++ cmdOutput)] ;;
                done
            | None =>
                if hasErrorMarker (stdout r) (stderr r) then
                  [commandResponse false nodeID cmdOutput
                     "Command executed but chip-tool reported an error in its output."]
                  ;; done
                else
                  [commandResponse true nodeID
                     ("Command executed. Output: " ++ cmdOutput) ""] ;;
                  followUp payload endpointID ;; done
            end
        end
  end.

(** *** [get_status] *)

Definition statusArgs : list string := ["onoff"; "read"; "on-off"; ""; ""].

(** The index expression [match[1]] is evaluated unless the run failed and
    nothing matched; on a nil [match] it panics. *)
Definition handleGetStatus (e : Env) (payloadIsObject : bool) : Behaviour :=
  if negb payloadIsObject then done
  else
    let r := tool e statusArgs in
    [Run statusArgs] ;;
    match Regexp.reStatus (stdout r), err r with
    | None, Some _ => done
    | None, None =>
        ([], Panicked "index out of range [1] with length 0")
    | Some m, _ =>
        [SendPayload "get_status"
           (PDeviceStatus {| DeviceStatusPayload.nodeID := "";
                             DeviceStatusPayload.status := m |})] ;; done
    end.

(** *** [subscribe_attribute] *)

Definition handleSubscribe (decoded : Decoded SubscribeAttributePayload.t)
  : Behaviour :=
  match decoded with
  | Invalid t =>
      [NotifyLog "subscription_log"
         ("Invalid payload for subscribe_attribute: " ++ t);
       SendPayload "error"
         (PMessage ("Invalid subscribe_attribute payload: " ++ t))] ;; done
  | Valid payload =>
      let nodeID := SubscribeAttributePayload.NodeID payload in
      let cluster := SubscribeAttributePayload.Cluster payload in
      let attribute := SubscribeAttributePayload.Attribute payload in
      let minInterval := SubscribeAttributePayload.MinInterval payload in
      let maxInterval := SubscribeAttributePayload.MaxInterval payload in
      if isEmpty nodeID || isEmpty cluster || isEmpty attribute
         || isEmpty minInterval || isEmpty maxInterval then
        [NotifyLog "subscription_log"
           "Missing parameters for subscribe_attribute.";
         SendPayload "error"
           (PMessage "Missing parameters for subscribe_attribute (nodeId, cluster, attribute, minInterval, maxInterval required).")]
        ;; done
      else
        let epId :=
          if isEmpty (SubscribeAttributePayload.EndpointID payload) then "1"
          else SubscribeAttributePayload.EndpointID payload in
        [Go (StartAttributeSubscription nodeID epId cluster attribute
               minInterval maxInterval)] ;; done
  end.

(** *** [handleClientMessage(client, msg)] *)

Definition handleClientMessage (e : Env) (msg : ClientMessage) : Behaviour :=
  match msg with
  | DiscoverDevices => handleDiscover e
  | CommissionDevice payload => handleCommission e payload
  | DeviceCommand payload => handleDeviceCommand e payload
  | GetStatus payloadIsObject => handleGetStatus e payloadIsObject
  | SubscribeAttribute payload => handleSubscribe payload
  | UnknownType type =>
      [SendPayload "error"
         (PMessage ("Unknown command type received: " ++ type))] ;; done
  end.

End Dispatcher.

(* ================================================================== *)
(** ** [handlers.go]: the session and its outbound queue *)
(* ================================================================== *)

Module Session.

(** A [ServerMessage]: [notifyClientLog] puts a text in [Payload],
    [notifyClient] the payload it is given. *)
Inductive Body :=
  | Text (data : string)
  | Structured (payload : Payload).

Module ServerMessage.
Record t := { Type_ : string; Payload : Body }.
End ServerMessage.

Definition isFinite (f : spec_float) : bool :=
  match f with
  | S754_zero _ | S754_finite _ _ _ => true
  | S754_infinity _ | S754_nan => false
  end.

(** The error of [json.Marshal(msg)], [None] for nil.  Of the messages the
    handlers build, those it refuses hold a [float64] that is no number or
    infinite; the text is that of [UnsupportedValueError]. *)
Definition marshalErr (msg : ServerMessage.t) : option string :=
  match ServerMessage.Payload msg with
  | Structured (PAttributeUpdate p) =>
      match AttributeUpdatePayload.Value p with
      | VFloat f =>
          if isFinite f then None
          else Some ("json: unsupported value: "
                     ++ match f with
                        | S754_infinity false => "+Inf"
                        | S754_infinity true => "-Inf"
                        | _ => "NaN"
                        end)
      | _ => None
      end
  | _ => None
  end.

(** The capacity of the channel [send]: [make(chan []byte, 256)]. *)
Definition sendCapacity : nat := 256.

(** A [Client], as far as the send operations see it: the address of the
    peer, the messages waiting in the channel [send] (each stands for the
    bytes [json.Marshal] gave for it), and whether the hub has closed the
    channel. *)
Record Client := {
  remoteAddr : string;
  send : list ServerMessage.t;
  closed : bool
}.

(** What a send operation does: it returns, leaving the client in a state
    and lines in the log of the server, or it panics. *)
Inductive Result :=
  | Returns (c : Client) (logged : list string)
  | Panics (reason : string).

Definition enqueue (c : Client) (msg : ServerMessage.t) : Client :=
  {| remoteAddr := remoteAddr c;
     send := app (send c) [msg];
     closed := closed c |}.

(** The [select] with a send case and a [default] case: a send on a closed
    channel panics; the send proceeds when the buffer has room; the default
    case runs otherwise. *)
Definition trySend (c : Client) (msg : ServerMessage.t) (dropped : string)
  : Result :=
  if closed c then Panics "send on closed channel"
  else if Nat.ltb (List.length (send c)) sendCapacity
  then Returns (enqueue c msg) []
  else Returns c [dropped].

(** [c.notifyClientLog(logType, data)] *)
Definition notifyClientLog (logType data : string) (c : Client) : Result :=
  let msg := {| ServerMessage.Type_ := logType;
                ServerMessage.Payload := Text data |} in
  match marshalErr msg with
  | Some t =>
      Returns c ["Error marshalling log message for client " ++ remoteAddr c
                 ++ ": " ++ t]
  | None =>
      trySend c msg
        ("Client " ++ remoteAddr c
         ++ " send channel full, log message dropped: " ++ logType)
  end.

(** [c.notifyClient(msgType, payload)] *)
Definition notifyClient (msgType : string) (payload : Payload) (c : Client)
  : Result :=
  let msg := {| ServerMessage.Type_ := msgType;
                ServerMessage.Payload := Structured payload |} in
  match marshalErr msg with
  | Some t =>
      Returns c ["Error marshalling server message for client "
                 ++ remoteAddr c ++ ": " ++ t]
  | None =>
      trySend c msg
        ("Client " ++ remoteAddr c
         ++ " send channel full, message dropped: " ++ msgType)
  end.

(** [c.sendPayload(msgType, payload)] *)
Definition sendPayload (msgType : string) (payload : Payload) (c : Client)
  : Result :=
  notifyClient msgType payload c.

End Session.

(* ================================================================== *)
(** ** Reading a behaviour *)
(* ================================================================== *)

Module Trace.

(** The argument vectors of the runs of [chip-tool], in order. *)
Definition runs (t : list Action) : list (list string) :=
  flat_map (fun a => match a with Run argv => [argv] | _ => [] end) t.

(** The [DiscoveryResult] events, in order. *)
Definition discoveryResults (t : list Action) : list DiscoveryResultPayload.t :=
  flat_map (fun a => match a with
                     | SendPayload _ (PDiscoveryResult p) => [p]
                     | _ => []
                     end) t.

(** The [CommissioningStatus] events, in order. *)
Definition commissioningStatuses (t : list Action)
  : list CommissioningStatusPayload.t :=
  flat_map (fun a => match a with
                     | SendPayload _ (PCommissioningStatus p) => [p]
                     | _ => []
                     end) t.

(** The [CommandResponse] events, in order. *)
Definition commandResponses (t : list Action) : list CommandResponsePayload.t :=
  flat_map (fun a => match a with
                     | SendPayload _ (PCommandResponse p) => [p]
                     | _ => []
                     end) t.

(** The [AttributeUpdate] events, in order. *)
Definition attributeUpdates (t : list Action) : list AttributeUpdatePayload.t :=
  flat_map (fun a => match a with
                     | SendPayload _ (PAttributeUpdate p) => [p]
                     | _ => []
                     end) t.

End Trace.

(** The bytes of a text. *)
Definition bytes (s : string) : list ascii := list_ascii_of_string s.

(** The payload of a [commission_device] message with another [NodeID]. *)
Definition withNodeID (nodeID : string) (p : CommissionDevicePayload.t)
  : CommissionDevicePayload.t :=
  {| CommissionDevicePayload.SetupCode := CommissionDevicePayload.SetupCode p;
     CommissionDevicePayload.VendorID := CommissionDevicePayload.VendorID p;
     CommissionDevicePayload.ProductID := CommissionDevicePayload.ProductID p;
     CommissionDevicePayload.LongDiscriminator :=
       CommissionDevicePayload.LongDiscriminator p;
     CommissionDevicePayload.CommissioningMode :=
       CommissionDevicePayload.CommissioningMode p;
     CommissionDevicePayload.NodeID := nodeID |}.

(* ================================================================== *)
(** ** Inputs used in the examples *)
(* ================================================================== *)

(** An output of [chip-tool discover commissionables] with three blocks;
    the second one has neither a discriminator nor an instance name. *)
Definition sampleDiscovery : string :=
  let nl := String Bufio.newline "" in
  let esc := String Discovery.escape "" in
  "[1700000000.100][55:55] CHIP:DL: noise" ++ nl
  ++ esc ++ "[0;34m[1700000000.200][55:57] [DIS] Discovered commissionable/commissioner node:" ++ esc ++ "[0m" ++ nl
  ++ "[1700000000.201][55:57] [DIS]   Hostname: 00155DFA0C2B" ++ nl
  ++ "[1700000000.202][55:57] [DIS]   IP Address #1: fe80::215:5dff:fefa:c2b" ++ nl
  ++ "[1700000000.203][55:57] [DIS]   Port: 5540" ++ nl
  ++ "[1700000000.204][55:57] [DIS]   Vendor ID: 65521" ++ nl
  ++ "[1700000000.205][55:57] [DIS]   Product ID: 32769" ++ nl
  ++ "[1700000000.206][55:57] [DIS]   Long Discriminator: 1234" ++ nl
  ++ "[1700000000.207][55:57] [DIS]   Commissioning Mode: 2" ++ nl
  ++ "[1700000000.300][55:57] [DIS] Discovered commissionable/commissioner node:" ++ nl
  ++ "[1700000000.301][55:57] [DIS]   Hostname: AABBCCDDEEFF" ++ nl
  ++ "[1700000000.302][55:57] [DIS]   Port: 5541" ++ nl
  ++ "[1700000000.400][55:57] [DIS] Discovered commissionable/commissioner node:" ++ nl
  ++ "[1700000000.401][55:57] [DIS]   Long Discriminator: 5678" ++ nl
  ++ "[1700000000.402][55:57] [DIS]   Instance Name: 9E1A2B3C4D5E6F70" ++ nl.

(** A device block whose Long Discriminator line also holds the text of an
    earlier key of the parser. *)
Definition shadowedDiscovery : string :=
  let nl := String Bufio.newline "" in
  "[1700000000.200][55:57] [DIS] Discovered commissionable/commissioner node:" ++ nl
  ++ "[1700000000.201][55:57] [DIS]   Long Discriminator: 1234 (Hostname: kitchen)" ++ nl.

(** Two announcements, and between them a line of 65536 bytes. *)
Definition longLineDiscovery : string :=
  let nl := String Bufio.newline "" in
  Discovery.announcements ["1234"]
  ++ Strconv.zeros (N.to_nat 65536) ++ nl
  ++ Discovery.announcements ["5678"].

(** An environment in which every run of [chip-tool] gives [r], the
    discovery ends in time and the working directory is known. *)
Definition constEnv (r : ToolResult) (seed : N) : Env :=
  {| tool := fun _ => r; deadlineExceeded := false; getwdErr := None;
     randSrc := seed |}.

(** A run that exits with status 0 and writes nothing. *)
Definition silentRun : ToolResult := {| stdout := ""; stderr := ""; err := None |}.

(** Two [commission_device] payloads: one with a setup code and no
    discriminator, one with a discriminator and no setup code. *)
Definition setupCodeOnly : CommissionDevicePayload.t :=
  {| CommissionDevicePayload.SetupCode := "20202021";
     CommissionDevicePayload.VendorID := "";
     CommissionDevicePayload.ProductID := "";
     CommissionDevicePayload.LongDiscriminator := "";
     CommissionDevicePayload.CommissioningMode := "";
     CommissionDevicePayload.NodeID := "" |}.

Definition noSetupCode : CommissionDevicePayload.t :=
  {| CommissionDevicePayload.SetupCode := "";
     CommissionDevicePayload.VendorID := "65521";
     CommissionDevicePayload.ProductID := "32769";
     CommissionDevicePayload.LongDiscriminator := "3840";
     CommissionDevicePayload.CommissioningMode := "2";
     CommissionDevicePayload.NodeID := "12" |}.

(** A [commission_device] payload with a setup code, a discriminator and a
    node id proposed by the client. *)
Definition proposesNodeID : CommissionDevicePayload.t :=
  {| CommissionDevicePayload.SetupCode := "20202021";
     CommissionDevicePayload.VendorID := "65521";
     CommissionDevicePayload.ProductID := "32769";
     CommissionDevicePayload.LongDiscriminator := "3840";
     CommissionDevicePayload.CommissioningMode := "2";
     CommissionDevicePayload.NodeID := "4242" |}.

(** A run that exits with status 0 and prints a parts list. *)
Definition pairedRun : ToolResult :=
  {| stdout := "[1.5] [9:9] [DMG] Data = [" ++ String Bufio.newline ""
               ++ "[1.6] [9:9] [DMG]   1 (unsigned)," ++ String Bufio.newline ""
               ++ "[1.7] [9:9] [DMG] ],";
     stderr := "";
     err := None |}.

(** The [device_command] message of the command On of the cluster OnOff at
    the node 7. *)
Definition turnOn : DeviceCommandPayload.t :=
  {| DeviceCommandPayload.NodeID := "7";
     DeviceCommandPayload.Cluster := "OnOff";
     DeviceCommandPayload.Command := "On";
     DeviceCommandPayload.Params := [] |}.

(** An [AttributeUpdate] whose value is the [float64] that is no number,
    as [strconv.ParseFloat] gives it for the text "NaN". *)
Definition nanUpdate : Payload :=
  PAttributeUpdate
    {| AttributeUpdatePayload.NodeID := "7";
       AttributeUpdatePayload.EndpointID := "1";
       AttributeUpdatePayload.Cluster := "TemperatureMeasurement";
       AttributeUpdatePayload.Attribute := "MeasuredValue";
       AttributeUpdatePayload.Value := VFloat S754_nan |}.

(** A session with an empty queue, and the same after the hub has closed
    its channel. *)
Definition freshClient : Session.Client :=
  {| Session.remoteAddr := "192.168.1.20:51000";
     Session.send := [];
     Session.closed := false |}.

Definition closedClient : Session.Client :=
  {| Session.remoteAddr := "192.168.1.20:51000";
     Session.send := [];
     Session.closed := true |}.

(** A stream of a subscription: two reports with a data line, one closed
    without any. *)
Definition sampleStream : list Report.Item :=
  [Report.Outside "[1.0][7:7] CHIP:EM: Received message";
   Report.WithData "[1.1][7:7] CHIP:DMG: ReportDataMessage ="
     ["[1.1][7:7] CHIP:DMG: {"; "[1.1][7:7] CHIP:DMG:   AttributeReportIBs ="]
     "[1.2][7:7] CHIP:DMG:       Data = true (BOOLEAN)";
   Report.Outside "[1.3][7:7] CHIP:DMG: }";
   Report.WithoutData "[2.1][7:7] CHIP:DMG: ReportDataMessage ="
     ["[2.1][7:7] CHIP:DMG: {"]
     "[2.2][7:7] CHIP:DMG: }";
   Report.WithData "[3.1][7:7] CHIP:DMG: ReportDataMessage ="
     []
     "[3.2][7:7] CHIP:DMG:       Data = 21 (INT16S)"].

Definition sampleSubscription : Subscription :=
  {| subNodeID := "7"; subEndpointID := "1";
     subClusterName := "OnOff"; subAttributeName := "OnOff" |}.

(* ================================================================== *)
(** ** What the parser keeps of a device *)
(* ================================================================== *)

Module DeviceInvariant.

(** The numeric fields are within the types of the struct ([int], [uint16],
    [uint8]), and the device type is the one of the commissioning mode, or
    still empty with the mode. *)
Definition inRange (d : DiscoveredDevice) : Prop :=
  (- 2 ^ 63 <= Port d < 2 ^ 63)%Z
  /\ (0 <= PairingHint d <= 65535)%Z
  /\ (0 <= CommissioningMode d <= 255)%Z
  /\ (Type_ d = Discovery.modeType (CommissioningMode d)
      \/ (Type_ d = "" /\ CommissioningMode d = 0%Z)).

(** The fields no line of the output writes. *)
Definition untouched (d : DiscoveredDevice) : Prop :=
  NodeID d = "" /\ MACAddress d = "" /\ DeviceType d = 0%Z.

End DeviceInvariant.

(* ================================================================== *)
(** ** More readings of a behaviour *)
(* ================================================================== *)

Module TraceMore.

(** The goroutines a handler starts, in order. *)
Definition spawned (t : list Action) : list Goroutine :=
  flat_map (fun a => match a with Go g => [g] | _ => [] end) t.

(** The payloads given to [sendPayload] and [notifyClient], in order. *)
Definition payloads (t : list Action) : list Payload :=
  flat_map (fun a => match a with SendPayload _ p => [p] | _ => [] end) t.

(** A payload that tells the client of a failure: a status or a response
    with [success] false, or an [error] message. *)
Definition negative (p : Payload) : bool :=
  match p with
  | PCommissioningStatus st => negb (CommissioningStatusPayload.Success st)
  | PCommandResponse r => negb (CommandResponsePayload.Success r)
  | PMessage _ => true
  | _ => false
  end.

End TraceMore.

(** The messages a handler turns down before it runs anything: a payload
    that does not decode, a required field that is empty, parameters the
    cluster does not accept, a type it does not know. *)
Definition rejected (msg : ClientMessage) : bool :=
  match msg with
  | DiscoverDevices => false
  | CommissionDevice (Invalid _) => true
  | CommissionDevice (Valid p) =>
      GoStrings.isEmpty (CommissionDevicePayload.SetupCode p)
  | DeviceCommand (Invalid _) => true
  | DeviceCommand (Valid p) =>
      GoStrings.isEmpty (DeviceCommandPayload.NodeID p)
      || GoStrings.isEmpty (DeviceCommandPayload.Cluster p)
      || GoStrings.isEmpty (DeviceCommandPayload.Command p)
      || match Dispatcher.commandParams p with
         | inl _ => true
         | inr _ => false
         end
  | GetStatus payloadIsObject => negb payloadIsObject
  | SubscribeAttribute (Invalid _) => true
  | SubscribeAttribute (Valid p) =>
      GoStrings.isEmpty (SubscribeAttributePayload.NodeID p)
      || GoStrings.isEmpty (SubscribeAttributePayload.Cluster p)
      || GoStrings.isEmpty (SubscribeAttributePayload.Attribute p)
      || GoStrings.isEmpty (SubscribeAttributePayload.MinInterval p)
      || GoStrings.isEmpty (SubscribeAttributePayload.MaxInterval p)
  | UnknownType _ => true
  end.

(* ================================================================== *)
(** ** [handlers.go]: the subscription *)
(* ================================================================== *)

Section Subscriptions.

Import GoStrings.

Variable ParseFloat : string -> option spec_float.

(** What the start of [chip-tool ... subscribe] and its two streams give:
    the errors of [cmd.StdoutPipe()], [cmd.StderrPipe()] and [cmd.Start()]
    ([None] for nil); the text the process writes to its standard output
    and the one it writes to its standard error, whole when the stream comes
    to an end, and else a part of it that reaches into a line the scanner
    cannot hold, where the reading stops; whether the process exits, so
    that [cmd.Wait()] returns, and the error of [cmd.Wait()] then.  A
    process that is not read any more and goes on writing never exits.  A
    stream that neither ends nor holds such a line keeps its reader in the
    loop; it is none of these. *)
Record Stream := {
  stdoutPipeErr : option string;
  stderrPipeErr : option string;
  startErr : option string;
  outText : string;
  errText : string;
  exits : bool;
  waitErr : option string
}.

(** The error of [scanner.Err()] after the loop over a text: the scanner
    stops at a line it cannot hold. *)
Definition scanErr (text : string) : option string :=
  if Nat.eqb (List.length (Bufio.scanLines text))
             (List.length (Bufio.tokens (Bufio.pieces text)))
  then None else Some "bufio.Scanner: token too long".

(** The goroutine that reads the standard error. *)
Definition stderrLoop (attributeName : string) (text : string)
  : list Action :=
  map (fun line =>
         NotifyLog "subscription_log"
           ("[" ++ attributeName ++ "] Error Stream: " ++ line))
      (Bufio.scanLines text).

(** The goroutine that reads the standard output: the loop, the error of
    the scanner, and, once [cmd.Wait()] has returned, the last line. *)
Definition stdoutLoop (sub : Subscription) (s : Stream) : list Action :=
  app (reportUpdates ParseFloat sub (outText s))
      (app
         match scanErr (outText s) with
         | Some t =>
             [NotifyLog "subscription_log"
                ("[" ++ subAttributeName sub
                 ++ "] Error reading subscription stream: " ++ t)]
         | None => []
         end
         (if exits s then
            [NotifyLog "subscription_log"
               ("Subscription for " ++ subClusterName sub ++ "/"
                ++ subAttributeName sub ++ " on Node " ++ subNodeID sub
                ++ " ended. Error: " ++ errorText (waitErr s))]
          else [])).

Definition subscribeArgs (sub : Subscription) (minInterval maxInterval : string)
  : list string :=
  [ToLower (subClusterName sub); "subscribe"; subAttributeName sub;
   minInterval; maxInterval; subNodeID sub; subEndpointID sub].

(** [startAttributeSubscription]: what it sends itself, and the two
    goroutines it leaves behind when the process has started (what the one
    of the standard error sends, what the one of the standard output
    sends). *)
Definition startAttributeSubscription (s : Stream) (sub : Subscription)
  : list Action * option (list Action * list Action) :=
  let attempt :=
    NotifyLog "subscription_log"
      ("Attempting to subscribe to " ++ subClusterName sub ++ "/"
       ++ subAttributeName sub ++ " on Node " ++ subNodeID sub
       ++ " EP" ++ subEndpointID sub) in
  match stdoutPipeErr s, stderrPipeErr s, startErr s with
  | Some t, _, _ =>
      ([attempt;
        NotifyLog "subscription_log"
          ("Error starting subscription pipe for " ++ subAttributeName sub
           ++ ": " ++ t)], None)
  | None, Some t, _ =>
      ([attempt;
        NotifyLog "subscription_log"
          ("Error starting subscription stderr pipe for "
           ++ subAttributeName sub ++ ": " ++ t)], None)
  | None, None, Some t =>
      ([attempt;
        NotifyLog "subscription_log"
          ("Error starting subscription command for " ++ subAttributeName sub
           ++ ": " ++ t)], None)
  | None, None, None =>
      ([attempt;
        NotifyLog "subscription_log"
          ("Subscription process started for " ++ subClusterName sub ++ "/"
           ++ subAttributeName sub ++ ".")],
       Some (stderrLoop (subAttributeName sub) (errText s),
             stdoutLoop sub s))
  end.

End Subscriptions.

(** A text without a newline byte. *)
Definition noNewline (l : string) : bool :=
  forallb (fun c => negb (Ascii.eqb c Bufio.newline)) (list_ascii_of_string l).

(* ================================================================== *)
(** ** What the goroutines of a handler send *)
(* ================================================================== *)

Section Goroutines.

Variable ParseFloat : string -> option spec_float.

(** What the process of a subscription gives, by its argument vector. *)
Variable streamOf : list string -> Stream.

(** What a function started with [go] sends, one list for each goroutine
    it comes to: its own and, for a subscription whose process has started,
    the two readers.  ([readAttribute] always returns.) *)
Definition goroutine (e : Env) (g : Goroutine) : list (list Action) :=
  match g with
  | ReadAttribute nodeID endpointID clusterName attributeName =>
      [fst (readAttribute ParseFloat e nodeID endpointID clusterName
              attributeName)]
  | StartAttributeSubscription nodeID endpointID clusterName attributeName
      minInterval maxInterval =>
      let sub := {| subNodeID := nodeID; subEndpointID := endpointID;
                    subClusterName := clusterName;
                    subAttributeName := attributeName |} in
      let (own, readers) :=
        startAttributeSubscription ParseFloat
          (streamOf (subscribeArgs sub minInterval maxInterval)) sub in
      own :: match readers with
             | Some (errs, outs) => [errs; outs]
             | None => []
             end
  end.

End Goroutines.

(* ================================================================== *)
(** ** [models.go]: what the client is sent of a status *)
(* ================================================================== *)


(* ================================================================== *)
(** ** [hub.go]: the registry of the sessions *)
(* ================================================================== *)

Module Hub.

(** A client is known by its address in memory. *)
Definition ClientId : Type := nat.

(** The hub and the clients it points to: the keys of the map [h.clients]
    (with the value [true]), and the clients by their addresses. *)
Record t := {
  clients : list ClientId;
  heap : ClientId -> Session.Client
}.

(** What arrives on the channels [h.register] and [h.unregister]. *)
Inductive Event :=
  | Register (client : ClientId)
  | Unregister (client : ClientId).

Definition registered (h : t) (client : ClientId) : bool :=
  existsb (Nat.eqb client) (clients h).

(** [close(client.send)]: closing a closed channel panics. *)
Definition closeSend (c : Session.Client) : option Session.Client :=
  if Session.closed c then None
  else Some {| Session.remoteAddr := Session.remoteAddr c;
               Session.send := Session.send c;
               Session.closed := true |}.

Definition store (heap : ClientId -> Session.Client) (client : ClientId)
    (c : Session.Client) : ClientId -> Session.Client :=
  fun k => if Nat.eqb k client then c else heap k.

(** One turn of the loop of [Run]; [None] when it panics. *)
Definition step (h : t) (ev : Event) : option t :=
  match ev with
  | Register client =>
      Some {| clients := if registered h client then clients h
                         else client :: clients h;
              heap := heap h |}
  | Unregister client =>
      if registered h client then
        match closeSend (heap h client) with
        | None => None
        | Some c =>
            Some {| clients := filter (fun k => negb (Nat.eqb k client))
                                      (clients h);
                    heap := store (heap h) client c |}
        end
      else Some h
  end.

(** The loop of [Run] over the events that arrive. *)
Fixpoint run (h : t) (evs : list Event) : option t :=
  match evs with
  | [] => Some h
  | ev :: rest =>
      match step h ev with
      | Some h' => run h' rest
      | None => None
      end
  end.

(** The clients that are registered in a list of events. *)
Definition registrations (evs : list Event) : list ClientId :=
  flat_map (fun ev => match ev with
                      | Register client => [client]
                      | Unregister _ => []
                      end) evs.

(** [NewHub()], with the clients that [serveWs] will make: none is
    registered, and the channel of each is open and empty. *)
Definition newHub : t :=
  {| clients := [];
     heap := fun _ => {| Session.remoteAddr := "";
                         Session.send := [];
                         Session.closed := false |} |}.

(** What the loop keeps when no client is registered after it was
    unregistered: no key twice, the channel of a registered client and of a
    client still to be registered is open, and no registered client is
    registered again. *)
Definition sound (h : t) (evs : list Event) : Prop :=
  NoDup (clients h)
  /\ (forall c, In c (clients h) \/ In c (registrations evs) ->
        Session.closed (heap h c) = false)
  /\ (forall c, In c (clients h) -> ~ In c (registrations evs))
  /\ NoDup (registrations evs).

End Hub.

(* ================================================================== *)
(** ** [handlers.go]: the two pumps of a session *)
(* ================================================================== *)

Module Pump.

(** A frame on the connection. *)
Inductive Frame :=
  | TextMessage (message : Session.ServerMessage.t)
  | PingMessage
  | CloseMessage.

(** What the [select] of [writePump] takes: a receive from [c.send] or a
    tick of the ping timer; [failed] tells whether the write that follows
    returns an error. *)
Inductive Turn :=
  | Receive (failed : bool)
  | Tick (failed : bool).

(** A session between its producers and the connection: the client, the
    frames written to the connection, whether [writePump] is still in its
    loop; and, to state what becomes of the messages, those the send
    operations put in the channel so far and those a failed write lost. *)
Record State := {
  client : Session.Client;
  wire : list Frame;
  running : bool;
  accepted : list Session.ServerMessage.t;
  lost : list Session.ServerMessage.t
}.

Definition withClient (s : State) (c : Session.Client)
    (more : list Session.ServerMessage.t) : State :=
  {| client := c; wire := wire s; running := running s;
     accepted := app (accepted s) more; lost := lost s |}.

(** One turn of the loop of [writePump].  A receive takes the oldest
    message of the channel; on an empty channel it is possible only when the
    channel is closed, and then yields the close frame and the return. *)
Definition writeTurn (s : State) (t : Turn) : State :=
  if negb (running s) then s
  else
    match t with
    | Receive failed =>
        match Session.send (client s) with
        | message :: rest =>
            let c := {| Session.remoteAddr := Session.remoteAddr (client s);
                        Session.send := rest;
                        Session.closed := Session.closed (client s) |} in
            if failed then
              {| client := c; wire := wire s; running := false;
                 accepted := accepted s; lost := app (lost s) [message] |}
            else
              {| client := c; wire := app (wire s) [TextMessage message];
                 running := true; accepted := accepted s; lost := lost s |}
        | [] =>
            if Session.closed (client s) then
              {| client := client s;
                 wire := if failed then wire s else app (wire s) [CloseMessage];
                 running := false; accepted := accepted s; lost := lost s |}
            else s
        end
    | Tick failed =>
        if failed then
          {| client := client s; wire := wire s; running := false;
             accepted := accepted s; lost := lost s |}
        else
          {| client := client s; wire := app (wire s) [PingMessage];
             running := true; accepted := accepted s; lost := lost s |}
    end.

(** What happens to a session, one step at a time: a handler calls a send
    operation, the hub closes the channel, [writePump] takes a turn. *)
Inductive Op :=
  | Notify (msgType : string) (payload : Payload)
  | NotifyLog (logType data : string)
  | HubCloses
  | Writer (t : Turn).

(** One step; [None] when it panics. *)
Definition step (s : State) (op : Op) : option State :=
  match op with
  | Notify msgType payload =>
      match Session.notifyClient msgType payload (client s) with
      | Session.Returns c _ =>
          Some (withClient s c
                  (skipn (List.length (Session.send (client s)))
                         (Session.send c)))
      | Session.Panics _ => None
      end
  | NotifyLog logType data =>
      match Session.notifyClientLog logType data (client s) with
      | Session.Returns c _ =>
          Some (withClient s c
                  (skipn (List.length (Session.send (client s)))
                         (Session.send c)))
      | Session.Panics _ => None
      end
  | HubCloses =>
      match Hub.closeSend (client s) with
      | Some c => Some (withClient s c [])
      | None => None
      end
  | Writer t => Some (writeTurn s t)
  end.

Fixpoint run (s : State) (ops : list Op) : option State :=
  match ops with
  | [] => Some s
  | op :: rest =>
      match step s op with
      | Some s' => run s' rest
      | None => None
      end
  end.

(** The steps that send on the channel or close it: a send operation
    whose message [json.Marshal] takes, and the close of the hub. *)
Definition usesChannel (op : Op) : bool :=
  match op with
  | Notify msgType payload =>
      match Session.marshalErr
              {| Session.ServerMessage.Type_ := msgType;
                 Session.ServerMessage.Payload := Session.Structured payload |}
      with
      | Some _ => false
      | None => true
      end
  | NotifyLog _ _ => true
  | HubCloses => true
  | Writer _ => false
  end.

(** The send operations among the steps. *)
Definition isSend (op : Op) : bool :=
  match op with
  | Notify _ _ | NotifyLog _ _ => true
  | HubCloses | Writer _ => false
  end.

(** The session [serveWs] starts. *)
Definition fresh (addr : string) : State :=
  {| client := {| Session.remoteAddr := addr;
                  Session.send := [];
                  Session.closed := false |};
     wire := []; running := true; accepted := []; lost := [] |}.

(** The messages of the text frames of a connection. *)
Definition texts (frames : list Frame) : list Session.ServerMessage.t :=
  flat_map (fun f => match f with TextMessage m => [m] | _ => [] end) frames.

(** What [ReadMessage] and [json.Unmarshal] give for a frame that comes
    in: an error of the read, a frame that does not decode, a message. *)
Inductive Read :=
  | ReadError (err : string)
  | Malformed (err : string)
  | Message (msg : ClientMessage).

(** What [readPump] does. *)
Inductive Reaction :=
  | Answer (a : Action)
  | Handle (msg : ClientMessage)               (* go handleClientMessage *)
  | UnregisterAndClose.                (* the deferred function of the pump *)

(** [readPump] over the frames that come in; an empty list leaves it in
    [ReadMessage]. *)
Fixpoint readPump (reads : list Read) : list Reaction :=
  match reads with
  | [] => []
  | ReadError _ :: _ => [UnregisterAndClose]
  | Malformed err :: rest =>
      Answer (SendPayload "error"
                (PMessage ("Invalid message format: " ++ err)))
      :: readPump rest
  | Message msg :: rest => Handle msg :: readPump rest
  end.

(** What a send operation makes of a client: it panics on a closed
    channel, leaves the client as it is, or puts its message in a channel
    that is open and has room. *)
Inductive Sent (c : Session.Client) : Session.Result -> Prop :=
  | SentPanics reason :
      Session.closed c = true -> Sent c (Session.Panics reason)
  | SentKept logged : Sent c (Session.Returns c logged)
  | SentQueued msg :
      Session.closed c = false ->
      List.length (Session.send c) < Session.sendCapacity ->
      Sent c (Session.Returns (Session.enqueue c msg) []).

(** What holds of a session at every step: the messages written, the one
    a failed write lost and those that wait are the accepted ones, in this
    order. *)
Definition ordered (s : State) : Prop :=
  accepted s = (texts (wire s) ++ lost s ++ Session.send (client s))%list
  /\ List.length (Session.send (client s)) <= Session.sendCapacity
  /\ List.length (lost s) <= 1
  /\ (lost s <> [] -> running s = false).

End Pump.

(** The send operations a handler calls, in order, as steps of its
    session. *)
Definition opsOf (t : list Action) : list Pump.Op :=
  flat_map (fun a => match a with
                     | NotifyLog logType data => [Pump.NotifyLog logType data]
                     | SendPayload msgType payload => [Pump.Notify msgType payload]
                     | Run _ | Go _ => []
                     end) t.

(* ================================================================== *)
(** ** Environments that differ in one run *)
(* ================================================================== *)

(** The environment [e], but for the error with which the run of
    [chip-tool] on [argv] ends. *)
Definition withRunError (e : Env) (argv : list string) (t : option string)
  : Env :=
  {| tool := fun a =>
               if list_eq_dec string_dec a argv
               then {| stdout := stdout (tool e a);
                       stderr := stderr (tool e a);
                       err := t |}
               else tool e a;
     deadlineExceeded := deadlineExceeded e;
     getwdErr := getwdErr e;
     randSrc := randSrc e |}.

(* ================================================================== *)
(** ** More inputs used in the examples *)
(* ================================================================== *)

(** A [device_command] message without a cluster. *)
Definition noCluster : DeviceCommandPayload.t :=
  {| DeviceCommandPayload.NodeID := "7";
     DeviceCommandPayload.Cluster := "";
     DeviceCommandPayload.Command := "On";
     DeviceCommandPayload.Params := [] |}.


(** A [subscribe_attribute] payload that names no endpoint. *)
Definition subscribeOnOff : SubscribeAttributePayload.t :=
  {| SubscribeAttributePayload.NodeID := "7";
     SubscribeAttributePayload.EndpointID := "";
     SubscribeAttributePayload.Cluster := "OnOff";
     SubscribeAttributePayload.Attribute := "OnOff";
     SubscribeAttributePayload.MinInterval := "1";
     SubscribeAttributePayload.MaxInterval := "10" |}.
Example Itoa_samples :
  map Strconv.Itoa [0; 7; 10; 5540; 99999; -42]%Z
  = ["0"; "7"; "10"; "5540"; "99999"; "-42"].
Proof. reflexivity. Qed.

Example format04d_samples :
  map Strconv.format04d [0; 7; 123; 1234; 99999]%N
  = ["0000"; "0007"; "0123"; "1234"; "99999"].
Proof. reflexivity. Qed.

Example ParseInt_samples :
  map Strconv.ParseInt
      ["42"; "-7"; "+3"; ""; "-"; "4x"; "9223372036854775807";
       "9223372036854775808"; "-9223372036854775808"; "1_000"]
  = [inr 42; inr (-7); inr 3; inl Strconv.ErrSyntax; inl Strconv.ErrSyntax;
     inl Strconv.ErrSyntax; inr 9223372036854775807; inl Strconv.ErrRange;
     inr (-9223372036854775808); inl Strconv.ErrSyntax]%Z.
Proof. reflexivity. Qed.

Example TrimSpace_samples :
  map GoStrings.TrimSpace ["  a b  "; ""; "   "; String "009" "x" ++ String "013" ""]
  = ["a b"; ""; ""; "x"].
Proof. reflexivity. Qed.

Example TrimSpace_unicode :
  let nbsp := String (ascii_of_N 194) (String (ascii_of_N 160) "") in
  let emSpace := String (ascii_of_N 226) (String (ascii_of_N 128)
                   (String (ascii_of_N 131) "")) in
  let stray := String (ascii_of_N 160) "" in
  GoStrings.TrimSpace (nbsp ++ " x y" ++ emSpace ++ nbsp) = "x y"
  /\ GoStrings.TrimSpace (stray ++ "x") = stray ++ "x".
Proof. split; reflexivity. Qed.

Example strings_samples :
  GoStrings.Index "a [DIS] b [DIS]" "[DIS]" = Some 2
  /\ GoStrings.Index "abc" "" = Some 0
  /\ GoStrings.Index "abc" "cd" = None
  /\ GoStrings.HasSuffix "value (x)" "(x)" = true
  /\ GoStrings.HasSuffix "x" "xx" = false
  /\ GoStrings.Trim "--a-b--" "-" = "a-b"
  /\ GoStrings.ToLower "LevelControl" = "levelcontrol"
  /\ GoStrings.Join ["onoff"; "on"; "7"; "1"] " " = "onoff on 7 1".
Proof. repeat split; reflexivity. Qed.

Example stripAnsi_samples :
  let esc := String Discovery.escape "" in
  Discovery.stripAnsi (esc ++ "[0;32m[DIS] x" ++ esc ++ "[0m") = "[DIS] x"
  /\ Discovery.stripAnsi (esc ++ "[12;") = esc ++ "[12;"
  /\ Discovery.stripAnsi (esc ++ "[" ++ esc ++ "[1mA") = esc ++ "[A"
  /\ Discovery.extractValueAfterKey "  Port: 5540 " "Port:" = "5540"
  /\ Discovery.extractValueAfterKey "Port:" "Port:" = ""
  /\ Discovery.extractValueAfterKey "Hostname: a" "Port:" = "".
Proof. repeat split; reflexivity. Qed.

Example scanLines_samples :
  Bufio.scanLines ("a" ++ String Bufio.carriageReturn (String Bufio.newline
                   (String Bufio.newline ("b" ++ String Bufio.newline ""))))
  = ["a"; ""; "b"]
  /\ Bufio.scanLines "" = []
  /\ Bufio.scanLines "last" = ["last"].
Proof. repeat split; reflexivity. Qed.

(* ================================================================== *)
(** ** Decimal texts *)
(* ================================================================== *)

Module StrconvFacts.

Import Strconv.

Lemma byte_digitChar (d : N) :
  (d < 10)%N -> GoStrings.byte (digitChar d) = (48 + d)%N.
Proof.
  intros H. unfold GoStrings.byte, digitChar.
  apply N_ascii_embedding. lia.
Qed.

Lemma isDigit_digitChar (d : N) : (d < 10)%N -> isDigit (digitChar d) = true.
Proof.
  intros H. unfold isDigit. rewrite (byte_digitChar d H).
  apply andb_true_iff. split; apply N.leb_le; lia.
Qed.

Lemma digitVal_digitChar (d : N) :
  (d < 10)%N -> digitVal (digitChar d) = Z.of_N d.
Proof. intros H. unfold digitVal. rewrite (byte_digitChar d H). lia. Qed.

Lemma digitVal_range (c : ascii) :
  isDigit c = true -> (0 <= digitVal c <= 9)%Z.
Proof.
  unfold isDigit, digitVal. intros H. apply andb_true_iff in H.
  destruct H as [H1 H2]. apply N.leb_le in H1, H2. lia.
Qed.

Lemma valDigits_ge (s : string) (a : Z) :
  Forall (fun c => isDigit c = true) (bytes s) -> (0 <= a)%Z ->
  (a <= valDigits s a)%Z.
Proof.
  revert a; induction s as [|c r IH]; intros a Hd Ha; simpl; [lia|].
  inversion Hd as [|c' l Hc Hr]; subst.
  pose proof (digitVal_range c Hc).
  specialize (IH (a * 10 + digitVal c)%Z Hr). lia.
Qed.

(** On digits, the loop of [ParseUint] computes [valDigits] as long as the
    value fits. *)
Lemma parseDigits_val (maxVal : Z) (s : string) (a : Z) :
  Forall (fun c => isDigit c = true) (bytes s) -> (0 <= a)%Z ->
  (valDigits s a <= maxVal)%Z ->
  parseDigits maxVal s a = inr (valDigits s a).
Proof.
  revert a; induction s as [|c r IH]; intros a Hd Ha Hm; simpl; [reflexivity|].
  inversion Hd as [|c' l Hc Hr]; subst. rewrite Hc. simpl.
  pose proof (digitVal_range c Hc).
  assert (Hn : (0 <= a * 10 + digitVal c)%Z) by lia.
  pose proof (valDigits_ge r _ Hr Hn). simpl in Hm.
  destruct (Z.ltb_spec maxVal (a * 10 + digitVal c)); [lia|].
  now apply IH.
Qed.

Lemma utoa_digits (fuel : nat) (n : N) (acc : string) :
  Forall (fun c => isDigit c = true) (bytes acc) ->
  Forall (fun c => isDigit c = true) (bytes (utoa fuel n acc)).
Proof.
  assert (Hd : forall m, isDigit (digitChar (m mod 10)) = true).
  { intros m. apply isDigit_digitChar. now apply N.mod_lt. }
  revert n acc; induction fuel as [|f IH]; intros n acc Ha; simpl.
  - constructor; [apply Hd|exact Ha].
  - destruct (n <? 10)%N.
    + constructor; [apply Hd|exact Ha].
    + apply IH. constructor; [apply Hd|exact Ha].
Qed.

Lemma utoa_val (fuel : nat) (n : N) (acc : string) :
  (n < 10 ^ N.of_nat (S fuel))%N ->
  valDigits (utoa fuel n acc) 0 = valDigits acc (Z.of_N n).
Proof.
  revert n acc; induction fuel as [|f IH]; intros n acc Hn.
  - simpl in *. change (10 ^ 1)%N with 10%N in Hn.
    rewrite digitVal_digitChar by now apply N.mod_lt.
    rewrite N.mod_small by exact Hn. reflexivity.
  - cbn [utoa]. destruct (N.ltb_spec n 10) as [Hs|Hs].
    + simpl. rewrite digitVal_digitChar by now apply N.mod_lt.
      rewrite N.mod_small by exact Hs. reflexivity.
    + rewrite IH.
      * simpl. rewrite digitVal_digitChar by now apply N.mod_lt.
        f_equal. rewrite N2Z.inj_mod, N2Z.inj_div.
        pose proof (Z.div_mod (Z.of_N n) 10). simpl Z.of_N. lia.
      * apply N.Div0.div_lt_upper_bound.
        rewrite <- N.pow_succ_r'. now rewrite <- Nnat.Nat2N.inj_succ.
Qed.

Lemma formatUint_fuel (n : N) : (n < 10 ^ N.of_nat (S (N.to_nat (N.log2 n))))%N.
Proof.
  rewrite Nnat.Nat2N.inj_succ, Nnat.N2Nat.id.
  destruct (N.eq_dec n 0) as [->|Hn]; [reflexivity|].
  apply N.lt_le_trans with (2 ^ N.succ (N.log2 n))%N.
  - apply N.log2_spec. lia.
  - apply N.pow_le_mono_l. lia.
Qed.

Lemma utoa_not_empty (fuel : nat) (n : N) (acc : string) :
  utoa fuel n acc <> "" .
Proof.
  revert n acc; induction fuel as [|f IH]; intros n acc; simpl.
  - discriminate.
  - destruct (n <? 10)%N; [discriminate|apply IH].
Qed.

Lemma bytes_app (s t : string) : bytes (s ++ t) = (bytes s ++ bytes t)%list.
Proof. induction s as [|c r IH]; simpl; [reflexivity|now rewrite IH]. Qed.

Lemma zeros_digits (k : nat) :
  Forall (fun c => isDigit c = true) (bytes (zeros k)).
Proof. induction k; simpl; constructor; [reflexivity|assumption]. Qed.

Lemma zeros_val (k : nat) (s : string) :
  valDigits (zeros k ++ s) 0 = valDigits s 0.
Proof. induction k; simpl; [reflexivity|exact IHk]. Qed.

Lemma length_zeros (k : nat) : String.length (zeros k) = k.
Proof. induction k; simpl; [reflexivity|now rewrite IHk]. Qed.

Lemma length_append (s t : string) :
  String.length (s ++ t) = String.length s + String.length t.
Proof. induction s as [|c r IH]; simpl; [reflexivity|now rewrite IH]. Qed.

(** The text of [%04d]: digits only, four at least, and the decimal
    notation of the value. *)
Lemma format04d_spec (n : N) :
  Forall (fun c => isDigit c = true) (bytes (format04d n))
  /\ 4 <= String.length (format04d n)
  /\ valDigits (format04d n) 0 = Z.of_N n.
Proof.
  unfold format04d, formatUint. repeat split.
  - rewrite bytes_app. apply Forall_app. split.
    + apply zeros_digits.
    + apply utoa_digits. constructor.
  - rewrite length_append, length_zeros. lia.
  - rewrite zeros_val, utoa_val by apply formatUint_fuel. reflexivity.
Qed.

(** [Atoi] reads the text of [%04d] back. *)
Lemma Atoi_format04d (n : N) :
  (n < 2 ^ 63)%N -> Atoi (format04d n) = inr (Z.of_N n).
Proof.
  intros Hn. destruct (format04d_spec n) as (Hd & Hl & Hv).
  unfold Atoi, ParseInt.
  destruct (format04d n) as [|c r] eqn:Hf; [simpl in Hl; lia|].
  assert (Hc : isDigit c = true) by now inversion Hd.
  assert (Hp : Ascii.eqb c "+" = false /\ Ascii.eqb c "-" = false).
  { split; apply Ascii.eqb_neq; intros ->; discriminate. }
  destruct Hp as [-> ->]. cbn [orb negb andb].
  assert (H63 : (Z.of_N n < 2 ^ 63)%Z).
  { change (2 ^ 63)%Z with (Z.of_N (2 ^ 63)). lia. }
  assert (Hfit : (valDigits (String c r) 0 <= 2 ^ 64 - 1)%Z).
  { rewrite Hv. change (2 ^ 64 - 1)%Z with (2 ^ 63 + (2 ^ 63 - 1))%Z.
    assert (0 < 2 ^ 63)%Z by reflexivity. lia. }
  unfold ParseUint.
  rewrite (parseDigits_val _ _ 0%Z Hd (Z.le_refl 0) Hfit), Hv.
  destruct (Z.leb_spec (2 ^ 63) (Z.of_N n)); [lia|reflexivity].
Qed.

End StrconvFacts.

(* ================================================================== *)
(** ** Texts *)
(* ================================================================== *)

Module GoStringsFacts.

Import GoStrings.

Lemma list_of_append (s t : string) :
  list_ascii_of_string (s ++ t)
  = (list_ascii_of_string s ++ list_ascii_of_string t)%list.
Proof. induction s as [|c r IH]; simpl; [reflexivity|now rewrite IH]. Qed.

Lemma rev_snoc (s : string) (c : ascii) :
  rev (s ++ String c "") = String c (rev s).
Proof.
  unfold rev. rewrite list_of_append, rev_app_distr. reflexivity.
Qed.

Lemma rev_involutive (s : string) : rev (rev s) = s.
Proof.
  unfold rev. rewrite list_ascii_of_string_of_list_ascii, List.rev_involutive.
  apply string_of_list_ascii_of_string.
Qed.

(** A text that is not empty ends with a byte. *)
Lemma last_byte (s : string) :
  s <> "" -> exists s' c, s = s' ++ String c "".
Proof.
  induction s as [|c r IH]; [contradiction|]. intros _.
  destruct r as [|d r'].
  - exists "", c. reflexivity.
  - destruct IH as (s' & l & Hs); [discriminate|].
    exists (String c s'), l. simpl. now rewrite Hs.
Qed.

Lemma graphic_not_space (c : ascii) :
  isGraphic c = true ->
  isAsciiSpace c = false
  /\ (forall d, isSpace2 c d = false) /\ (forall d, isSpace2 d c = false)
  /\ (forall d e, isSpace3 c d e = false)
  /\ (forall d e, isSpace3 e d c = false).
Proof.
  unfold isGraphic, isAsciiSpace, isSpace2, isSpace3. intros H.
  apply andb_true_iff in H. destruct H as [H1 H2].
  apply N.leb_le in H1, H2.
  repeat split; intros;
    repeat match goal with
           | |- context [(?a =? ?b)%N] => destruct (N.eqb_spec a b)
           | |- context [(?a <=? ?b)%N] => destruct (N.leb_spec a b)
           end; try reflexivity; lia.
Qed.

Lemma trimLeftSpace_graphic (c : ascii) (r : string) :
  isGraphic c = true -> trimLeftSpace (String c r) = String c r.
Proof.
  intros H. destruct (graphic_not_space c H) as (Ha & H2 & _ & H3 & _).
  cbn [trimLeftSpace]. rewrite Ha.
  destruct r as [|d r2]; [reflexivity|]. rewrite H2.
  destruct r2 as [|e r3]; [reflexivity|]. now rewrite H3.
Qed.

Lemma trimLeftSpaceRev_graphic (c : ascii) (r : string) :
  isGraphic c = true -> trimLeftSpaceRev (String c r) = String c r.
Proof.
  intros H. destruct (graphic_not_space c H) as (Ha & _ & H2 & _ & H3).
  cbn [trimLeftSpaceRev]. rewrite Ha.
  destruct r as [|d r2]; [reflexivity|]. rewrite H2.
  destruct r2 as [|e r3]; [reflexivity|]. now rewrite H3.
Qed.

(** [TrimSpace] leaves a text that starts and ends with a graphic byte. *)
Lemma TrimSpace_graphic (c l : ascii) (r s' : string) :
  isGraphic c = true -> isGraphic l = true ->
  String c r = s' ++ String l "" ->
  TrimSpace (String c r) = String c r.
Proof.
  intros Hc Hl Hs. unfold TrimSpace, trimRightSpace.
  rewrite (trimLeftSpace_graphic c r Hc), Hs, rev_snoc.
  rewrite (trimLeftSpaceRev_graphic l _ Hl), <- rev_snoc.
  apply rev_involutive.
Qed.

(** A text none of whose bytes is the first byte of [sub] does not hold
    [sub]. *)
Lemma Index_none (s : string) (b : ascii) (sub : string) :
  Forall (fun c => Ascii.eqb b c = false) (bytes s) ->
  Index s (String b sub) = None.
Proof.
  induction s as [|c r IH]; intros H; [reflexivity|].
  inversion H as [|c' l Hc Hr]; subst.
  cbn [Index HasPrefix]. rewrite Hc. cbn [andb]. now rewrite (IH Hr).
Qed.

End GoStringsFacts.

(* ================================================================== *)
(** ** The line scanner *)
(* ================================================================== *)

Module BufioFacts.

Import Bufio.

Lemma pieces_not_nil (s : string) : pieces s <> [].
Proof.
  induction s as [|c r IH]; simpl; [discriminate|].
  destruct (Ascii.eqb c newline); [discriminate|].
  destruct (pieces r); [contradiction|discriminate].
Qed.

Lemma pieces_line (l rest : string) :
  forallb (fun c => negb (Ascii.eqb c newline)) (list_ascii_of_string l) = true ->
  pieces (l ++ String newline rest) = l :: pieces rest.
Proof.
  induction l as [|c l IH]; simpl; intros H.
  - reflexivity.
  - apply andb_true_iff in H. destruct H as [Hc Hl].
    apply negb_true_iff in Hc. now rewrite Hc, (IH Hl).
Qed.

Lemma dropCR_plain (l : string) :
  GoStrings.HasPrefix (GoStrings.rev l) (String carriageReturn "") = false ->
  dropCR l = l.
Proof.
  unfold dropCR. destruct (GoStrings.rev l) as [|c r]; [reflexivity|].
  cbn [GoStrings.HasPrefix]. rewrite (Ascii.eqb_sym carriageReturn c).
  destruct (Ascii.eqb c carriageReturn); simpl; [|reflexivity].
  destruct r; discriminate.
Qed.

(** The scanner gives back the lines of a text made of plain lines. *)
Lemma scanLines_joinLines (ls : list string) :
  forallb plainLine ls = true -> scanLines (joinLines ls) = ls.
Proof.
  unfold scanLines.
  induction ls as [|l ls IH]; [reflexivity|].
  cbn [forallb joinLines]. intros H.
  apply andb_true_iff in H. destruct H as [Hl Hls].
  unfold plainLine in Hl.
  apply andb_true_iff in Hl. destruct Hl as [Hl Hlen].
  apply andb_true_iff in Hl. destruct Hl as [Hnl Hcr].
  apply negb_true_iff in Hcr.
  rewrite (pieces_line l _ Hnl).
  pose proof (pieces_not_nil (joinLines ls)) as Hne.
  destruct (pieces (joinLines ls)) as [|p ps] eqn:Hp; [contradiction|].
  cbn [tokens untilTooLong map]. rewrite Hlen.
  cbn [map]. rewrite (dropCR_plain l Hcr). f_equal. exact (IH Hls).
Qed.

End BufioFacts.

Module ScannerFacts.

Import GoStrings Bufio.

Lemma string_append_assoc (s t u : string) : (s ++ t) ++ u = s ++ (t ++ u).
Proof. induction s as [|c r IH]; simpl; [reflexivity|now rewrite IH]. Qed.

Lemma untilTooLong_fits (ps : list string) :
  forallb (fun p => (N.of_nat (String.length p) <? MaxScanTokenSize)%N) ps = true ->
  untilTooLong ps = ps.
Proof.
  induction ps as [|p ps IH]; [reflexivity|].
  cbn [forallb untilTooLong]. intros H.
  apply andb_true_iff in H. destruct H as [-> H]. now rewrite (IH H).
Qed.

Lemma plainLine_parts (l : string) :
  plainLine l = true ->
  noNewline l = true
  /\ HasPrefix (rev l) (String carriageReturn "") = false
  /\ (N.of_nat (String.length l) <? MaxScanTokenSize)%N = true.
Proof.
  unfold plainLine. intros H.
  apply andb_true_iff in H. destruct H as [H Hlen].
  apply andb_true_iff in H. destruct H as [Hnl Hcr].
  apply negb_true_iff in Hcr. auto.
Qed.

Lemma tokens_cons (l : string) (s : string) :
  tokens (l :: pieces s) = l :: tokens (pieces s).
Proof.
  pose proof (BufioFacts.pieces_not_nil s) as Hne.
  destruct (pieces s); [contradiction|reflexivity].
Qed.

Lemma scanLines_cons (l rest : string) :
  plainLine l = true ->
  scanLines (l ++ String newline rest) = l :: scanLines rest
  /\ tokens (pieces (l ++ String newline rest)) = l :: tokens (pieces rest).
Proof.
  intros H. apply plainLine_parts in H. destruct H as (Hnl & Hcr & Hlen).
  unfold scanLines. rewrite (BufioFacts.pieces_line l rest Hnl), tokens_cons.
  cbn [untilTooLong map]. rewrite Hlen. cbn [map].
  now rewrite (BufioFacts.dropCR_plain l Hcr).
Qed.

Lemma pieces_head (l s : string) :
  noNewline l = true ->
  exists p ps, pieces (l ++ s) = (l ++ p) :: ps.
Proof.
  unfold noNewline. induction l as [|c l IH]; cbn [append]; intros H.
  - pose proof (BufioFacts.pieces_not_nil s) as Hne.
    destruct (pieces s) as [|p ps]; [contradiction|]. now exists p, ps.
  - cbn [list_ascii_of_string forallb] in H.
    apply andb_true_iff in H. destruct H as [Hc Hl].
    apply negb_true_iff in Hc. destruct (IH Hl) as (p & ps & E).
    cbn [pieces]. rewrite Hc, E. now exists p, ps.
Qed.

Lemma scanLines_too_long (long rest : string) :
  noNewline long = true ->
  (MaxScanTokenSize <= N.of_nat (String.length long))%N ->
  scanLines (long ++ rest) = []
  /\ tokens (pieces (long ++ rest)) <> [].
Proof.
  intros Hnl Hlen. unfold scanLines.
  destruct (pieces_head long rest Hnl) as (p & ps & ->).
  assert (Hp : (MaxScanTokenSize <= N.of_nat (String.length (long ++ p)))%N).
  { rewrite StrconvFacts.length_append. lia. }
  assert (Hne : isEmpty (long ++ p) = false).
  { destruct (long ++ p); [|reflexivity].
    cbn [String.length] in Hp. unfold MaxScanTokenSize in Hp. lia. }
  assert (Ht : exists ts, tokens ((long ++ p) :: ps) = (long ++ p) :: ts).
  { destruct ps; cbn [tokens]; [rewrite Hne|]; eauto. }
  destruct Ht as (ts & ->). cbn [untilTooLong].
  destruct (N.ltb_spec (N.of_nat (String.length (long ++ p))) MaxScanTokenSize);
    [lia|]. split; [reflexivity|discriminate].
Qed.

Lemma scan_lines_then_long (ls : list string) (long rest : string) :
  forallb plainLine ls = true ->
  noNewline long = true ->
  (MaxScanTokenSize <= N.of_nat (String.length long))%N ->
  scanLines (joinLines ls ++ long ++ rest) = ls
  /\ List.length (tokens (pieces (joinLines ls ++ long ++ rest)))
     <> List.length ls.
Proof.
  intros Hls Hnl Hlen. induction ls as [|l ls IH].
  - cbn [joinLines append List.length].
    destruct (scanLines_too_long long rest Hnl Hlen) as (-> & Hne).
    split; [reflexivity|]. destruct (tokens _); [contradiction|discriminate].
  - cbn [forallb] in Hls. apply andb_true_iff in Hls. destruct Hls as [Hl Hls].
    destruct (IH Hls) as (E1 & E2). cbn [joinLines].
    rewrite string_append_assoc. cbn [append].
    destruct (scanLines_cons l (joinLines ls ++ long ++ rest) Hl) as (-> & ->).
    rewrite E1. cbn [List.length]. split; [reflexivity|lia].
Qed.

Lemma tokens_pieces_joinLines (ls : list string) :
  forallb plainLine ls = true -> tokens (pieces (joinLines ls)) = ls.
Proof.
  induction ls as [|l ls IH]; [reflexivity|].
  cbn [forallb joinLines]. intros H.
  apply andb_true_iff in H. destruct H as [Hl Hls].
  rewrite (proj2 (scanLines_cons l (joinLines ls) Hl)).
  now rewrite (IH Hls).
Qed.

End ScannerFacts.

(* ================================================================== *)
(** ** The discovery parser, block by block *)
(* ================================================================== *)

Module DiscoveryFacts.

Import GoStrings Discovery.

Example parse_sample_ids :
  map ID (fst (parseDiscoveryOutput sampleDiscovery))
  = ["dnsd_vid65521_pid32769_disc1234"; "dnsd_instance_9E1A2B3C4D5E6F70"]
  /\ List.length (blocks sampleDiscovery) = 3.
Proof. split; vm_compute; reflexivity. Qed.

Lemma fold_step_contents (ls : list string) (p : Parser) :
  fold_left step ls p
  = fold_left (fun q c => onContent c q)
      (flat_map (fun l => match contentAfterDis l with
                          | Some c => [c]
                          | None => []
                          end) ls) p.
Proof.
  revert p; induction ls as [|l ls IH]; intros p; simpl; [reflexivity|].
  unfold step at 2.
  destruct (contentAfterDis l) as [c|]; simpl; apply IH.
Qed.

Lemma devices_flush (final : bool) (p : Parser) :
  devices (flush final p) = (devices p ++ flushed (currentDevice p))%list.
Proof.
  unfold flush, flushed.
  destruct (currentDevice p) as [d|]; [|now rewrite app_nil_r].
  destruct (complete d); simpl; [reflexivity|now rewrite app_nil_r].
Qed.

Lemma onContent_marker (c : string) (p : Parser) :
  HasPrefix c blockMarker = true ->
  devices (onContent c p) = (devices p ++ flushed (currentDevice p))%list
  /\ currentDevice (onContent c p) = Some emptyDevice.
Proof.
  intros H. unfold onContent. rewrite H. simpl. split; [|reflexivity].
  exact (devices_flush false _).
Qed.

Lemma onContent_field (c : string) (p : Parser) :
  HasPrefix c blockMarker = false ->
  devices (onContent c p) = devices p
  /\ currentDevice (onContent c p)
     = option_map (fun d => applyLine d c) (currentDevice p).
Proof.
  intros H. unfold onContent, applyLine. rewrite H. simpl.
  destruct (currentDevice p) as [d|]; simpl; [|now split].
  destruct (selectKey c) as [[k v]|]; simpl; [|now split].
  destruct (setField k v d); simpl. now split.
Qed.

Lemma fold_collect (cs : list string) (p : Parser) :
  fst (finish (fold_left (fun q c => onContent c q) cs p))
  = (devices p ++ collect (currentDevice p) cs)%list.
Proof.
  revert p; induction cs as [|c cs IH]; intros p; cbn [fold_left collect].
  - exact (devices_flush true p).
  - rewrite IH.
    destruct (HasPrefix c blockMarker) eqn:Hm.
    + destruct (onContent_marker c p Hm) as [-> ->].
      now rewrite <- app_assoc.
    + destruct (onContent_field c p Hm) as [-> ->]. reflexivity.
Qed.

Lemma collect_split (cs : list string) :
  collect None cs = blockDevices (snd (splitBlocks cs))
  /\ forall d,
       collect (Some d) cs
       = (flushed (Some (fold_left applyLine (fst (splitBlocks cs)) d))
          ++ blockDevices (snd (splitBlocks cs)))%list.
Proof.
  induction cs as [|c cs [IHn IHs]]; simpl.
  - split; [reflexivity|]. intros d. now rewrite app_nil_r.
  - destruct (splitBlocks cs) as [pre bs] eqn:Hsp. simpl in *.
    destruct (HasPrefix c blockMarker); simpl.
    + assert (Hhead : collect (Some emptyDevice) cs
                      = blockDevices (pre :: bs)).
      { rewrite IHs. unfold blockDevices, blockDevice. simpl.
        destruct (complete (fold_left applyLine pre emptyDevice));
          reflexivity. }
      split; [exact Hhead|]. intros d. now rewrite Hhead.
    + split; [exact IHn|]. intros d. apply IHs.
Qed.

(** The loop against the blocks: the result holds the finalized devices of
    the complete blocks, in order. *)
Lemma parse_blocks (output : string) :
  fst (parseDiscoveryOutput output) = blockDevices (blocks output).
Proof.
  unfold parseDiscoveryOutput, blocks, disContents.
  rewrite fold_step_contents, fold_collect. simpl.
  apply (proj1 (collect_split _)).
Qed.

Lemma firstKey_value (ks : list Key) (c : string) (k : Key) (v : string) :
  firstKey ks c = Some (k, v) -> isEmpty v = false.
Proof.
  induction ks as [|k0 ks IH]; simpl; [discriminate|].
  destruct (isEmpty (extractValueAfterKey c (keyText k0))) eqn:He; [exact IH|].
  intros [= <- <-]. exact He.
Qed.

(** No branch of the chain writes [ID]; only the Long Discriminator branch
    writes [Discriminator], only the Instance Name branch [InstanceName]. *)
Lemma setField_untouched (k : Key) (v : string) (d : DiscoveredDevice) :
  let d' := fst (setField k v d) in
  ID d' = ID d
  /\ Discriminator d'
     = match k with KLongDiscriminator => v | _ => Discriminator d end
  /\ InstanceName d'
     = match k with KInstanceName => v | _ => InstanceName d end.
Proof.
  destruct k; simpl; try (repeat split; reflexivity).
  - destruct (Strconv.Atoi v); repeat split; reflexivity.
  - destruct (Strconv.ParseUint v 16); repeat split; reflexivity.
  - destruct (Strconv.ParseUint v 8); repeat split; reflexivity.
Qed.

Lemma applyLine_fields (d : DiscoveredDevice) (c : string) :
  ID (applyLine d c) = ID d
  /\ isEmpty (Discriminator (applyLine d c))
     = isEmpty (Discriminator d) && negb (carries KLongDiscriminator c)
  /\ isEmpty (InstanceName (applyLine d c))
     = isEmpty (InstanceName d) && negb (carries KInstanceName c).
Proof.
  unfold applyLine, carries.
  destruct (selectKey c) as [[k v]|] eqn:Hk.
  - apply firstKey_value in Hk.
    destruct (setField_untouched k v d) as (-> & -> & ->).
    destruct k; simpl; rewrite ?Hk, ?andb_true_r, ?andb_false_r;
      repeat split; reflexivity.
  - now rewrite !andb_true_r.
Qed.

Lemma fold_applyLine_fields (b : Block) (d : DiscoveredDevice) :
  ID (fold_left applyLine b d) = ID d
  /\ isEmpty (Discriminator (fold_left applyLine b d))
     = isEmpty (Discriminator d) && negb (existsb (carries KLongDiscriminator) b)
  /\ isEmpty (InstanceName (fold_left applyLine b d))
     = isEmpty (InstanceName d) && negb (existsb (carries KInstanceName) b).
Proof.
  revert d; induction b as [|c b IH]; intros d; simpl.
  - now rewrite !andb_true_r.
  - destruct (IH (applyLine d c)) as (-> & -> & ->).
    destruct (applyLine_fields d c) as (-> & -> & ->).
    rewrite !negb_orb, !andb_assoc. repeat split; reflexivity.
Qed.

(** A block is well-formed exactly when its device is complete. *)
Lemma complete_blockDevice (b : Block) :
  complete (blockDevice b) = wellFormed b.
Proof.
  unfold complete, blockDevice, wellFormed.
  destruct (fold_applyLine_fields b emptyDevice) as (_ & -> & ->).
  simpl. now rewrite !negb_involutive.
Qed.

Lemma ID_blockDevice (b : Block) : ID (blockDevice b) = "".
Proof. exact (proj1 (fold_applyLine_fields b emptyDevice)). Qed.

Lemma finalize_fields (d : DiscoveredDevice) :
  Discriminator (finalize d) = Discriminator d
  /\ InstanceName (finalize d) = InstanceName d
  /\ VendorID (finalize d) = VendorID d
  /\ ProductID (finalize d) = ProductID d.
Proof.
  unfold finalize, defaultName, defaultID.
  repeat match goal with
         | |- context [if ?b then _ else _] => destruct b; simpl
         end; repeat split; reflexivity.
Qed.

Lemma finalize_ID (d : DiscoveredDevice) :
  ID d = "" -> ID (finalize d) = derivedID d.
Proof.
  intros H. unfold finalize, defaultName, defaultID, derivedID. rewrite H.
  simpl.
  destruct (isEmpty (InstanceName d)); simpl;
    repeat match goal with
           | |- context [if ?b then _ else _] => destruct b; simpl
           end; reflexivity.
Qed.

Lemma derivedID_finalize (d : DiscoveredDevice) :
  derivedID (finalize d) = derivedID d.
Proof.
  unfold derivedID.
  destruct (finalize_fields d) as (-> & -> & -> & ->). reflexivity.
Qed.

Lemma derivedID_not_empty (d : DiscoveredDevice) : derivedID d <> "".
Proof. unfold derivedID. destruct (isEmpty (InstanceName d)); discriminate. Qed.

Lemma blockDevices_filter (bs : list Block) :
  blockDevices bs
  = map (fun b => finalize (blockDevice b)) (filter wellFormed bs).
Proof.
  unfold blockDevices.
  induction bs as [|b bs IH]; simpl; [reflexivity|].
  rewrite complete_blockDevice.
  destruct (wellFormed b); simpl; now rewrite IH.
Qed.

(** *** The outputs that announce devices by their discriminators *)

Lemma dropAnsi_no_escape (s : string) :
  Forall (fun c => Ascii.eqb c escape = false) (bytes s) ->
  dropAnsi 0 s = s.
Proof.
  induction s as [|c r IH]; intros H; [reflexivity|].
  inversion H as [|c' l Hc Hr]; subst.
  cbn [dropAnsi]. unfold ansiMatchLen.
  destruct r as [|b r']; [reflexivity|].
  rewrite Hc. cbn [andb]. now rewrite (IH Hr).
Qed.

Lemma digit_facts (c : ascii) :
  Strconv.isDigit c = true ->
  isGraphic c = true
  /\ Ascii.eqb c escape = false
  /\ Ascii.eqb c Bufio.newline = false
  /\ Ascii.eqb Bufio.carriageReturn c = false
  /\ forall b, Strconv.isDigit b = false -> Ascii.eqb b c = false.
Proof.
  intros H. repeat split.
  - unfold Strconv.isDigit in H. unfold isGraphic.
    apply andb_true_iff in H. destruct H as [H1 H2].
    apply N.leb_le in H1, H2.
    apply andb_true_iff. split; apply N.leb_le; lia.
  - apply Ascii.eqb_neq. intros ->. discriminate.
  - apply Ascii.eqb_neq. intros ->. discriminate.
  - apply Ascii.eqb_neq. intros <-. discriminate.
  - intros b Hb. apply Ascii.eqb_neq. intros ->. congruence.
Qed.

Lemma decimal_facts (d : string) :
  isDecimal d = true ->
  d <> ""
  /\ Forall (fun c => Strconv.isDigit c = true) (bytes d)
  /\ String.length d < 1000
  /\ exists c r, d = String c r /\ Strconv.isDigit c = true.
Proof.
  unfold isDecimal. intros H.
  apply andb_true_iff in H. destruct H as [H Hlen].
  apply andb_true_iff in H. destruct H as [Hne Hd].
  apply Nat.ltb_lt in Hlen.
  assert (Hall : Forall (fun c => Strconv.isDigit c = true) (bytes d)).
  { apply Forall_forall. exact (proj1 (forallb_forall _ _) Hd). }
  destruct d as [|c r]; [discriminate|].
  repeat split; try assumption; try discriminate.
  exists c, r. split; [reflexivity|]. now inversion Hall.
Qed.

Lemma Forall_bytes_app (P : ascii -> Prop) (s t : string) :
  Forall P (bytes s) -> Forall P (bytes t) -> Forall P (bytes (s ++ t)).
Proof.
  intros Hs Ht. unfold bytes. rewrite GoStringsFacts.list_of_append.
  apply Forall_app. now split.
Qed.

(** A decimal text ends with a digit. *)
Lemma decimal_last (d : string) :
  isDecimal d = true ->
  exists d' l, d = d' ++ String l "" /\ Strconv.isDigit l = true.
Proof.
  intros H. destruct (decimal_facts d H) as (Hne & Hall & _ & _).
  destruct (GoStringsFacts.last_byte d Hne) as (d' & l & ->).
  exists d', l. split; [reflexivity|].
  unfold bytes in Hall. rewrite GoStringsFacts.list_of_append in Hall.
  apply Forall_app in Hall. destruct Hall as [_ Hl]. now inversion Hl.
Qed.

Lemma append_assoc (s t u : string) : (s ++ t) ++ u = s ++ (t ++ u).
Proof. induction s as [|c r IH]; simpl; [reflexivity|now rewrite IH]. Qed.

Lemma trimRightSpace_last (s : string) (l : ascii) :
  isGraphic l = true ->
  trimRightSpace (s ++ String l "") = s ++ String l "".
Proof.
  intros H. unfold trimRightSpace.
  rewrite GoStringsFacts.rev_snoc, (GoStringsFacts.trimLeftSpaceRev_graphic l _ H).
  rewrite <- GoStringsFacts.rev_snoc. apply GoStringsFacts.rev_involutive.
Qed.

(** What is in front of a decimal text stays in front of it when the white
    space at the right end is trimmed. *)
Lemma trimRightSpace_decimal (pre d : string) :
  isDecimal d = true -> trimRightSpace (pre ++ d) = pre ++ d.
Proof.
  intros H. destruct (decimal_last d H) as (d' & l & -> & Hl).
  rewrite <- append_assoc. apply trimRightSpace_last.
  exact (proj1 (digit_facts l Hl)).
Qed.

Lemma TrimSpace_decimal (d : string) :
  isDecimal d = true -> TrimSpace (String " " d) = d.
Proof.
  intros H. unfold TrimSpace. change (trimLeftSpace (String " " d))
    with (trimLeftSpace d).
  destruct (decimal_facts d H) as (_ & _ & _ & c & r & Hd & Hc).
  rewrite Hd at 1.
  rewrite (GoStringsFacts.trimLeftSpace_graphic c r (proj1 (digit_facts c Hc))).
  rewrite <- Hd. exact (trimRightSpace_decimal "" d H).
Qed.

(** A key that starts with a letter is not found after the text "Long
    Discriminator: " and digits, unless it starts in that text. *)
Lemma Index_decimal (d : string) (b : ascii) (sub : string) :
  isDecimal d = true -> Strconv.isDigit b = false ->
  Index d (String b sub) = None.
Proof.
  intros H Hb. apply GoStringsFacts.Index_none.
  destruct (decimal_facts d H) as (_ & Hall & _).
  eapply Forall_impl; [|exact Hall].
  intros c Hc. exact (proj2 (proj2 (proj2 (proj2 (digit_facts c Hc)))) b Hb).
Qed.

(** The chain takes the Long Discriminator branch on such a line. *)
Lemma selectKey_long_discriminator (d : string) :
  isDecimal d = true ->
  selectKey ("Long Discriminator: " ++ d) = Some (KLongDiscriminator, d).
Proof.
  intros H.
  assert (Hne : isEmpty d = false).
  { destruct (decimal_facts d H) as (Hne & _). now destruct d. }
  unfold selectKey, chain, firstKey, extractValueAfterKey, keyText.
  cbn [Index HasPrefix append Ascii.eqb Bool.eqb andb option_map].
  repeat (rewrite (Index_decimal d) by (exact H || reflexivity);
          cbn [option_map isEmpty]).
  cbn [option_map isEmpty Nat.add String.length sliceFrom].
  now rewrite (TrimSpace_decimal d H), Hne.
Qed.


Lemma announce_plain (d : string) :
  isDecimal d = true -> forallb Bufio.plainLine (announce d) = true.
Proof.
  intros H. destruct (decimal_facts d H) as (_ & Hall & Hlen & _).
  destruct (decimal_last d H) as (d' & l & Hd & Hl).
  unfold announce. cbn [forallb]. rewrite andb_true_r.
  apply andb_true_iff. split; [reflexivity|].
  unfold Bufio.plainLine.
  apply andb_true_iff; split; [apply andb_true_iff; split|].
  - rewrite GoStringsFacts.list_of_append, forallb_app.
    apply andb_true_iff. split; [reflexivity|].
    apply forallb_forall. intros c Hc.
    apply negb_true_iff.
    apply (proj1 (proj2 (proj2 (digit_facts c
             (proj1 (Forall_forall _ _) Hall c Hc))))).
  - rewrite Hd, <- append_assoc, GoStringsFacts.rev_snoc.
    cbn [HasPrefix].
    now rewrite (proj1 (proj2 (proj2 (proj2 (digit_facts l Hl))))).
  - apply N.ltb_lt. rewrite StrconvFacts.length_append.
    cbn [String.length]. unfold Bufio.MaxScanTokenSize. lia.
Qed.

Lemma contentAfterDis_announce (d : string) :
  isDecimal d = true ->
  flat_map (fun l => match contentAfterDis l with
                     | Some c => [c]
                     | None => []
                     end) (announce d)
  = [blockMarker; "Long Discriminator: " ++ d].
Proof.
  intros H. destruct (decimal_facts d H) as (_ & Hall & _).
  unfold announce. cbn [flat_map app].
  change (contentAfterDis
            "[1700000000.200] [55:57] [DIS] Discovered commissionable/commissioner node:")
    with (Some blockMarker).
  unfold contentAfterDis, stripAnsi.
  rewrite dropAnsi_no_escape.
  - change (Index ("[1700000000.201] [55:57] [DIS]   Long Discriminator: " ++ d)
              disMarker) with (Some 25).
    cbv beta iota.
    change (sliceFrom (25 + String.length disMarker)
              ("[1700000000.201] [55:57] [DIS]   Long Discriminator: " ++ d))
      with ("   Long Discriminator: " ++ d).
    unfold TrimSpace.
    change (trimLeftSpace ("   Long Discriminator: " ++ d))
      with ("Long Discriminator: " ++ d).
    now rewrite (trimRightSpace_decimal _ d H).
  - apply Forall_bytes_app.
    + repeat constructor.
    + eapply Forall_impl; [|exact Hall].
      intros c Hc. exact (proj1 (proj2 (digit_facts c Hc))).
Qed.

Lemma splitBlocks_announce (ds : list string) :
  splitBlocks (flat_map (fun d => [blockMarker; "Long Discriminator: " ++ d]) ds)
  = ([], map (fun d => ["Long Discriminator: " ++ d]) ds).
Proof.
  induction ds as [|d ds IH]; [reflexivity|].
  cbn [flat_map app splitBlocks]. rewrite IH. reflexivity.
Qed.

(** The blocks of the output that announces devices by their long
    discriminators: one for each device, with the line of its
    discriminator. *)
Lemma blocks_announcements (ds : list string) :
  forallb isDecimal ds = true ->
  blocks (announcements ds) = map (fun d => ["Long Discriminator: " ++ d]) ds.
Proof.
  intros H. unfold blocks, disContents, announcements.
  assert (Hlines : forallb Bufio.plainLine (flat_map announce ds) = true).
  { induction ds as [|d ds IH]; [reflexivity|].
    cbn [forallb flat_map] in *. apply andb_true_iff in H.
    destruct H as [Hd Hds]. rewrite forallb_app.
    now rewrite (announce_plain d Hd), (IH Hds). }
  rewrite (BufioFacts.scanLines_joinLines _ Hlines). clear Hlines.
  assert (Hc : flat_map (fun l => match contentAfterDis l with
                                  | Some c => [c]
                                  | None => []
                                  end) (flat_map announce ds)
               = flat_map (fun d => [blockMarker; "Long Discriminator: " ++ d]) ds).
  { induction ds as [|d ds IH]; [reflexivity|].
    cbn [forallb flat_map] in *. apply andb_true_iff in H.
    destruct H as [Hd Hds].
    now rewrite flat_map_app, (contentAfterDis_announce d Hd), (IH Hds). }
  now rewrite Hc, splitBlocks_announce.
Qed.

Lemma wellFormed_announced (d : string) :
  isDecimal d = true ->
  wellFormed ["Long Discriminator: " ++ d] = true
  /\ blockDevice ["Long Discriminator: " ++ d]
     = set_Discriminator d emptyDevice.
Proof.
  intros H. unfold wellFormed, blockDevice, carries, applyLine.
  cbn [existsb fold_left].
  now rewrite (selectKey_long_discriminator d H).
Qed.

(** The output that announces devices by their long discriminators is
    parsed into one record for each of them, with that discriminator and
    the id made of it. *)
Lemma parse_announcements (ds : list string) :
  forallb isDecimal ds = true ->
  fst (parseDiscoveryOutput (announcements ds))
  = map (fun d => finalize (set_Discriminator d emptyDevice)) ds.
Proof.
  intros H. rewrite parse_blocks, blockDevices_filter,
    (blocks_announcements ds H).
  induction ds as [|d ds IH]; [reflexivity|].
  cbn [forallb] in H. apply andb_true_iff in H. destruct H as [Hd Hds].
  destruct (wellFormed_announced d Hd) as [Hw Hb].
  cbn [map filter]. rewrite Hw. cbn [map]. now rewrite Hb, (IH Hds).
Qed.

Example parse_two_announcements :
  map (fun d => (ID d, Discriminator d))
    (fst (parseDiscoveryOutput (announcements ["1234"; "5678"])))
  = [("dnsd_vid_pid_disc1234", "1234"); ("dnsd_vid_pid_disc5678", "5678")].
Proof. rewrite parse_announcements by reflexivity. reflexivity. Qed.

Lemma scanLines_fits (output : string) :
  DiscoverySpec.fits output = true ->
  Bufio.scanLines output = DiscoverySpec.lines output.
Proof.
  intros H. unfold Bufio.scanLines, DiscoverySpec.lines.
  unfold DiscoverySpec.fits in H.
  unfold DiscoverySpec.rawLines in *.
  now rewrite (ScannerFacts.untilTooLong_fits _ H).
Qed.

Lemma blocks_fits (output : string) :
  DiscoverySpec.fits output = true ->
  disContents output = DiscoverySpec.contents output
  /\ blocks output = DiscoverySpec.blocks output.
Proof.
  intros H. unfold blocks, DiscoverySpec.blocks, disContents,
    DiscoverySpec.contents. now rewrite (scanLines_fits output H).
Qed.

Lemma valueOf_extract (key line : string) :
  DiscoverySpec.valueOf key line = extractValueAfterKey line key.
Proof. reflexivity. Qed.

Lemma firstKey_sound (ks : list Key) (c : string) (k : Key) (v : string) :
  firstKey ks c = Some (k, v) ->
  v = extractValueAfterKey c (keyText k) /\ isEmpty v = false.
Proof.
  induction ks as [|k0 ks IH]; cbn [firstKey]; [discriminate|].
  destruct (isEmpty (extractValueAfterKey c (keyText k0))) eqn:He; [exact IH|].
  intros [= <- <-]. auto.
Qed.

Lemma firstKey_one (ks : list Key) (c : string) (k0 : Key) :
  List.length (filter (fun k => DiscoverySpec.hasValue (keyText k) c) ks) <= 1 ->
  In k0 ks ->
  DiscoverySpec.hasValue (keyText k0) c = true ->
  firstKey ks c = Some (k0, extractValueAfterKey c (keyText k0)).
Proof.
  unfold DiscoverySpec.hasValue.
  change DiscoverySpec.valueOf
    with (fun key line => extractValueAfterKey line key).
  cbv beta.
  induction ks as [|k ks IH]; cbn [firstKey filter In]; [contradiction|].
  intros Hlen Hin Hv.
  destruct (isEmpty (extractValueAfterKey c (keyText k))) eqn:He; cbn [negb] in Hlen.
  - destruct Hin as [->|Hin]; [rewrite He in Hv; discriminate|].
    exact (IH Hlen Hin Hv).
  - destruct Hin as [->|Hin]; [reflexivity|]. exfalso.
    cbn [List.length] in Hlen.
    assert (Hf : In k0 (filter (fun k => negb (isEmpty (extractValueAfterKey c (keyText k)))) ks)).
    { apply filter_In. auto. }
    destruct (filter _ ks); [contradiction|]. cbn [List.length] in Hlen. lia.
Qed.

Lemma carries_hasValue (c : string) :
  DiscoverySpec.oneKey c = true ->
  carries KLongDiscriminator c = DiscoverySpec.hasValue "Long Discriminator:" c
  /\ carries KInstanceName c = DiscoverySpec.hasValue "Instance Name:" c.
Proof.
  unfold DiscoverySpec.oneKey. intros H. apply Nat.leb_le in H.
  split.
  - destruct (DiscoverySpec.hasValue "Long Discriminator:" c) eqn:Hv.
    + unfold carries, selectKey.
      rewrite (firstKey_one chain c KLongDiscriminator H); [reflexivity| |exact Hv].
      unfold chain. cbn [In]. tauto.
    + unfold carries.
      destruct (selectKey c) as [[k v]|] eqn:Hk; [|reflexivity].
      destruct (firstKey_sound _ _ _ _ Hk) as (-> & Hne).
      destruct k; try reflexivity.
      unfold DiscoverySpec.hasValue in Hv. rewrite valueOf_extract in Hv.
      cbn [keyText] in Hne.
      rewrite Hne in Hv. discriminate.
  - destruct (DiscoverySpec.hasValue "Instance Name:" c) eqn:Hv.
    + unfold carries, selectKey.
      rewrite (firstKey_one chain c KInstanceName H); [reflexivity| |exact Hv].
      unfold chain. cbn [In]. tauto.
    + unfold carries.
      destruct (selectKey c) as [[k v]|] eqn:Hk; [|reflexivity].
      destruct (firstKey_sound _ _ _ _ Hk) as (-> & Hne).
      destruct k; try reflexivity.
      unfold DiscoverySpec.hasValue in Hv. rewrite valueOf_extract in Hv.
      cbn [keyText] in Hne.
      rewrite Hne in Hv. discriminate.
Qed.

Lemma existsb_ext_in {A : Type} (f g : A -> bool) (l : list A) :
  (forall x, In x l -> f x = g x) -> existsb f l = existsb g l.
Proof.
  induction l as [|a l IH]; [reflexivity|]. intros H. cbn [existsb].
  rewrite (H a (or_introl eq_refl)), IH; [reflexivity|].
  intros x Hx. apply H. now right.
Qed.

Lemma wellFormed_spec (b : Block) :
  forallb DiscoverySpec.oneKey b = true ->
  wellFormed b = DiscoverySpec.wellFormed b.
Proof.
  intros H. unfold wellFormed, DiscoverySpec.wellFormed.
  assert (Hb : forall c, In c b -> DiscoverySpec.oneKey c = true).
  { exact (proj1 (forallb_forall _ _) H). }
  rewrite (existsb_ext_in (carries KLongDiscriminator)
             (DiscoverySpec.hasValue "Long Discriminator:") b),
          (existsb_ext_in (carries KInstanceName)
             (DiscoverySpec.hasValue "Instance Name:") b); [reflexivity| |].
  - intros c Hc. exact (proj2 (carries_hasValue c (Hb c Hc))).
  - intros c Hc. exact (proj1 (carries_hasValue c (Hb c Hc))).
Qed.

Lemma splitBlocks_In (cs : list string) (c : string) :
  (In c (fst (splitBlocks cs)) -> In c cs)
  /\ (forall b, In b (snd (splitBlocks cs)) -> In c b -> In c cs).
Proof.
  induction cs as [|c0 cs (IH1 & IH2)]; cbn [splitBlocks].
  - split; [auto|intros b []].
  - destruct (splitBlocks cs) as [pre bs]. cbn [fst snd] in *.
    destruct (HasPrefix c0 blockMarker); cbn [fst snd In].
    + split; [intros []|].
      intros b [<-|Hb] Hc; right; [exact (IH1 Hc)|exact (IH2 b Hb Hc)].
    + split.
      * intros [->|Hc]; [now left|right; exact (IH1 Hc)].
      * intros b Hb Hc. right. exact (IH2 b Hb Hc).
Qed.

Lemma parse_counts_spec_blocks (output : string) :
  DiscoverySpec.valid output = true ->
  fst (parseDiscoveryOutput output)
  = map (fun b => finalize (blockDevice b))
        (filter DiscoverySpec.wellFormed (DiscoverySpec.blocks output)).
Proof.
  unfold DiscoverySpec.valid. intros H.
  apply andb_true_iff in H. destruct H as [Hfit Hone].
  rewrite parse_blocks, blockDevices_filter.
  rewrite (proj2 (blocks_fits output Hfit)). f_equal.
  apply filter_ext_in. intros b Hb. apply wellFormed_spec.
  apply forallb_forall. intros c Hc.
  apply (proj1 (forallb_forall _ _) Hone).
  exact (proj2 (splitBlocks_In _ c) b Hb Hc).
Qed.

Lemma hasValue_discriminator_line (k : Key) (d : string) :
  isDecimal d = true ->
  DiscoverySpec.hasValue (keyText k) ("Long Discriminator: " ++ d)
  = match k with KLongDiscriminator => true | _ => false end.
Proof.
  intros H.
  assert (Hne : isEmpty d = false).
  { destruct (decimal_facts d H) as (Hne & _). now destruct d. }
  destruct k;
    unfold DiscoverySpec.hasValue, DiscoverySpec.valueOf, keyText;
    cbn [Index HasPrefix append Ascii.eqb Bool.eqb andb option_map];
    rewrite ?(Index_decimal d) by (exact H || reflexivity);
    cbn [option_map isEmpty negb Nat.add String.length sliceFrom];
    try reflexivity.
  now rewrite (TrimSpace_decimal d H), Hne.
Qed.

Lemma oneKey_discriminator (d : string) :
  isDecimal d = true ->
  DiscoverySpec.oneKey ("Long Discriminator: " ++ d) = true.
Proof.
  intros H. unfold DiscoverySpec.oneKey.
  rewrite (filter_ext_in _
             (fun k => match k with KLongDiscriminator => true | _ => false end)
             chain); [reflexivity|].
  intros k _. exact (hasValue_discriminator_line k d H).
Qed.

Lemma valid_announcements (ds : list string) :
  forallb isDecimal ds = true ->
  DiscoverySpec.valid (announcements ds) = true.
Proof.
  intros H.
  assert (Hlines : forallb Bufio.plainLine (flat_map announce ds) = true).
  { induction ds as [|d ds IH]; [reflexivity|].
    cbn [forallb flat_map] in *. apply andb_true_iff in H.
    destruct H as [Hd Hds]. rewrite forallb_app.
    now rewrite (announce_plain d Hd), (IH Hds). }
  assert (Hfit : DiscoverySpec.fits (announcements ds) = true).
  { unfold DiscoverySpec.fits, DiscoverySpec.rawLines, announcements.
    rewrite (ScannerFacts.tokens_pieces_joinLines _ Hlines).
    apply forallb_forall. intros l Hl.
    apply (proj1 (forallb_forall _ _) Hlines) in Hl.
    unfold Bufio.plainLine in Hl. apply andb_true_iff in Hl. tauto. }
  unfold DiscoverySpec.valid. rewrite Hfit. cbn [andb].
  rewrite <- (proj1 (blocks_fits _ Hfit)).
  unfold disContents, announcements.
  rewrite (BufioFacts.scanLines_joinLines _ Hlines).
  clear Hlines Hfit. induction ds as [|d ds IH]; [reflexivity|].
  cbn [forallb flat_map] in *. apply andb_true_iff in H.
  destruct H as [Hd Hds].
  rewrite flat_map_app, (contentAfterDis_announce d Hd).
  cbn [app forallb]. rewrite (oneKey_discriminator d Hd), (IH Hds).
  reflexivity.
Qed.

(** What stands behind a line of 65536 bytes or more is lost: the scanner
    stops there, and the parser never asks it why.  The output that
    announces devices, then holds such a line, then announces others, is
    parsed into the first ones only. *)
Lemma parseDiscoveryOutput_stops_at_long_line
    (ds1 ds2 : list string) (long : string) :
  forallb isDecimal ds1 = true ->
  noNewline long = true ->
  (Bufio.MaxScanTokenSize <= N.of_nat (String.length long))%N ->
  map Discriminator
    (fst (parseDiscoveryOutput
            (announcements ds1 ++ long ++ String Bufio.newline ""
             ++ announcements ds2)))
  = ds1.
Proof.
  intros H Hnl Hlen.
  assert (Hlines : forallb Bufio.plainLine (flat_map announce ds1) = true).
  { clear Hnl Hlen. induction ds1 as [|d ds IH]; [reflexivity|].
    cbn [forallb flat_map] in *. apply andb_true_iff in H.
    destruct H as [Hd Hds]. rewrite forallb_app.
    now rewrite (announce_plain d Hd), (IH Hds). }
  assert (E : parseDiscoveryOutput
                (announcements ds1 ++ long ++ String Bufio.newline ""
                 ++ announcements ds2)
              = parseDiscoveryOutput (announcements ds1)).
  { unfold parseDiscoveryOutput, announcements at 1 3.
    rewrite (proj1 (ScannerFacts.scan_lines_then_long _ long _ Hlines Hnl Hlen)).
    now rewrite (BufioFacts.scanLines_joinLines _ Hlines). }
  rewrite E, (parse_announcements ds1 H), map_map. clear.
  induction ds1 as [|d ds IH]; [reflexivity|].
  cbn [map]. rewrite IH. f_equal.
Qed.

Example parse_long_line_sample :
  map Discriminator (fst (parseDiscoveryOutput longLineDiscovery)) = ["1234"].
Proof.
  apply (parseDiscoveryOutput_stops_at_long_line ["1234"] ["5678"]
           (Strconv.zeros (N.to_nat 65536))).
  - reflexivity.
  - vm_compute. reflexivity.
  - apply N.leb_le. vm_compute. reflexivity.
Qed.

(** C1. Every record the parser returns, for every output, has a non-empty
    id, and the id is the derived one: made of the instance name when one
    was parsed, else of vendor id, product id and discriminator.  For every
    output text whose lines fit the scanner (fewer than 65536 bytes each)
    and whose discovery lines hold a value for one key of the parser at
    most, the parser returns exactly as many records as the text has
    well-formed device blocks (each introduced by a line that starts with
    [blockMarker] and holding a line with a Long Discriminator or an
    Instance Name that is not empty): N such blocks give N records.  The
    output that announces N devices by their decimal long discriminators is
    such a text, has N blocks, all well-formed, and is parsed into N
    records with these discriminators. *)
Theorem parseDiscoveryOutput_counts_wellformed_blocks :
  (forall output,
     Forall (fun d => ID d <> "" /\ ID d = derivedID d)
            (fst (parseDiscoveryOutput output)))
  /\ (forall output,
        DiscoverySpec.valid output = true ->
        List.length (fst (parseDiscoveryOutput output))
        = List.length (filter DiscoverySpec.wellFormed
                              (DiscoverySpec.blocks output)))
  /\ (forall discs, forallb isDecimal discs = true ->
        let output := announcements discs in
        DiscoverySpec.valid output = true
        /\ List.length (DiscoverySpec.blocks output) = List.length discs
        /\ forallb DiscoverySpec.wellFormed (DiscoverySpec.blocks output) = true
        /\ map Discriminator (fst (parseDiscoveryOutput output)) = discs).
Proof.
  split; [|split].
  - intros output. rewrite parse_blocks, blockDevices_filter.
    apply Forall_forall. intros d Hd. apply in_map_iff in Hd.
    destruct Hd as (b & <- & _).
    rewrite (finalize_ID _ (ID_blockDevice b)), derivedID_finalize.
    split; [apply derivedID_not_empty|reflexivity].
  - intros output H. rewrite (parse_counts_spec_blocks output H).
    apply length_map.
  - intros discs H. cbv zeta.
    pose proof (valid_announcements discs H) as Hv.
    assert (Hfit : DiscoverySpec.fits (announcements discs) = true).
    { unfold DiscoverySpec.valid in Hv. apply andb_true_iff in Hv. tauto. }
    rewrite <- (proj2 (blocks_fits _ Hfit)).
    rewrite (parse_announcements discs H), (blocks_announcements discs H).
    split; [exact Hv|]. split; [apply length_map|]. split.
    + apply forallb_forall. intros b Hb. apply in_map_iff in Hb.
      destruct Hb as (d & <- & Hd).
      assert (Hdec : isDecimal d = true)
        by exact (proj1 (forallb_forall _ _) H d Hd).
      pose proof (hasValue_discriminator_line KLongDiscriminator d Hdec) as Hh.
      cbn [keyText] in Hh.
      unfold DiscoverySpec.wellFormed. cbn [existsb]. now rewrite Hh.
    + rewrite map_map. clear.
      induction discs as [|d discs IH]; [reflexivity|].
      cbn [map]. rewrite IH. f_equal.
Qed.

Lemma parseDiscoveryOutput_counts_wellformed_blocks_witness :
  map Discriminator
    (fst (parseDiscoveryOutput (announcements ["1234"; "5678"])))
  = ["1234"; "5678"]
  /\ List.length (fst (parseDiscoveryOutput sampleDiscovery)) = 2.
Proof.
  split.
  - apply (proj2 (proj2 parseDiscoveryOutput_counts_wellformed_blocks)
             ["1234"; "5678"] eq_refl).
  - rewrite (proj1 (proj2 parseDiscoveryOutput_counts_wellformed_blocks)
               sampleDiscovery); vm_compute; reflexivity.
Defined.

(** A text with one well-formed device block, lines that fit the scanner,
    and no record: the line of the Long Discriminator also holds the text
    of the key Hostname, which the parser tests first. *)
Lemma parseDiscoveryOutput_misses_shadowed_key :
  DiscoverySpec.fits shadowedDiscovery = true
  /\ List.length (filter DiscoverySpec.wellFormed
                         (DiscoverySpec.blocks shadowedDiscovery)) = 1
  /\ fst (parseDiscoveryOutput shadowedDiscovery) = [].
Proof. repeat split; vm_compute; reflexivity. Qed.

(** C8. For every discovery output, the result is made of the blocks whose
    device has a Long Discriminator or an Instance Name, in order; a block
    in which both are empty contributes no record, whether a new block
    marker or the end of the input follows it and whatever other fields
    were parsed for it.  So every returned record has a non-empty
    discriminator or instance name. *)
Theorem parseDiscoveryOutput_drops_incomplete_blocks (output : string) :
  let empty2 (d : DiscoveredDevice) :=
    isEmpty (Discriminator d) && isEmpty (InstanceName d) in
  fst (parseDiscoveryOutput output)
  = map (fun b => finalize (blockDevice b))
        (filter (fun b => negb (empty2 (blockDevice b))) (blocks output))
  /\ Forall (fun d => empty2 d = false) (fst (parseDiscoveryOutput output)).
Proof.
  cbv zeta. rewrite parse_blocks. unfold blockDevices.
  assert (Hc : forall d, complete d
               = negb (isEmpty (Discriminator d) && isEmpty (InstanceName d))).
  { intros d. unfold complete. now rewrite negb_andb. }
  split.
  - induction (blocks output) as [|b bs IH]; simpl; [reflexivity|].
    rewrite <- Hc. destruct (complete (blockDevice b)); simpl; now rewrite IH.
  - apply Forall_forall. intros d Hd. apply in_map_iff in Hd.
    destruct Hd as (d0 & <- & Hin). apply filter_In in Hin.
    destruct Hin as [_ Hin]. rewrite Hc in Hin.
    destruct (finalize_fields d0) as (-> & -> & _).
    now apply negb_true_iff in Hin.
Qed.

End DiscoveryFacts.

Example regexp_samples :
  let nl := String Bufio.newline "" in
  Regexp.reValue ("[1.2][3:4] CHIP:DMG: Value = 42 " ++ nl ++ "more") = Some "42 "
  /\ Regexp.reValue "Value = 42" = None
  /\ Regexp.reStatus "x Data = false, Data = true" = Some "false"
  /\ Regexp.reStatus "Data = maybe" = None
  /\ Regexp.rePartsList
       ("CHIP:DMG: Data = [" ++ nl
        ++ "[171.552] [12:13] [DMG]   1 (unsigned), 2 (unsigned)," ++ nl ++ "]")
     = Some "1"
  /\ Regexp.rePartsList "Data = [ 7 (unsigned)" = Some "7"
  /\ Regexp.rePartsList "Data = [ x 7 (unsigned)" = None
  /\ Regexp.reDataLine "[1.2] CHIP:DMG:     Data = true (BOOLEAN)," = Some ("true", "BOOLEAN")
  /\ Regexp.reDataLine "CHIP:DMG: Data = a (b) (c (d) e) f" = Some ("a (b) (c", "d) e")
  /\ Regexp.reDataLine "CHIP:DMG: Data = a (b" = None
  /\ Regexp.reDataLine "CHIP:DMG:Data = 1 (UINT8)" = None.
Proof. repeat split; reflexivity. Qed.

(* ================================================================== *)
(** ** The dispatcher *)
(* ================================================================== *)

Module DispatcherFacts.

Import GoStrings Dispatcher.

Lemma discoveryResults_logs (logType : string) (ls : list string) :
  Trace.discoveryResults (map (NotifyLog logType) ls) = [].
Proof. induction ls as [|l ls IH]; simpl; [reflexivity|exact IH]. Qed.

Lemma discoveryResults_app (t u : list Action) :
  Trace.discoveryResults (t ++ u)
  = (Trace.discoveryResults t ++ Trace.discoveryResults u)%list.
Proof. apply flat_map_app. Qed.

(** C3 (the code as it is).  Whatever the run of the discovery gave, also
    when it completed normally with status 0 and in time, the handler sends
    two [DiscoveryResult] events: first one with no device and an error
    text that is never empty, then one with the devices parsed from the
    standard output and no error text. *)
Theorem handleDiscover_sends_error_result_always (e : Env) :
  let r := tool e discoverArgs in
  Trace.discoveryResults (fst (handleClientMessage e DiscoverDevices))
  = [ {| DiscoveryResultPayload.Devices := [];
         DiscoveryResultPayload.Error := discoveryErrMsg e r |};
      {| DiscoveryResultPayload.Devices :=
           fst (Discovery.parseDiscoveryOutput (stdout r));
         DiscoveryResultPayload.Error := "" |} ]
  /\ discoveryErrMsg e r <> ""
  /\ snd (handleClientMessage e DiscoverDevices) = Returned.
Proof.
  cbv zeta. unfold handleClientMessage, handleDiscover.
  destruct (Discovery.parseDiscoveryOutput (stdout (tool e discoverArgs)))
    as [discovered parserLogs].
  unfold andThen, done. cbn [fst snd].
  repeat split.
  - cbn [app]. cbn [Trace.discoveryResults flat_map discoveryResult app].
    fold (Trace.discoveryResults
            (map (NotifyLog "discovery_log") parserLogs
             ++ [discoveryResult discovered ""])).
    rewrite discoveryResults_app, discoveryResults_logs. reflexivity.
  - unfold discoveryErrMsg. destruct (deadlineExceeded e); discriminate.
Qed.

Example discover_normal_completion :
  let e := constEnv {| stdout := sampleDiscovery; stderr := ""; err := None |} 0 in
  map DiscoveryResultPayload.Error
      (Trace.discoveryResults (fst (handleClientMessage e DiscoverDevices)))
  = ["Error running chip-tool 'discover commissionables': <nil>. Stdout: "
     ++ sampleDiscovery ++ ", Stderr: "; ""].
Proof. vm_compute. reflexivity. Qed.

(** C2 (the code as it is).  A [get_status] message whose run exits with
    status 0 and prints no line with "Data = true" or "Data = false" makes
    the handler index a nil slice: the goroutine panics, and with it the
    server process. *)
Theorem get_status_panics_without_data_line (e : Env) :
  err (tool e statusArgs) = None ->
  Regexp.reStatus (stdout (tool e statusArgs)) = None ->
  snd (handleClientMessage e (GetStatus true))
  = Panicked "index out of range [1] with length 0".
Proof.
  intros He Hm. unfold handleClientMessage, handleGetStatus. simpl.
  now rewrite He, Hm.
Qed.

Lemma get_status_panics_witness :
  snd (handleClientMessage (constEnv silentRun 0) (GetStatus true))
  = Panicked "index out of range [1] with length 0".
Proof.
  apply (get_status_panics_without_data_line (constEnv silentRun 0));
    reflexivity.
Defined.

(** C4, as stated, fails: a [commission_device] message with a setup code
    and an empty discriminator starts the pairing run (and here, the tool
    printing nothing, no [CommissioningStatus] is sent at all). *)
Lemma commission_without_discriminator_runs_pairing :
  let t := fst (handleClientMessage (constEnv silentRun 7)
                  (CommissionDevice (Valid setupCodeOnly))) in
  CommissionDevicePayload.LongDiscriminator setupCodeOnly = ""
  /\ Trace.runs t
     = [["pairing"; "onnetwork-long"; "0007"; "20202021"; ""];
        ["descriptor"; "read"; "parts-list"; "0007"; "0"]]
  /\ Trace.commissioningStatuses t = [].
Proof. repeat split; reflexivity. Qed.

(** C4, amended.  A [commission_device] message without a setup code is
    answered with one [CommissioningStatus] with [success] false and no
    run of [chip-tool].  The discriminator is not looked at: with a setup
    code (and a working directory) the pairing run is started, whatever
    the discriminator. *)
Theorem commission_validates_setup_code_only
    (e : Env) (payload : CommissionDevicePayload.t) :
  let t := fst (handleClientMessage e (CommissionDevice (Valid payload))) in
  (isEmpty (CommissionDevicePayload.SetupCode payload) = true ->
     Trace.runs t = []
     /\ exists st, Trace.commissioningStatuses t = [st]
                   /\ CommissioningStatusPayload.Success st = false)
  /\ (isEmpty (CommissionDevicePayload.SetupCode payload) = false ->
      getwdErr e = None ->
      hd_error (Trace.runs t) = Some (pairingArgs e payload)).
Proof.
  cbv zeta. unfold handleClientMessage, handleCommission. split.
  - intros ->. split; [reflexivity|]. eexists. split; reflexivity.
  - intros -> Hwd. unfold commission. rewrite Hwd.
    destruct (Regexp.rePartsList _) as [endpoint|];
      [|destruct (err _)]; reflexivity.
Qed.

Lemma commission_validates_setup_code_only_witness :
  (Trace.runs (fst (handleClientMessage (constEnv silentRun 7)
                      (CommissionDevice (Valid noSetupCode)))) = []
   /\ exists st,
        Trace.commissioningStatuses
          (fst (handleClientMessage (constEnv silentRun 7)
                  (CommissionDevice (Valid noSetupCode)))) = [st]
        /\ CommissioningStatusPayload.Success st = false)
  /\ hd_error (Trace.runs (fst (handleClientMessage (constEnv silentRun 7)
                                 (CommissionDevice (Valid setupCodeOnly)))))
     = Some (pairingArgs (constEnv silentRun 7) setupCodeOnly).
Proof.
  split.
  - apply (proj1 (commission_validates_setup_code_only
                    (constEnv silentRun 7) noSetupCode)). reflexivity.
  - apply (proj2 (commission_validates_setup_code_only
                    (constEnv silentRun 7) setupCodeOnly)); reflexivity.
Defined.

Lemma commandResponses_app (t u : list Action) :
  Trace.commandResponses (t ++ u)
  = (Trace.commandResponses t ++ Trace.commandResponses u)%list.
Proof. apply flat_map_app. Qed.

Lemma commandResponses_logs (f : string * Param.t -> string)
    (ps : list (string * Param.t)) :
  Trace.commandResponses (map (fun kv => NotifyLog "command_response" (f kv)) ps)
  = [].
Proof. induction ps as [|p ps IH]; simpl; [reflexivity|exact IH]. Qed.

(** The warnings of the parameter [switch] are log lines. *)
Lemma commandParams_warnings (payload : DeviceCommandPayload.t)
    (warnings : list Action) (positional : list string) :
  commandParams payload = inr (warnings, positional) ->
  Trace.commandResponses warnings = [].
Proof.
  unfold commandParams.
  destruct (String.eqb _ "OnOff"); [now intros [= <- _]|].
  destruct (String.eqb _ "LevelControl").
  - destruct (String.eqb _ "MoveToLevel"); [|now intros [= <- _]].
    destruct (paramFloat64 _ "level"); [now intros [= <- _]|discriminate].
  - intros [= <- _]. apply commandResponses_logs.
Qed.

Lemma runs_app (t u : list Action) :
  Trace.runs (t ++ u) = (Trace.runs t ++ Trace.runs u)%list.
Proof. apply flat_map_app. Qed.

Lemma commandParams_no_runs (payload : DeviceCommandPayload.t)
    (warnings : list Action) (positional : list string) :
  commandParams payload = inr (warnings, positional) ->
  Trace.runs warnings = [].
Proof.
  unfold commandParams.
  destruct (String.eqb _ "OnOff"); [now intros [= <- _]|].
  destruct (String.eqb _ "LevelControl").
  - destruct (String.eqb _ "MoveToLevel"); [|now intros [= <- _]].
    destruct (paramFloat64 _ "level"); [now intros [= <- _]|discriminate].
  - intros [= <- _].
    induction (DeviceCommandPayload.Params payload); simpl; auto.
Qed.

Lemma runs_followUp (payload : DeviceCommandPayload.t) (endpointID : string) :
  Trace.runs (followUp payload endpointID) = [].
Proof.
  unfold followUp.
  destruct (_ && _); destruct (_ && _); reflexivity.
Qed.

Lemma commandResponses_followUp (payload : DeviceCommandPayload.t)
    (endpointID : string) :
  Trace.commandResponses (followUp payload endpointID) = [].
Proof.
  unfold followUp.
  destruct (_ && _); destruct (_ && _); reflexivity.
Qed.

(** C7. For every [device_command] message that passes validation (node
    id, cluster and command are there, and the parameters of the cluster
    are accepted), the run of [chip-tool] is followed by exactly one
    [CommandResponse]; its [success] is false if and only if the run
    failed (a non-zero exit status is such a failure), or it exited with
    status 0 and the standard output or the standard error holds
    "CHIP Error" or the standard error holds "Error:"; it is true
    otherwise. *)
Theorem device_command_success_classification
    (e : Env) (payload : DeviceCommandPayload.t)
    (warnings : list Action) (positional : list string) :
  isEmpty (DeviceCommandPayload.NodeID payload) = false ->
  isEmpty (DeviceCommandPayload.Cluster payload) = false ->
  isEmpty (DeviceCommandPayload.Command payload) = false ->
  commandParams payload = inr (warnings, positional) ->
  let cmdArgs :=
    ([ToLower (DeviceCommandPayload.Cluster payload);
      ToLower (DeviceCommandPayload.Command payload)]
     ++ positional ++ [DeviceCommandPayload.NodeID payload; "1"])%list in
  let r := tool e cmdArgs in
  let t := fst (handleClientMessage e (DeviceCommand (Valid payload))) in
  Trace.runs t = [cmdArgs]
  /\ exists resp,
       Trace.commandResponses t = [resp]
       /\ (CommandResponsePayload.Success resp = false <->
           err r <> None
           \/ (err r = None
               /\ (Contains (stdout r) "CHIP Error" = true
                   \/ Contains (stderr r) "CHIP Error" = true
                   \/ Contains (stderr r) "Error:" = true)))
       /\ (CommandResponsePayload.Success resp = true <->
           err r = None
           /\ Contains (stdout r) "CHIP Error" = false
           /\ Contains (stderr r) "CHIP Error" = false
           /\ Contains (stderr r) "Error:" = false).
Proof.
  intros Hn Hc Hk Hp. cbv zeta.
  unfold handleClientMessage, handleDeviceCommand.
  rewrite Hn, Hc, Hk, Hp. cbn [orb].
  pose proof (commandParams_warnings _ _ _ Hp) as Hw.
  pose proof (commandParams_no_runs _ _ _ Hp) as Hr.
  set (cmdArgs := ([_; _] ++ positional ++ [_; _])%list).
  destruct (err (tool e cmdArgs)) as [t|] eqn:He;
    [|unfold hasErrorMarker;
      destruct (Contains (stdout (tool e cmdArgs)) "CHIP Error") eqn:H1;
      destruct (Contains (stderr (tool e cmdArgs)) "CHIP Error") eqn:H2;
      destruct (Contains (stderr (tool e cmdArgs)) "Error:") eqn:H3;
      cbn [orb]];
    unfold andThen, done; cbn [fst snd];
    rewrite ?runs_app, ?commandResponses_app, ?Hw, ?Hr,
      ?commandResponses_followUp, ?runs_followUp;
    (split; [reflexivity|]);
    (eexists; split; [reflexivity|]); simpl;
    (split; split; intros H; try discriminate; try reflexivity;
     try (left; discriminate);
     try (right; split; [reflexivity|tauto]);
     try (destruct H as [H|[_ [H|[H|H]]]]; congruence);
     try (destruct H as (? & ? & ? & ?); congruence);
     try (repeat split; reflexivity)).
Qed.

Lemma device_command_success_classification_witness :
  let e := constEnv silentRun 0 in
  let t := fst (handleClientMessage e (DeviceCommand (Valid turnOn))) in
  Trace.runs t = [["onoff"; "on"; "7"; "1"]]
  /\ exists resp,
       Trace.commandResponses t = [resp]
       /\ CommandResponsePayload.Success resp = true.
Proof.
  cbv zeta.
  destruct (device_command_success_classification
              (constEnv silentRun 0) turnOn [] []
              eq_refl eq_refl eq_refl eq_refl)
    as (Hruns & resp & Hresp & _ & Htrue).
  split; [exact Hruns|]. exists resp. split; [exact Hresp|].
  apply Htrue. repeat split; reflexivity.
Defined.

Lemma commissioningStatuses_app (t u : list Action) :
  Trace.commissioningStatuses (t ++ u)
  = (Trace.commissioningStatuses t ++ Trace.commissioningStatuses u)%list.
Proof. apply flat_map_app. Qed.

(** The node id of the handler: the text of [%04d] at a value below
    100000. *)
Lemma generatedNodeID_spec (e : Env) :
  (Intn e 100000 < 100000)%N
  /\ Forall (fun c => Strconv.isDigit c = true) (bytes (generatedNodeID e))
  /\ 4 <= String.length (generatedNodeID e)
  /\ Strconv.Atoi (generatedNodeID e) = inr (Z.of_N (Intn e 100000)).
Proof.
  assert (Hlt : (Intn e 100000 < 100000)%N) by (apply N.mod_lt; discriminate).
  destruct (StrconvFacts.format04d_spec (Intn e 100000)) as (Hd & Hl & _).
  repeat split; try assumption.
  apply StrconvFacts.Atoi_format04d.
  apply N.lt_trans with (1 := Hlt). reflexivity.
Qed.

(** C10. For every [commission_device] message with a setup code, the
    runs of [chip-tool] are the pairing run and the parts list read, both
    with the node id the server generates: a text of at least four decimal
    digits that denotes a random value below 100000.  A
    [CommissioningStatus] carries that node id, or none (an empty [NodeID],
    left out of the message); the first successful one carries it.  The
    node id the client proposes has no influence at all on what the handler
    does. *)
Theorem commission_uses_generated_node_id
    (e : Env) (payload : CommissionDevicePayload.t) :
  isEmpty (CommissionDevicePayload.SetupCode payload) = false ->
  let t := fst (handleClientMessage e (CommissionDevice (Valid payload))) in
  let nodeID := generatedNodeID e in
  ((Intn e 100000 < 100000)%N
   /\ Forall (fun c => Strconv.isDigit c = true) (bytes nodeID)
   /\ 4 <= String.length nodeID
   /\ Strconv.Atoi nodeID = inr (Z.of_N (Intn e 100000)))
  /\ Forall (fun argv =>
               argv = ["pairing"; "onnetwork-long"; nodeID;
                       CommissionDevicePayload.SetupCode payload;
                       CommissionDevicePayload.LongDiscriminator payload]
               \/ argv = ["descriptor"; "read"; "parts-list"; nodeID; "0"])
            (Trace.runs t)
  /\ Forall (fun st => CommissioningStatusPayload.NodeID st = nodeID
                       \/ CommissioningStatusPayload.NodeID st = "")
            (Trace.commissioningStatuses t)
  /\ (forall st,
        find CommissioningStatusPayload.Success (Trace.commissioningStatuses t)
        = Some st ->
        CommissioningStatusPayload.NodeID st = nodeID)
  /\ forall proposed,
       handleClientMessage e
         (CommissionDevice (Valid (withNodeID proposed payload)))
       = handleClientMessage e (CommissionDevice (Valid payload)).
Proof.
  intros Hs. cbv zeta. split; [apply generatedNodeID_spec|].
  unfold handleClientMessage, handleCommission. cbn [withNodeID
    CommissionDevicePayload.SetupCode]. rewrite Hs.
  assert (Hind : forall proposed,
             commission e (withNodeID proposed payload) = commission e payload)
    by reflexivity.
  split; [|split; [|split; [|exact Hind]]];
    unfold commission, pairingArgs, partsListArgs;
    (destruct (getwdErr e);
     [|destruct (Regexp.rePartsList _) as [endpoint|];
       [destruct (reportsSuccess _ _)|destruct (err _)]]);
    simpl; repeat constructor; try discriminate;
    intros st [= <-]; reflexivity.
Qed.

Lemma commission_uses_generated_node_id_witness :
  let e := constEnv pairedRun 123456789 in
  map CommissioningStatusPayload.NodeID
    (Trace.commissioningStatuses
       (fst (handleClientMessage e (CommissionDevice (Valid proposesNodeID)))))
  = ["56789"; ""]
  /\ Forall (fun st => CommissioningStatusPayload.NodeID st = "56789"
                       \/ CommissioningStatusPayload.NodeID st = "")
       (Trace.commissioningStatuses
          (fst (handleClientMessage e
                  (CommissionDevice (Valid proposesNodeID))))).
Proof.
  cbv zeta. split; [reflexivity|].
  exact (proj1 (proj2 (proj2
           (commission_uses_generated_node_id
              (constEnv pairedRun 123456789) proposesNodeID eq_refl)))).
Defined.

End DispatcherFacts.

(* ================================================================== *)
(** ** The outbound queue *)
(* ================================================================== *)

Module SessionFacts.

Import Session.

(** C9, as stated, fails: with room in the queue, an event that
    [json.Marshal] refuses is logged and not appended; and on a session
    whose channel the hub has closed, a send panics. *)
Lemma notifyClient_room_but_not_appended :
  List.length (send freshClient) < sendCapacity
  /\ notifyClient "attribute_update" nanUpdate freshClient
     = Returns freshClient
         ["Error marshalling server message for client 192.168.1.20:51000: json: unsupported value: NaN"]
  /\ notifyClientLog "discovery_log" "Starting" closedClient
     = Panics "send on closed channel".
Proof.
  repeat split. unfold sendCapacity. simpl. lia.
Qed.

Lemma trySend_open (c : Client) (msg : ServerMessage.t) (dropped : string) :
  closed c = false ->
  (sendCapacity <= List.length (send c) ->
     trySend c msg dropped = Returns c [dropped])
  /\ (List.length (send c) < sendCapacity ->
        trySend c msg dropped = Returns (enqueue c msg) []).
Proof.
  intros Hc. unfold trySend. rewrite Hc.
  destruct (Nat.ltb_spec (List.length (send c)) sendCapacity); split;
    intros; try reflexivity; lia.
Qed.

(** C9, amended.  On a session whose channel has not been closed, both
    send operations return at once, for every event.  [notifyClientLog]:
    if the queue is full the event is dropped with a log line and the queue
    is unchanged, else the event is appended.  [notifyClient]: the same for
    an event that [json.Marshal] accepts; an event it refuses is dropped
    with a log line and the queue is unchanged, full or not. *)
Theorem send_operations_shed_load (c : Client) :
  closed c = false ->
  (forall logType data,
     let msg := {| ServerMessage.Type_ := logType;
                   ServerMessage.Payload := Text data |} in
     (sendCapacity <= List.length (send c) ->
        exists line, notifyClientLog logType data c = Returns c [line])
     /\ (List.length (send c) < sendCapacity ->
           notifyClientLog logType data c = Returns (enqueue c msg) []
           /\ send (enqueue c msg) = (send c ++ [msg])%list))
  /\ (forall msgType payload,
        let msg := {| ServerMessage.Type_ := msgType;
                      ServerMessage.Payload := Structured payload |} in
        (marshalErr msg = None ->
           (sendCapacity <= List.length (send c) ->
              exists line, notifyClient msgType payload c = Returns c [line])
           /\ (List.length (send c) < sendCapacity ->
                 notifyClient msgType payload c = Returns (enqueue c msg) []
                 /\ send (enqueue c msg) = (send c ++ [msg])%list))
        /\ (marshalErr msg <> None ->
              exists line, notifyClient msgType payload c = Returns c [line])).
Proof.
  intros Hc. split.
  - intros logType data msg. unfold notifyClientLog. cbn [marshalErr
      ServerMessage.Payload]. fold msg. split.
    + intros Hfull. eexists.
      exact (proj1 (trySend_open c msg _ Hc) Hfull).
    + intros Hroom. split; [|reflexivity].
      exact (proj2 (trySend_open c msg _ Hc) Hroom).
  - intros msgType payload msg. unfold notifyClient. fold msg. split.
    + intros ->. split.
      * intros Hfull. eexists.
        exact (proj1 (trySend_open c msg _ Hc) Hfull).
      * intros Hroom. split; [|reflexivity].
        exact (proj2 (trySend_open c msg _ Hc) Hroom).
    + intros Hm. destruct (marshalErr msg) as [t|]; [|congruence].
      eexists. reflexivity.
Qed.

Lemma send_operations_shed_load_witness :
  notifyClientLog "discovery_log" "Starting" freshClient
  = Returns (enqueue freshClient
               {| ServerMessage.Type_ := "discovery_log";
                  ServerMessage.Payload := Text "Starting" |}) [].
Proof.
  apply (proj1 (send_operations_shed_load freshClient eq_refl)
           "discovery_log" "Starting").
  unfold sendCapacity. simpl. lia.
Defined.

End SessionFacts.

(* ================================================================== *)
(** ** The attribute parsers *)
(* ================================================================== *)

Module AttributeFacts.

Import GoStrings.

Lemma eat_spec (lit s : string) :
  Regexp.eat lit s
  = if HasPrefix s lit then Some (sliceFrom (String.length lit) s) else None.
Proof.
  revert s; induction lit as [|c lit IH]; intros s; simpl.
  - now destruct s.
  - destruct s as [|d s]; [reflexivity|]. simpl.
    destruct (Ascii.eqb c d); [apply IH|reflexivity].
Qed.

(** A literal followed by a group: the leftmost match starts where
    [strings.Index] finds the literal. *)
Lemma leftmost_literal {A : Type} (f : string -> A) (lit s : string) :
  Regexp.leftmost (fun t => option_map f (Regexp.eat lit t)) s
  = option_map (fun i => f (sliceFrom (i + String.length lit) s))
      (Index s lit).
Proof.
  induction s as [|c r IH].
  - destruct lit; reflexivity.
  - cbn [Regexp.leftmost Index]. rewrite eat_spec.
    destruct (HasPrefix (String c r) lit); [reflexivity|].
    cbn [option_map]. rewrite IH. now destruct (Index r lit).
Qed.

Section WithParseFloat.

Variable ParseFloat : string -> option spec_float.
Variable sub : Subscription.

Lemma reportLoop_app (b : bool) (l1 l2 : list string) :
  reportLoop ParseFloat sub b (l1 ++ l2)
  = (fst (reportLoop ParseFloat sub (fst (reportLoop ParseFloat sub b l1)) l2),
     (snd (reportLoop ParseFloat sub b l1)
      ++ snd (reportLoop ParseFloat sub
                (fst (reportLoop ParseFloat sub b l1)) l2))%list).
Proof.
  revert b; induction l1 as [|l l1 IH]; intros b; simpl.
  - now destruct (reportLoop ParseFloat sub b l2).
  - destruct (reportStep ParseFloat sub b l) as [b1 sent]. rewrite IH.
    destruct (reportLoop ParseFloat sub b1 l1) as [b2 sent1]. simpl.
    now rewrite app_assoc.
Qed.

Lemma reportStep_opening (b : bool) (l : string) :
  Regexp.reReportStart l = true ->
  reportStep ParseFloat sub b l = (true, []).
Proof. intros H. unfold reportStep. now rewrite H. Qed.

Lemma reportStep_between (l : string) :
  Report.isBetween l = true -> reportStep ParseFloat sub true l = (true, []).
Proof.
  unfold Report.isBetween, Report.isData, Report.isClosing, reportStep.
  destruct (Regexp.reReportStart l); [reflexivity|].
  destruct (Regexp.reDataLine l) as [[m1 m2]|]; [discriminate|].
  simpl. intros H. apply negb_true_iff in H. now rewrite H.
Qed.

Lemma reportStep_data (l : string) :
  Regexp.reReportStart l = false -> Report.isData l = true ->
  reportStep ParseFloat sub true l
  = (false, [update sub (decode ParseFloat (snd (Report.dataOf l))
                           (fst (Report.dataOf l)))]).
Proof.
  unfold Report.isData, Report.dataOf, reportStep. intros ->.
  destruct (Regexp.reDataLine l) as [[m1 m2]|]; [reflexivity|discriminate].
Qed.

Lemma reportStep_closing (l : string) :
  Regexp.reReportStart l = false -> Report.isData l = false ->
  Report.isClosing l = true ->
  reportStep ParseFloat sub true l = (false, []).
Proof.
  unfold Report.isData, Report.isClosing, reportStep. intros -> Hd ->.
  destruct (Regexp.reDataLine l) as [[m1 m2]|]; [discriminate|reflexivity].
Qed.

Lemma reportStep_outside (l : string) :
  Regexp.reReportStart l = false ->
  reportStep ParseFloat sub false l = (false, []).
Proof. unfold reportStep. now intros ->. Qed.

(** Inside a block, the lines in between change nothing. *)
Lemma reportLoop_between (mid : list string) :
  forallb Report.isBetween mid = true ->
  reportLoop ParseFloat sub true mid = (true, []).
Proof.
  induction mid as [|l mid IH]; cbn [forallb reportLoop]; [reflexivity|].
  intros H. apply andb_true_iff in H. destruct H as [Hl Hmid].
  now rewrite (reportStep_between l Hl), (IH Hmid).
Qed.

(** A well-formed piece of the stream, met outside any block, gives the
    updates it calls for and leaves the loop outside any block. *)
Lemma reportLoop_item (it : Report.Item) :
  Report.wellFormed it = true ->
  reportLoop ParseFloat sub false (Report.lines it)
  = (false, Report.expected ParseFloat sub it).
Proof.
  destruct it as [l|o mid d|o mid c];
    cbn [Report.wellFormed Report.lines Report.expected]; intros H.
  - apply negb_true_iff in H. cbn [reportLoop].
    now rewrite (reportStep_outside l H).
  - repeat (apply andb_true_iff in H; destruct H as [H ?]).
    apply negb_true_iff in H1. cbn [reportLoop].
    rewrite (reportStep_opening false o H), reportLoop_app,
      (reportLoop_between mid H2).
    cbn [fst snd reportLoop app].
    now rewrite (reportStep_data d H1 H0).
  - repeat (apply andb_true_iff in H; destruct H as [H ?]).
    apply negb_true_iff in H2, H1. cbn [reportLoop].
    rewrite (reportStep_opening false o H), reportLoop_app,
      (reportLoop_between mid H3).
    cbn [fst snd reportLoop app].
    now rewrite (reportStep_closing c H2 H1 H0).
Qed.

Lemma reportLoop_items (items : list Report.Item) :
  forallb Report.wellFormed items = true ->
  reportLoop ParseFloat sub false (flat_map Report.lines items)
  = (false, flat_map (Report.expected ParseFloat sub) items).
Proof.
  induction items as [|it items IH]; cbn [forallb flat_map]; [reflexivity|].
  intros H. apply andb_true_iff in H. destruct H as [Hit Hitems].
  rewrite reportLoop_app, (reportLoop_item it Hit). cbn [fst snd].
  now rewrite (IH Hitems).
Qed.

(** C5. A stream made of well-formed pieces (lines outside any block,
    blocks opened by a "CHIP:DMG: ReportDataMessage =" line and ended by a
    data line, blocks ended by a closing line before any data line) gives
    exactly one [AttributeUpdate] for each block with a data line and none
    for the others, and the loop is outside any block after each piece;
    so does the text of such a stream, read through the line scanner.
    The value of an update is decoded by the type tag of the data line:
    BOOLEAN as a boolean, the integer tags as a 64-bit integer, FLOAT and
    DOUBLE as a float, UTF8S and OCTET_STRING as a text without its quotes,
    and the text as it is when the conversion fails or the tag is
    unknown. *)
Theorem subscription_reports_one_update_per_block
    (items : list Report.Item) :
  forallb Report.wellFormed items = true ->
  (reportLoop ParseFloat sub false (flat_map Report.lines items)
   = (false, flat_map (Report.expected ParseFloat sub) items)
   /\ List.length
        (Trace.attributeUpdates
           (snd (reportLoop ParseFloat sub false
                   (flat_map Report.lines items))))
      = List.length
          (filter (fun it => match it with
                             | Report.WithData _ _ _ => true
                             | _ => false
                             end) items))
  /\ (forallb Bufio.plainLine (flat_map Report.lines items) = true ->
      reportUpdates ParseFloat sub
        (Bufio.joinLines (flat_map Report.lines items))
      = flat_map (Report.expected ParseFloat sub) items)
  /\ (forall v,
        decode ParseFloat "BOOLEAN" v
        = match Strconv.ParseBool v with
          | Some b => VBool b
          | None => VString v
          end)
  /\ (forall t v, In t integerTypes ->
        decode ParseFloat t v
        = match Strconv.ParseInt v with
          | inr i => VInt i
          | inl _ => VString v
          end)
  /\ (forall t v, t = "FLOAT" \/ t = "DOUBLE" ->
        decode ParseFloat t v
        = match ParseFloat v with
          | Some f => VFloat f
          | None => VString v
          end)
  /\ (forall t v, t = "UTF8S" \/ t = "OCTET_STRING" ->
        decode ParseFloat t v = VString (unquote v)).
Proof.
  intros H. split; [split|split].
  - exact (reportLoop_items items H).
  - rewrite (reportLoop_items items H). cbn [snd]. clear H.
    induction items as [|it items IH]; [reflexivity|].
    cbn [flat_map filter]. unfold Trace.attributeUpdates in *.
    rewrite flat_map_app, length_app, IH.
    destruct it; reflexivity.
  - intros Hp. unfold reportUpdates.
    now rewrite (BufioFacts.scanLines_joinLines _ Hp), (reportLoop_items items H).
  - repeat split.
    + intros t v Hin. simpl in Hin.
      repeat (destruct Hin as [<-|Hin]; [reflexivity|]). contradiction.
    + intros t v [-> | ->]; reflexivity.
    + intros t v [-> | ->]; reflexivity.
Qed.

(** [strconv.ParseFloat] refuses a text that starts with a quote: a number
    starts with a sign, a digit, a point or a letter of "inf" or "nan". *)
Hypothesis ParseFloat_quoted :
  forall s, HasPrefix s (String Strconv.dquote "") = true ->
            ParseFloat s = None.

(** C6. The value [readAttribute] reports for the standard output of a
    read.  Without any "CHIP:DMG: Value = " in it, the value is the output
    behind the prefix "Raw: ".  Otherwise the text that follows the first
    marker on its line is trimmed and read in this order: as a boolean,
    else as a signed 64-bit integer, else as a 64-bit float, else as a
    text, without its quotes when it has them on both ends.  So the values
    true, 42 and a quoted hello are reported as the boolean, the integer
    and the text hello.  The function is total: no input makes it fail. *)
Theorem readAttribute_value_priority :
  let marker := "CHIP:DMG: Value = " in
  let q := String Strconv.dquote "" in
  (forall stdout, Contains stdout marker = false ->
     attributeValue ParseFloat stdout = (VString ("Raw: " ++ stdout), false))
  /\ (forall stdout i, Index stdout marker = Some i ->
        attributeValue ParseFloat stdout
        = (interpret ParseFloat
             (TrimSpace (Regexp.line
                           (sliceFrom (i + String.length marker) stdout))),
           true))
  /\ (forall s b, Strconv.ParseBool s = Some b ->
        interpret ParseFloat s = VBool b)
  /\ (forall s i, Strconv.ParseBool s = None -> Strconv.ParseInt s = inr i ->
        interpret ParseFloat s = VInt i)
  /\ (forall s e f, Strconv.ParseBool s = None -> Strconv.ParseInt s = inl e ->
        ParseFloat s = Some f -> interpret ParseFloat s = VFloat f)
  /\ (forall s e, Strconv.ParseBool s = None -> Strconv.ParseInt s = inl e ->
        ParseFloat s = None ->
        interpret ParseFloat s
        = VString (if HasPrefix s q && HasSuffix s q
                   then Trim s Strconv.dquote else s))
  /\ attributeValue ParseFloat (marker ++ "true") = (VBool true, true)
  /\ attributeValue ParseFloat (marker ++ "42") = (VInt 42, true)
  /\ attributeValue ParseFloat (marker ++ q ++ "hello" ++ q)
     = (VString "hello", true).
Proof.
  cbv zeta. unfold attributeValue, Regexp.reValue.
  repeat split.
  - intros stdout H. rewrite leftmost_literal.
    unfold Contains in H. now destruct (Index stdout _).
  - intros stdout i H. now rewrite leftmost_literal, H.
  - intros s b H. unfold interpret. now rewrite H.
  - intros s i Hb Hi. unfold interpret. now rewrite Hb, Hi.
  - intros s e f Hb Hi Hf. unfold interpret. now rewrite Hb, Hi, Hf.
  - intros s e Hb Hi Hf. unfold interpret. now rewrite Hb, Hi, Hf.
  - cbn. unfold interpret. cbn.
    rewrite ParseFloat_quoted by reflexivity. reflexivity.
Qed.

End WithParseFloat.


Example values_samples :
  let q := String Strconv.dquote "" in
  map (interpret Strconv.special)
      ["true"; "1"; "42"; "-7"; "NaN"; q ++ "hello" ++ q; q; "hello " ++ q;
       "9223372036854775808"]
  = [VBool true; VBool true; VInt 42; VInt (-7); VFloat S754_nan;
     VString "hello"; VString ""; VString ("hello " ++ q);
     VString "9223372036854775808"]
  /\ map (fun tv => decode Strconv.special (fst tv) (snd tv))
       [("BOOLEAN", "false"); ("BOOLEAN", "maybe"); ("UINT8", "200");
        ("UINT64", "18446744073709551615"); ("INT16S", "-3");
        ("DOUBLE", "-Inf"); ("UTF8S", q ++ "Kitchen" ++ q); ("STRUCT", "{}")]
     = [VBool false; VString "maybe"; VInt 200;
        VString "18446744073709551615"; VInt (-3);
        VFloat (S754_infinity true); VString "Kitchen"; VString "{}"].
Proof. split; reflexivity. Qed.

Lemma subscription_reports_one_update_per_block_witness :
  map AttributeUpdatePayload.Value
    (Trace.attributeUpdates
       (snd (reportLoop Strconv.special sampleSubscription false
               (flat_map Report.lines sampleStream))))
  = [VBool true; VInt 21].
Proof.
  rewrite (proj1 (proj1 (subscription_reports_one_update_per_block
                           Strconv.special sampleSubscription sampleStream
                           eq_refl))).
  reflexivity.
Defined.

Lemma special_quoted (s : string) :
  HasPrefix s (String Strconv.dquote "") = true -> Strconv.special s = None.
Proof.
  destruct s as [|c r]; [discriminate|]. cbn [HasPrefix].
  intros H. apply andb_true_iff in H. destruct H as [H _].
  apply Ascii.eqb_eq in H. subst c.
  unfold Strconv.special. cbn [ToLower].
  change (lowerByte Strconv.dquote) with Strconv.dquote.
  reflexivity.
Qed.

Lemma readAttribute_value_priority_witness :
  attributeValue Strconv.special
    ("[1.5][7:7] CHIP:DMG: Value = " ++ String Strconv.dquote "Kitchen"
     ++ String Strconv.dquote "" ++ String Bufio.newline "[1.6][7:7] CHIP:EM: done")
  = (VString "Kitchen", true)
  /\ attributeValue Strconv.special "no marker here"
     = (VString "Raw: no marker here", false).
Proof.
  pose proof (readAttribute_value_priority Strconv.special special_quoted)
    as (Hraw & Hfound & _).
  split.
  - rewrite Hfound with (i := 11) by reflexivity. reflexivity.
  - apply Hraw. reflexivity.
Defined.

End AttributeFacts.

(* ================================================================== *)
(** ** More on the discovery parser *)
(* ================================================================== *)

Module DiscoveryMore.

Import GoStrings Discovery DeviceInvariant.

Lemma parseDigits_range (maxVal : Z) (s : string) (acc n : Z) :
  (0 <= acc <= maxVal)%Z ->
  Strconv.parseDigits maxVal s acc = inr n -> (0 <= n <= maxVal)%Z.
Proof.
  revert acc; induction s as [|c r IH]; intros acc Ha; simpl.
  - intros [= <-]. exact Ha.
  - destruct (Strconv.isDigit c) eqn:Hc; simpl; [|discriminate].
    pose proof (StrconvFacts.digitVal_range c Hc).
    destruct (Z.ltb_spec maxVal (acc * 10 + Strconv.digitVal c));
      [discriminate|].
    apply IH. lia.
Qed.

Lemma ParseUint_range (s : string) (bitSize n : Z) :
  (0 <= bitSize)%Z ->
  Strconv.ParseUint s bitSize = inr n -> (0 <= n <= 2 ^ bitSize - 1)%Z.
Proof.
  intros Hb. unfold Strconv.ParseUint.
  destruct s as [|c r]; [discriminate|].
  apply parseDigits_range.
  assert (0 < 2 ^ bitSize)%Z by (apply Z.pow_pos_nonneg; lia). lia.
Qed.

Lemma ParseInt_range (s : string) (n : Z) :
  Strconv.ParseInt s = inr n -> (- 2 ^ 63 <= n < 2 ^ 63)%Z.
Proof.
  unfold Strconv.ParseInt. destruct s as [|c r]; [discriminate|].
  destruct (Strconv.ParseUint _ 64) as [e|un] eqn:Hu; [discriminate|].
  apply ParseUint_range in Hu; [|lia].
  destruct (Ascii.eqb c "-"); cbn [negb andb].
  - destruct (Z.ltb_spec (2 ^ 63) un); [discriminate|].
    intros [= <-]. lia.
  - destruct (Z.leb_spec (2 ^ 63) un); [discriminate|].
    intros [= <-]. lia.
Qed.

Lemma setField_inRange (k : Key) (v : string) (d : DiscoveredDevice) :
  inRange d -> inRange (fst (setField k v d)).
Proof.
  intros (Hp & Hh & Hm & Ht). unfold inRange.
  destruct k; cbn [setField]; try (cbn; tauto).
  - destruct (Strconv.Atoi v) as [e|port] eqn:Ha; cbn; [tauto|].
    apply ParseInt_range in Ha. tauto.
  - destruct (Strconv.ParseUint v 16) as [e|ph] eqn:Ha; cbn; [tauto|].
    apply ParseUint_range in Ha; [|lia]. change (2 ^ 16 - 1)%Z with 65535%Z in Ha.
    tauto.
  - destruct (Strconv.ParseUint v 8) as [e|cm] eqn:Ha; cbn; [tauto|].
    apply ParseUint_range in Ha; [|lia]. change (2 ^ 8 - 1)%Z with 255%Z in Ha.
    tauto.
Qed.

Lemma setField_untouched_fields (k : Key) (v : string) (d : DiscoveredDevice) :
  untouched d -> untouched (fst (setField k v d)).
Proof.
  intros H. unfold untouched in *.
  destruct k; cbn [setField]; try (cbn; tauto).
  - destruct (Strconv.Atoi v); cbn; tauto.
  - destruct (Strconv.ParseUint v 16); cbn; tauto.
  - destruct (Strconv.ParseUint v 8); cbn; tauto.
Qed.

Lemma blockDevice_invariant (b : Block) :
  inRange (blockDevice b) /\ untouched (blockDevice b).
Proof.
  unfold blockDevice.
  assert (H0 : inRange emptyDevice /\ untouched emptyDevice).
  { unfold inRange, untouched. cbn. repeat split; try lia. right. now split. }
  revert H0. generalize emptyDevice.
  induction b as [|c b IH]; intros d Hd; [exact Hd|].
  cbn [fold_left]. apply IH. unfold applyLine.
  destruct (selectKey c) as [[k v]|]; [|exact Hd].
  split; [apply setField_inRange|apply setField_untouched_fields]; tauto.
Qed.

Lemma finalize_other_fields (d : DiscoveredDevice) :
  Port (finalize d) = Port d
  /\ PairingHint (finalize d) = PairingHint d
  /\ CommissioningMode (finalize d) = CommissioningMode d
  /\ Type_ (finalize d) = Type_ d
  /\ NodeID (finalize d) = NodeID d
  /\ MACAddress (finalize d) = MACAddress d
  /\ DeviceType (finalize d) = DeviceType d.
Proof.
  unfold finalize, defaultName, defaultID.
  repeat match goal with
         | |- context [if ?b then _ else _] => destruct b; cbn
         end; repeat split; reflexivity.
Qed.

Lemma finalize_Name (d : DiscoveredDevice) : Name (finalize d) <> "".
Proof.
  unfold finalize, defaultName.
  destruct (isEmpty (Name (defaultID d))) eqn:Hn.
  - repeat match goal with
           | |- context [if ?b then _ else _] => destruct b; cbn
           end; discriminate.
  - intros H. rewrite H in Hn. discriminate.
Qed.

Lemma finalize_keeps (d : DiscoveredDevice) :
  (inRange d -> inRange (finalize d))
  /\ (untouched d -> untouched (finalize d))
  /\ Name (finalize d) <> "".
Proof.
  unfold inRange, untouched.
  destruct (finalize_other_fields d) as (-> & -> & -> & -> & -> & -> & ->).
  split; [tauto|]. split; [tauto|]. apply finalize_Name.
Qed.

(** X1. Every record the parser returns has its numeric fields within the
    types of the struct and its type in step with the commissioning mode; the
    fields no output line writes (node id, MAC address, device type) are at
    their zero values; and its name is never empty. *)
Theorem parseDiscoveryOutput_record_invariant (output : string) :
  Forall (fun d => inRange d /\ untouched d /\ Name d <> "")
         (fst (parseDiscoveryOutput output)).
Proof.
  rewrite DiscoveryFacts.parse_blocks. unfold blockDevices.
  apply Forall_forall. intros d Hd. apply in_map_iff in Hd.
  destruct Hd as (d0 & <- & Hin). apply filter_In in Hin.
  destruct Hin as [Hin _]. apply in_map_iff in Hin.
  destruct Hin as (b & <- & _).
  destruct (blockDevice_invariant b) as [Hr Hu].
  destruct (finalize_keeps (blockDevice b)) as (H1 & H2 & H3).
  auto.
Qed.

Lemma length_dropAnsi (k : nat) (s : string) :
  String.length (dropAnsi k s) <= String.length s.
Proof.
  revert k; induction s as [|c r IH]; intros k; [reflexivity|].
  cbn [dropAnsi String.length]. destruct k as [|k].
  - destruct (ansiMatchLen (String c r)).
    + specialize (IH (Nat.pred n)). lia.
    + cbn [String.length]. specialize (IH 0). lia.
  - specialize (IH k). lia.
Qed.

Lemma dropAnsi_skip (p s : string) :
  dropAnsi (String.length p) (p ++ s) = dropAnsi 0 s.
Proof. induction p as [|c p IH]; [reflexivity|exact IH]. Qed.

Lemma ansiTailLen_params (params : string) (letter : ascii) (s : string) :
  forallb (fun c => Strconv.isDigit c || Ascii.eqb c ";")
          (list_ascii_of_string params) = true ->
  isLetter letter = true ->
  ansiTailLen (params ++ String letter s) = Some (S (String.length params)).
Proof.
  intros Hp Hl. induction params as [|c p IH]; cbn [append ansiTailLen].
  - assert (Hd : Strconv.isDigit letter || Ascii.eqb letter ";" = false).
    { destruct (Ascii.eqb_spec letter ";") as [->|_]; [discriminate|].
      unfold isLetter, Strconv.isDigit in *.
      apply orb_true_iff in Hl.
      rewrite orb_false_r.
      destruct Hl as [H|H]; apply andb_true_iff in H; destruct H as [H1 H2];
        apply N.leb_le in H1, H2; apply andb_false_iff;
        right; apply N.leb_gt; lia. }
    now rewrite Hd, Hl.
  - cbn [list_ascii_of_string forallb] in Hp. apply andb_true_iff in Hp.
    destruct Hp as [Hc Hp]. rewrite Hc, (IH Hp). reflexivity.
Qed.

(** X2. [stripAnsi] leaves a text without the escape byte as it is, removes
    an escape sequence (the escape byte, an opening bracket, digits and
    semicolons, one letter) in front of a text without changing what it
    makes of the rest, and never gives a longer text. *)
Theorem stripAnsi_removes_sequences :
  (forall s, Forall (fun c => Ascii.eqb c escape = false) (bytes s) ->
             stripAnsi s = s)
  /\ (forall params letter s,
        forallb (fun c => Strconv.isDigit c || Ascii.eqb c ";")
                (list_ascii_of_string params) = true ->
        isLetter letter = true ->
        stripAnsi (String escape (String "[" (params ++ String letter s)))
        = stripAnsi s)
  /\ (forall s, String.length (stripAnsi s) <= String.length s).
Proof.
  split; [|split].
  - exact DiscoveryFacts.dropAnsi_no_escape.
  - intros params letter s Hp Hl. unfold stripAnsi.
    cbn [dropAnsi ansiMatchLen]. rewrite Ascii.eqb_refl. cbn [andb].
    rewrite (ansiTailLen_params params letter s Hp Hl).
    cbn [option_map Nat.add Nat.pred dropAnsi].
    change (String letter s) with (String letter "" ++ s).
    rewrite <- DiscoveryFacts.append_assoc.
    replace (S (String.length params))
      with (String.length (params ++ String letter "")).
    + apply dropAnsi_skip.
    + rewrite StrconvFacts.length_append. cbn. lia.
  - intros s. apply length_dropAnsi.
Qed.

Lemma stripAnsi_removes_sequences_witness :
  stripAnsi (String escape "[1;32m[DIS] Port: 5540") = "[DIS] Port: 5540".
Proof.
  refine (eq_trans
            (proj1 (proj2 stripAnsi_removes_sequences) "1;32" "m"%char
               "[DIS] Port: 5540" eq_refl eq_refl) _).
  apply (proj1 stripAnsi_removes_sequences). repeat constructor.
Defined.

End DiscoveryMore.

(* ================================================================== *)
(** ** More on the dispatcher *)
(* ================================================================== *)

Module DispatcherMore.

Import GoStrings Dispatcher TraceMore.

Lemma spawned_app (t u : list Action) :
  spawned (t ++ u) = (spawned t ++ spawned u)%list.
Proof. apply flat_map_app. Qed.

Lemma payloads_app (t u : list Action) :
  payloads (t ++ u) = (payloads t ++ payloads u)%list.
Proof. apply flat_map_app. Qed.

Lemma logs_silent (logType : string) (ls : list string) :
  Trace.runs (map (NotifyLog logType) ls) = []
  /\ spawned (map (NotifyLog logType) ls) = []
  /\ payloads (map (NotifyLog logType) ls) = [].
Proof. induction ls as [|l ls IH]; simpl; [repeat split|exact IH]. Qed.

(** Every branch of a handler other than the index expression of
    [get_status] ends in a return. *)
Ltac returns :=
  repeat match goal with
         | |- context [match ?x with _ => _ end] => destruct x
         | |- context [if ?b then _ else _] => destruct b
         end; reflexivity.

(** The code of a handler panics in one place only: the index expression
    of [get_status], on a run that ends without error and prints neither
    "Data = true" nor "Data = false". *)
Lemma handler_panics_iff (e : Env) (msg : ClientMessage) :
  snd (handleClientMessage e msg) <> Returned
  <-> msg = GetStatus true
      /\ err (tool e statusArgs) = None
      /\ Regexp.reStatus (stdout (tool e statusArgs)) = None.
Proof.
  split.
  - intros H.
    destruct msg as [|p|p|obj|p|t];
      try (exfalso; apply H; clear H;
           unfold handleClientMessage, handleDiscover, handleCommission,
             commission, handleDeviceCommand, handleSubscribe, andThen, done;
           cbn [snd]; returns).
    unfold handleClientMessage, handleGetStatus in H.
    destruct obj; [|exfalso; apply H; reflexivity].
    cbn [negb] in H. unfold andThen, done in H. cbn [snd] in H.
    destruct (Regexp.reStatus _); [exfalso; apply H; reflexivity|].
    destruct (err _); [exfalso; apply H; reflexivity|].
    repeat split.
  - intros (-> & He & Hm).
    unfold handleClientMessage, handleGetStatus, andThen. cbn [negb snd].
    rewrite He, Hm. discriminate.
Qed.

Lemma commandParams_answer (p : DeviceCommandPayload.t) (a : Action) :
  commandParams p = inl a ->
  a = commandResponse false (DeviceCommandPayload.NodeID p) ""
        "Missing or invalid 'level' parameter for MoveToLevel".
Proof.
  unfold commandParams.
  destruct (String.eqb _ "OnOff"); [discriminate|].
  destruct (String.eqb _ "LevelControl"); [|discriminate].
  destruct (String.eqb _ "MoveToLevel"); [|discriminate].
  destruct (paramFloat64 _ "level"); [discriminate|].
  now intros [= <-].
Qed.

(** What a handler sends for a message it turns down: one log line at most,
    then one payload that tells of the failure. *)
Ltac answered :=
  first
    [ exists []; do 2 eexists; split; [reflexivity|];
      split; [cbn [List.length]; lia|]; split; [constructor|reflexivity]
    | eexists [_]; do 2 eexists; split; [reflexivity|];
      split; [cbn [List.length]; lia|];
      split; [repeat constructor; eauto|reflexivity] ].

(** X4. A message the handler turns down (a payload that does not decode,
    an empty required field, a MoveToLevel without a numeric level, an
    unknown type, a [get_status] payload that is no object) never starts
    [chip-tool] nor a goroutine.  For [get_status] the handler calls no send
    operation at all; for the others it calls [notifyClientLog] once at
    most and then [sendPayload] or [notifyClient] exactly once, with a
    payload that tells of the failure (a status or a response with success
    false, or an error message), and nothing else.  Every other message
    starts [chip-tool] or a goroutine, as long as the working directory can
    be read. *)
Theorem rejected_messages_never_reach_the_tool
    (e : Env) (msg : ClientMessage) :
  let t := fst (handleClientMessage e msg) in
  (rejected msg = true ->
     Trace.runs t = [] /\ spawned t = []
     /\ match msg with
        | GetStatus _ => t = []
        | _ => exists logs msgType p,
                 t = (logs ++ [SendPayload msgType p])%list
                 /\ List.length logs <= 1
                 /\ Forall (fun a => exists logType data,
                              a = NotifyLog logType data) logs
                 /\ negative p = true
        end)
  /\ (rejected msg = false -> getwdErr e = None ->
      Trace.runs t <> [] \/ spawned t <> []).
Proof.
  cbv zeta. split.
  - destruct msg as [|[t|p]|[t|p]|obj|[t|p]|t]; cbn [rejected]; intros H;
      try discriminate;
      try (split; [reflexivity|]; split; [reflexivity|]; answered; fail).
    + unfold handleClientMessage, handleCommission. rewrite H.
      split; [reflexivity|]. split; [reflexivity|]. answered.
    + unfold handleClientMessage, handleDeviceCommand.
      destruct (isEmpty (DeviceCommandPayload.NodeID p)
                || isEmpty (DeviceCommandPayload.Cluster p)
                || isEmpty (DeviceCommandPayload.Command p)) eqn:Hf.
      * split; [reflexivity|]. split; [reflexivity|]. answered.
      * cbn [orb] in H.
        destruct (commandParams p) as [a|[w pos]] eqn:Hp; [|discriminate].
        rewrite (commandParams_answer p a Hp).
        split; [reflexivity|]. split; [reflexivity|]. answered.
    + destruct obj; [discriminate|]. repeat split.
    + unfold handleClientMessage, handleSubscribe. rewrite H.
      split; [reflexivity|]. split; [reflexivity|]. answered.
  - destruct msg as [|[t|p]|[t|p]|obj|[t|p]|t]; cbn [rejected]; intros H Hwd;
      try discriminate.
    + left. unfold handleClientMessage, handleDiscover.
      destruct (Discovery.parseDiscoveryOutput _). discriminate.
    + left. unfold handleClientMessage, handleCommission, commission.
      rewrite H, Hwd.
      destruct (Regexp.rePartsList _); [|destruct (err _)]; discriminate.
    + left. unfold handleClientMessage, handleDeviceCommand.
      apply orb_false_iff in H. destruct H as [H Hp]. rewrite H.
      destruct (commandParams p) as [a|[w pos]] eqn:Hc; [discriminate|].
      unfold andThen. cbn [fst].
      rewrite DispatcherFacts.runs_app,
        (DispatcherFacts.commandParams_no_runs _ _ _ Hc).
      destruct (err _); [discriminate|].
      destruct (hasErrorMarker _ _); discriminate.
    + left. destruct obj; [|discriminate].
      unfold handleClientMessage, handleGetStatus. cbn [negb].
      destruct (Regexp.reStatus _); [|destruct (err _)]; discriminate.
    + right. unfold handleClientMessage, handleSubscribe. rewrite H.
      discriminate.
Qed.

Lemma rejected_messages_never_reach_the_tool_witness :
  Trace.runs (fst (handleClientMessage (constEnv silentRun 0)
                     (DeviceCommand (Valid noCluster)))) = []
  /\ (Trace.runs (fst (handleClientMessage (constEnv silentRun 0)
                         (DeviceCommand (Valid turnOn)))) <> []
      \/ spawned (fst (handleClientMessage (constEnv silentRun 0)
                         (DeviceCommand (Valid turnOn)))) <> []).
Proof.
  split.
  - apply (proj1 (rejected_messages_never_reach_the_tool
                    (constEnv silentRun 0) (DeviceCommand (Valid noCluster)))).
    reflexivity.
  - apply (proj2 (rejected_messages_never_reach_the_tool
                    (constEnv silentRun 0) (DeviceCommand (Valid turnOn))));
      reflexivity.
Defined.

Lemma string_eqb_eq (s t : string) : String.eqb s t = true -> s = t.
Proof. apply String.eqb_eq. Qed.

(** X5. After a [device_command] that passed validation, a goroutine is
    started only when the response is a success, and then at most one: a
    read of the state the command changed, at endpoint 1 of the node of the
    command and in its cluster (OnOff after On, Off and Toggle, CurrentLevel
    after MoveToLevel).  A failed run or an error marker in the output
    starts none. *)
Theorem device_command_follow_up
    (e : Env) (payload : DeviceCommandPayload.t)
    (warnings : list Action) (positional : list string) :
  isEmpty (DeviceCommandPayload.NodeID payload) = false ->
  isEmpty (DeviceCommandPayload.Cluster payload) = false ->
  isEmpty (DeviceCommandPayload.Command payload) = false ->
  commandParams payload = inr (warnings, positional) ->
  let nodeID := DeviceCommandPayload.NodeID payload in
  let cluster := DeviceCommandPayload.Cluster payload in
  let command := DeviceCommandPayload.Command payload in
  let r := tool e ([ToLower cluster; ToLower command]
                   ++ positional ++ [nodeID; "1"])%list in
  let t := fst (handleClientMessage e (DeviceCommand (Valid payload))) in
  let success := match err r with
                 | None => negb (hasErrorMarker (stdout r) (stderr r))
                 | Some _ => false
                 end in
  (success = false -> spawned t = [])
  /\ (success = true ->
      spawned t
      = if String.eqb cluster "OnOff"
           && (String.eqb command "On" || String.eqb command "Off"
               || String.eqb command "Toggle")
        then [ReadAttribute nodeID "1" cluster "OnOff"]
        else if String.eqb cluster "LevelControl"
                && String.eqb command "MoveToLevel"
        then [ReadAttribute nodeID "1" cluster "CurrentLevel"]
        else []).
Proof.
  intros Hn Hc Hk Hp. cbv zeta.
  unfold handleClientMessage, handleDeviceCommand.
  rewrite Hn, Hc, Hk, Hp. cbn [orb].
  assert (Hw : spawned warnings = []).
  { revert Hp. unfold commandParams.
    destruct (String.eqb _ "OnOff"); [now intros [= <- _]|].
    destruct (String.eqb _ "LevelControl").
    - destruct (String.eqb _ "MoveToLevel"); [|now intros [= <- _]].
      destruct (paramFloat64 _ "level"); [now intros [= <- _]|discriminate].
    - intros [= <- _].
      induction (DeviceCommandPayload.Params payload); simpl; auto. }
  set (r := tool e _).
  destruct (err r) as [t|];
    [|destruct (hasErrorMarker (stdout r) (stderr r))];
    unfold andThen, done; cbn [fst negb]; rewrite !spawned_app, Hw;
    (split; intros H; try discriminate; try reflexivity).
  cbn [spawned flat_map app commandResponse]. rewrite app_nil_r.
  unfold followUp.
  destruct (String.eqb (DeviceCommandPayload.Cluster payload) "OnOff") eqn:H1.
  - apply string_eqb_eq in H1. rewrite H1. cbn [andb String.eqb].
    destruct (_ || _); reflexivity.
  - cbn [andb app].
    destruct (String.eqb (DeviceCommandPayload.Cluster payload) "LevelControl")
      eqn:H2; [|reflexivity].
    apply string_eqb_eq in H2. rewrite H2. cbn [andb].
    destruct (String.eqb _ "MoveToLevel"); reflexivity.
Qed.

Lemma device_command_follow_up_witness :
  spawned (fst (handleClientMessage (constEnv silentRun 0)
                  (DeviceCommand (Valid turnOn))))
  = [ReadAttribute "7" "1" "OnOff" "OnOff"].
Proof.
  exact (proj2 (device_command_follow_up (constEnv silentRun 0) turnOn [] []
                  eq_refl eq_refl eq_refl eq_refl) eq_refl).
Defined.

Lemma leftmost_some {A : Type} (here : string -> option A) (s : string) (a : A) :
  Regexp.leftmost here s = Some a -> exists t, here t = Some a.
Proof.
  induction s as [|c r IH]; cbn [Regexp.leftmost].
  - destruct (here "") eqn:H; [|discriminate]. intros [= <-]. now exists "".
  - destruct (here (String c r)) eqn:H.
    + intros [= <-]. now exists (String c r).
    + exact IH.
Qed.




End DispatcherMore.
(* ================================================================== *)
(** ** The hub *)
(* ================================================================== *)

Module HubFacts.

Import Hub.

Lemma registered_In (h : t) (c : ClientId) :
  registered h c = true <-> In c (clients h).
Proof.
  unfold registered. rewrite existsb_exists. split.
  - intros (k & Hk & E). apply Nat.eqb_eq in E. now subst.
  - intros H. exists c. split; [exact H|apply Nat.eqb_refl].
Qed.

Lemma In_filter_other (l : list ClientId) (c k : ClientId) :
  In k (filter (fun k => negb (Nat.eqb k c)) l) <-> In k l /\ k <> c.
Proof.
  rewrite filter_In. split; intros (H & E); split; auto.
  - intros ->. now rewrite Nat.eqb_refl in E.
  - apply Bool.negb_true_iff, Nat.eqb_neq. exact E.
Qed.

Lemma existsb_filter_other (l : list ClientId) (c k : ClientId) :
  Nat.eqb k c = false ->
  existsb (Nat.eqb k) (filter (fun k => negb (Nat.eqb k c)) l)
  = existsb (Nat.eqb k) l.
Proof.
  intros Hk. induction l as [|x l IH]; [reflexivity|].
  cbn [filter existsb].
  destruct (Nat.eqb x c) eqn:E; cbn [negb existsb]; rewrite IH.
  - apply Nat.eqb_eq in E. subst x. now rewrite Hk.
  - reflexivity.
Qed.

Lemma step_sound (h : t) (ev : Event) (evs : list Event) :
  sound h (ev :: evs) -> exists h', step h ev = Some h' /\ sound h' evs.
Proof.
  intros (Hnd & Hopen & Hfresh & Hregs).
  destruct ev as [c|c]; cbn [step].
  - cbn [registrations flat_map app] in *.
    fold (registrations evs) in *.
    apply NoDup_cons_iff in Hregs. destruct Hregs as (Hc & Hregs).
    eexists. split; [reflexivity|].
    destruct (registered h c) eqn:R.
    + apply registered_In in R. exfalso. apply (Hfresh c R). now left.
    + assert (Hnot : ~ In c (clients h)).
      { intros H. apply registered_In in H. congruence. }
      repeat split; cbn [clients heap].
      * now constructor.
      * intros k [[<-|H]|H]; apply Hopen; auto; right; [now left|now right].
      * intros k [<-|H]; [exact Hc|].
        intros H'. apply (Hfresh k H). now right.
      * exact Hregs.
  - cbn [registrations flat_map app] in *.
    fold (registrations evs) in *.
    destruct (registered h c) eqn:R.
    + apply registered_In in R.
      unfold closeSend. rewrite (Hopen c (or_introl R)).
      eexists. split; [reflexivity|].
      repeat split; cbn [clients heap].
      * now apply NoDup_filter.
      * intros k Hk. unfold store.
        destruct (Nat.eqb k c) eqn:E.
        -- apply Nat.eqb_eq in E. subst k. exfalso.
           destruct Hk as [Hk|Hk].
           ++ apply In_filter_other in Hk. now destruct Hk.
           ++ exact (Hfresh c R Hk).
        -- apply Hopen. destruct Hk as [Hk|Hk]; [left|now right].
           now apply In_filter_other in Hk.
      * intros k Hk. apply In_filter_other in Hk. apply Hfresh, Hk.
      * exact Hregs.
    + exists h. split; [reflexivity|]. repeat split; assumption.
Qed.

Lemma run_sound (evs : list Event) (h : t) :
  sound h evs -> exists h', run h evs = Some h' /\ sound h' [].
Proof.
  revert h. induction evs as [|ev evs IH]; intros h Hs; cbn [run].
  - now exists h.
  - destruct (step_sound h ev evs Hs) as (h' & -> & Hs').
    exact (IH h' Hs').
Qed.

(** X7. As long as no client is registered twice (each session registers
    the client it has just made, once), the loop of the hub never panics,
    whatever the order of the events and however often a client is
    unregistered; and after them the registered clients are distinct and
    their channels are open. *)
Theorem hub_closes_each_channel_once (evs : list Event) :
  NoDup (registrations evs) ->
  exists h, run newHub evs = Some h
            /\ NoDup (clients h)
            /\ forall c, registered h c = true ->
                         Session.closed (heap h c) = false.
Proof.
  intros Hregs.
  destruct (run_sound evs newHub) as (h & Hrun & Hnd & Hopen & _).
  - repeat split; cbn [clients heap newHub]; auto.
    constructor.
  - exists h. split; [exact Hrun|]. split; [exact Hnd|].
    intros c R. apply Hopen. left. now apply registered_In.
Qed.

Lemma hub_closes_each_channel_once_witness :
  exists h,
    run newHub [Register 1; Register 2; Unregister 1; Unregister 1;
                Unregister 3; Unregister 2]
    = Some h
    /\ NoDup (clients h)
    /\ forall c, registered h c = true -> Session.closed (heap h c) = false.
Proof.
  apply hub_closes_each_channel_once.
  cbn. repeat constructor; cbn; intuition congruence.
Defined.

(** X8. An unregistration of a registered client closes its channel and
    takes it out of the map, so that a second one changes nothing; the
    other clients are left as they are.  From then on a send operation on
    that client panics, and so does the loop of the hub when the client is
    registered and unregistered once more. *)
Theorem unregister_closes_for_good (h h' : t) (c : ClientId) :
  registered h c = true ->
  step h (Unregister c) = Some h' ->
  registered h' c = false
  /\ Session.closed (heap h' c) = true
  /\ Session.send (heap h' c) = Session.send (heap h c)
  /\ (forall k, k <> c ->
        heap h' k = heap h k /\ registered h' k = registered h k)
  /\ step h' (Unregister c) = Some h'
  /\ (forall logType data,
        Session.notifyClientLog logType data (heap h' c)
        = Session.Panics "send on closed channel")
  /\ run h' [Register c; Unregister c] = None.
Proof.
  intros R. cbn [step]. rewrite R. unfold closeSend.
  destruct (Session.closed (heap h c)) eqn:Hc; [discriminate|].
  intros [= <-]. cbn [clients heap].
  assert (Hreg : registered
                   {| clients := filter (fun k => negb (Nat.eqb k c)) (clients h);
                      heap := store (heap h) c
                                {| Session.remoteAddr := Session.remoteAddr (heap h c);
                                   Session.send := Session.send (heap h c);
                                   Session.closed := true |} |} c = false).
  { apply Bool.not_true_is_false. intros R'.
    apply registered_In in R'. cbn [clients] in R'.
    apply In_filter_other in R'. now destruct R'. }
  split; [exact Hreg|].
  unfold store at 1 2. rewrite Nat.eqb_refl. cbn [Session.closed Session.send].
  split; [reflexivity|]. split; [reflexivity|].
  split.
  { intros k Hk. unfold store.
    apply Nat.eqb_neq in Hk. rewrite Hk. split; [reflexivity|].
    unfold registered. cbn [clients].
    apply existsb_filter_other, Hk. }
  split.
  { cbn [step]. now rewrite Hreg. }
  split.
  { intros logType data. unfold Session.notifyClientLog.
    cbn [Session.marshalErr Session.ServerMessage.Payload].
    unfold Session.trySend, store. rewrite Nat.eqb_refl. reflexivity. }
  cbn [run step]. rewrite Hreg.
  assert (Hin : registered
            {| clients := c :: filter (fun k => negb (Nat.eqb k c)) (clients h);
               heap := store (heap h) c
                         {| Session.remoteAddr := Session.remoteAddr (heap h c);
                            Session.send := Session.send (heap h c);
                            Session.closed := true |} |} c = true).
  { apply registered_In. now left. }
  cbn [clients heap] in *. rewrite Hin.
  unfold closeSend, store. rewrite Nat.eqb_refl. reflexivity.
Qed.

Lemma unregister_closes_for_good_witness :
  run {| clients := []; heap := store (heap newHub) 1 freshClient |}
      [Register 1; Unregister 1; Register 1; Unregister 1]
  = None.
Proof.
  exact (proj2 (proj2 (proj2 (proj2 (proj2 (proj2
    (unregister_closes_for_good
       {| clients := [1]; heap := store (heap newHub) 1 freshClient |}
       _ 1 eq_refl eq_refl))))))).
Defined.

End HubFacts.

(* ================================================================== *)
(** ** The pumps of a session *)
(* ================================================================== *)

Module PumpFacts.

Import Pump.

Lemma skipn_length_app {A : Type} (l x : list A) :
  skipn (List.length l) (l ++ x)%list = x.
Proof. induction l as [|a l IH]; [reflexivity|exact IH]. Qed.

Lemma skipn_length {A : Type} (l : list A) : skipn (List.length l) l = [].
Proof. induction l as [|a l IH]; [reflexivity|exact IH]. Qed.

Lemma trySend_Sent (c : Session.Client) msg dropped :
  Sent c (Session.trySend c msg dropped).
Proof.
  unfold Session.trySend.
  destruct (Session.closed c) eqn:Hc; [now constructor|].
  destruct (Nat.ltb_spec (List.length (Session.send c)) Session.sendCapacity).
  - now constructor.
  - constructor.
Qed.

Lemma notifyClient_Sent msgType payload c :
  Sent c (Session.notifyClient msgType payload c).
Proof.
  unfold Session.notifyClient.
  destruct (Session.marshalErr _); [constructor|apply trySend_Sent].
Qed.

Lemma notifyClientLog_Sent logType data c :
  Sent c (Session.notifyClientLog logType data c).
Proof.
  unfold Session.notifyClientLog.
  destruct (Session.marshalErr _); [constructor|apply trySend_Sent].
Qed.

Lemma texts_app (a b : list Frame) : texts (a ++ b) = (texts a ++ texts b)%list.
Proof. apply flat_map_app. Qed.

Lemma Sent_ordered (s : State) (r : Session.Result) :
  ordered s -> Sent (client s) r ->
  match r with
  | Session.Returns c _ =>
      ordered (withClient s c
                 (skipn (List.length (Session.send (client s)))
                        (Session.send c)))
  | Session.Panics _ => True
  end.
Proof.
  intros (Ha & Hl & Hlost & Hrun) [reason Hc|logged|msg Hc Hroom]; [exact I| |].
  - rewrite skipn_length. unfold ordered, withClient.
    cbn [accepted wire lost client running]. rewrite app_nil_r. auto.
  - cbn [Session.enqueue Session.send]. rewrite skipn_length_app.
    unfold ordered, withClient. cbn [accepted wire lost client running Session.send].
    unfold Session.enqueue. cbn [Session.send].
    rewrite Ha, length_app, <- !app_assoc. cbn [List.length].
    repeat split; auto. lia.
Qed.

Lemma writeTurn_ordered (s : State) (t : Turn) :
  ordered s -> ordered (writeTurn s t).
Proof.
  intros (Ha & Hl & Hlost & Hrun). unfold writeTurn.
  destruct (running s) eqn:R; cbn [negb]; [|repeat split; auto].
  assert (Hnil : lost s = []).
  { destruct (lost s); [reflexivity|]. discriminate Hrun. discriminate. }
  rewrite Hnil in Ha. cbn [app] in Ha.
  unfold ordered.
  destruct t as [failed|failed].
  - destruct (Session.send (client s)) as [|m rest] eqn:Hs.
    + destruct (Session.closed (client s)).
      * cbn [accepted wire lost client running].
        rewrite Hs, Hnil, Ha.
        destruct failed; rewrite ?texts_app; cbn [texts flat_map app];
          rewrite ?app_nil_r; repeat split; auto; discriminate.
      * rewrite Hs, Hnil, R, Ha.
        repeat split; auto; discriminate.
    + cbn [List.length] in Hl.
      destruct failed; cbn [accepted wire lost client running Session.send];
        rewrite ?texts_app; cbn [texts flat_map app];
        rewrite Ha, ?Hnil, <- ?app_assoc; cbn [app List.length];
        repeat split; auto; try lia; discriminate.
  - destruct failed; cbn [accepted wire lost client running];
      rewrite ?texts_app; cbn [texts flat_map app];
      rewrite Ha, Hnil, ?app_nil_r; repeat split; auto; discriminate.
Qed.

Lemma step_ordered (s s' : State) (op : Op) :
  ordered s -> step s op = Some s' -> ordered s'.
Proof.
  intros Hs. destruct op as [msgType payload|logType data| |t]; cbn [step].
  - pose proof (Sent_ordered s _ Hs (notifyClient_Sent msgType payload (client s))) as H.
    destruct (Session.notifyClient _ _ _); [|discriminate].
    now intros [= <-].
  - pose proof (Sent_ordered s _ Hs (notifyClientLog_Sent logType data (client s))) as H.
    destruct (Session.notifyClientLog _ _ _); [|discriminate].
    now intros [= <-].
  - unfold Hub.closeSend. destruct (Session.closed (client s)); [discriminate|].
    intros [= <-]. destruct Hs as (Ha & Hl & Hlost & Hrun).
    unfold ordered, withClient. cbn [accepted wire lost client running Session.send].
    rewrite app_nil_r. auto.
  - intros [= <-]. now apply writeTurn_ordered.
Qed.

Lemma run_ordered (ops : list Op) (s s' : State) :
  ordered s -> run s ops = Some s' -> ordered s'.
Proof.
  revert s. induction ops as [|op ops IH]; intros s Hs; cbn [run].
  - now intros [= <-].
  - destruct (step s op) as [s1|] eqn:H1; [|discriminate].
    apply IH. exact (step_ordered s s1 op Hs H1).
Qed.

(** X9. Whatever the handlers send, whenever the hub closes the channel
    and however the turns of [writePump] fall in between: the messages
    written to the connection, then the one a failed write lost (one at
    most, and [writePump] has returned then), then those still waiting in
    the channel, are the messages the send operations put in the channel,
    in that order; and never more than 256 are waiting. *)
Theorem session_keeps_the_order (addr : string) (ops : list Op) (s : State) :
  run (fresh addr) ops = Some s ->
  accepted s = (texts (wire s) ++ lost s ++ Session.send (client s))%list
  /\ List.length (Session.send (client s)) <= 256
  /\ List.length (lost s) <= 1
  /\ (lost s <> [] -> running s = false).
Proof.
  apply run_ordered. unfold ordered, fresh.
  cbn [accepted wire lost client running Session.send texts flat_map app
       List.length].
  repeat split; auto; try lia. intros H. now contradiction H.
Qed.

Lemma session_keeps_the_order_witness :
  exists s,
    run (fresh "10.0.0.2:4000")
        [NotifyLog "discovery_log" "one"; Notify "error" (PMessage "two");
         Writer (Receive false); NotifyLog "discovery_log" "three";
         Writer (Tick false); Writer (Receive true);
         NotifyLog "discovery_log" "four"; HubCloses; Writer (Receive false)]
    = Some s
    /\ accepted s = (texts (wire s) ++ lost s ++ Session.send (client s))%list
    /\ List.length (Session.send (client s)) <= 256
    /\ List.length (lost s) <= 1
    /\ (lost s <> [] -> running s = false).
Proof.
  eexists. split; [reflexivity|].
  apply (session_keeps_the_order "10.0.0.2:4000"
           [NotifyLog "discovery_log" "one"; Notify "error" (PMessage "two");
            Writer (Receive false); NotifyLog "discovery_log" "three";
            Writer (Tick false); Writer (Receive true);
            NotifyLog "discovery_log" "four"; HubCloses;
            Writer (Receive false)]).
  reflexivity.
Defined.

Lemma drain (queue : list Session.ServerMessage.t) (s : State) :
  running s = true ->
  Session.closed (client s) = true ->
  Session.send (client s) = queue ->
  exists s',
    run s (repeat (Writer (Receive false)) (S (List.length queue))) = Some s'
    /\ wire s' = (wire s ++ map TextMessage queue ++ [CloseMessage])%list
    /\ running s' = false
    /\ Session.send (client s') = []
    /\ accepted s' = accepted s /\ lost s' = lost s.
Proof.
  revert s. induction queue as [|m queue IH]; intros s R Hc Hq.
  - cbn [List.length repeat run step]. unfold writeTurn.
    rewrite R, Hq, Hc. cbn [negb]. eexists. split; [reflexivity|].
    cbn [wire running client accepted lost map app]. auto.
  - cbn [List.length repeat run step].
    change (run (writeTurn s (Receive false))
              (repeat (Writer (Receive false)) (S (List.length queue))))
      with (run (writeTurn s (Receive false))
              (Writer (Receive false)
               :: repeat (Writer (Receive false)) (List.length queue))).
    destruct (IH (writeTurn s (Receive false))) as (s' & Hrun & Hw & Hr & Hs & Ha & Hl);
      try (unfold writeTurn; rewrite R, Hq; cbn [negb running client
             Session.closed Session.send]; auto; fail).
    exists s'. split; [exact Hrun|]. rewrite Hw, Ha, Hl.
    unfold writeTurn. rewrite R, Hq.
    cbn [negb wire accepted lost map]. rewrite <- app_assoc. auto.
Qed.

Lemma returned_stays (ops : list Op) (s s' : State) :
  running s = false -> run s ops = Some s' ->
  wire s' = wire s /\ running s' = false.
Proof.
  revert s. induction ops as [|op ops IH]; intros s R; cbn [run].
  - intros [= <-]. auto.
  - destruct (step s op) as [s1|] eqn:H1; [|discriminate].
    intros Hrun.
    assert (H : wire s1 = wire s /\ running s1 = false).
    { destruct op as [msgType payload|logType data| |t]; cbn [step] in H1.
      - destruct (Session.notifyClient _ _ _); [|discriminate].
        injection H1 as <-. auto.
      - destruct (Session.notifyClientLog _ _ _); [|discriminate].
        injection H1 as <-. auto.
      - destruct (Hub.closeSend _); [|discriminate].
        injection H1 as <-. auto.
      - injection H1 as <-. unfold writeTurn. rewrite R. auto. }
    destruct H as (Hw & Hr). destruct (IH s1 Hr Hrun) as (Hw' & Hr').
    split; congruence.
Qed.

(** X10. Once the hub has closed the channel, [writePump] still writes
    every message that waits in it, in order, then the close frame, and
    returns: as many successful receives as there are messages, and one
    more.  After it has returned, whatever happens to the session, nothing
    more is written to the connection. *)
Theorem writePump_drains_then_closes (s : State) :
  running s = true ->
  Session.closed (client s) = true ->
  exists s',
    run s (repeat (Writer (Receive false))
                  (S (List.length (Session.send (client s))))) = Some s'
    /\ wire s'
       = (wire s ++ map TextMessage (Session.send (client s))
          ++ [CloseMessage])%list
    /\ running s' = false
    /\ Session.send (client s') = []
    /\ forall ops s'', run s' ops = Some s'' -> wire s'' = wire s'.
Proof.
  intros R Hc.
  destruct (drain (Session.send (client s)) s R Hc eq_refl)
    as (s' & Hrun & Hw & Hr & Hs & _).
  exists s'. repeat split; auto.
  intros ops s'' H. exact (proj1 (returned_stays ops s' s'' Hr H)).
Qed.

Lemma writePump_drains_then_closes_witness :
  exists s',
    run {| client := {| Session.remoteAddr := "10.0.0.2:4000";
                        Session.send :=
                          [{| Session.ServerMessage.Type_ := "discovery_log";
                              Session.ServerMessage.Payload := Session.Text "one" |}];
                        Session.closed := true |};
           wire := [PingMessage]; running := true;
           accepted := []; lost := [] |}
        [Writer (Receive false); Writer (Receive false)]
    = Some s'
    /\ wire s'
       = [PingMessage;
          TextMessage {| Session.ServerMessage.Type_ := "discovery_log";
                         Session.ServerMessage.Payload := Session.Text "one" |};
          CloseMessage]
    /\ running s' = false
    /\ Session.send (client s') = []
    /\ forall ops s'', run s' ops = Some s'' -> wire s'' = wire s'.
Proof.
  exact (writePump_drains_then_closes
           {| client := {| Session.remoteAddr := "10.0.0.2:4000";
                           Session.send :=
                             [{| Session.ServerMessage.Type_ := "discovery_log";
                                 Session.ServerMessage.Payload := Session.Text "one" |}];
                           Session.closed := true |};
              wire := [PingMessage]; running := true;
              accepted := []; lost := [] |}
           eq_refl eq_refl).
Defined.

Lemma step_none (s : State) (op : Op) :
  step s op = None
  <-> Session.closed (client s) = true /\ usesChannel op = true.
Proof.
  destruct op as [msgType payload|logType data| |t]; cbn [step usesChannel].
  - unfold Session.notifyClient.
    destruct (Session.marshalErr _).
    + split; [discriminate|intros (_ & H); discriminate].
    + unfold Session.trySend. destruct (Session.closed (client s)).
      * split; auto.
      * destruct (Nat.ltb _ _); (split; [discriminate|intros (H & _); discriminate]).
  - unfold Session.notifyClientLog.
    cbn [Session.marshalErr Session.ServerMessage.Payload].
    unfold Session.trySend. destruct (Session.closed (client s)).
    + split; auto.
    + destruct (Nat.ltb _ _); (split; [discriminate|intros (H & _); discriminate]).
  - unfold Hub.closeSend. destruct (Session.closed (client s)).
    + split; auto.
    + split; [discriminate|intros (H & _); discriminate].
  - split; [discriminate|intros (_ & H); discriminate].
Qed.

Lemma step_closed (s s' : State) (op : Op) :
  step s op = Some s' ->
  Session.closed (client s')
  = Session.closed (client s)
    || match op with HubCloses => true | _ => false end.
Proof.
  destruct op as [msgType payload|logType data| |t]; cbn [step].
  - pose proof (notifyClient_Sent msgType payload (client s)) as H.
    destruct H as [reason Hc|logged|msg Hc Hroom]; [discriminate| |];
      intros [= <-]; cbn [withClient client Session.enqueue Session.closed];
      now rewrite orb_false_r.
  - pose proof (notifyClientLog_Sent logType data (client s)) as H.
    destruct H as [reason Hc|logged|msg Hc Hroom]; [discriminate| |];
      intros [= <-]; cbn [withClient client Session.enqueue Session.closed];
      now rewrite orb_false_r.
  - unfold Hub.closeSend. destruct (Session.closed (client s)); [discriminate|].
    intros [= <-]. reflexivity.
  - intros [= <-]. rewrite orb_false_r. unfold writeTurn.
    destruct (running s); cbn [negb]; [|reflexivity].
    destruct t as [[|]|[|]]; try reflexivity;
      destruct (Session.send (client s)); try reflexivity;
      destruct (Session.closed (client s)) eqn:E; cbn [client]; auto.
Qed.

Lemma run_closed (ops : list Op) (s : State) :
  Session.closed (client s) = true ->
  run s ops = None <-> existsb usesChannel ops = true.
Proof.
  revert s. induction ops as [|op ops IH]; intros s Hc; cbn [run existsb].
  - split; discriminate.
  - destruct (step s op) as [s1|] eqn:H1.
    + assert (Hu : usesChannel op = false).
      { destruct (usesChannel op) eqn:Hu; [|reflexivity].
        assert (H : step s op = None) by (apply step_none; auto).
        congruence. }
      rewrite Hu. cbn [orb]. apply IH.
      rewrite (step_closed s s1 op H1), Hc. reflexivity.
    + apply step_none in H1. destruct H1 as (_ & ->). split; auto.
Qed.

Lemma run_open (ops : list Op) (s : State) :
  Session.closed (client s) = false ->
  run s ops = None
  <-> exists pre post, ops = (pre ++ HubCloses :: post)%list
                       /\ existsb usesChannel post = true.
Proof.
  revert s. induction ops as [|op ops IH]; intros s Hc; cbn [run].
  - split; [discriminate|]. intros (pre & post & H & _).
    destruct pre; discriminate.
  - destruct (step s op) as [s1|] eqn:H1.
    + pose proof (step_closed s s1 op H1) as Hc1. rewrite Hc in Hc1.
      cbn [orb] in Hc1.
      destruct op as [msgType payload|logType data| |t];
        try (rewrite (IH s1 Hc1); split;
             [intros (pre & post & -> & H); eexists (_ :: pre), post;
              split; [reflexivity|exact H]
             |intros (pre & post & E & H); destruct pre as [|o pre];
              [discriminate
              |injection E as _ ->; exists pre, post; split;
               [reflexivity|exact H]]]; fail).
      rewrite (run_closed ops s1 Hc1). split.
      * intros H. exists [], ops. auto.
      * intros (pre & post & E & H). destruct pre as [|o pre].
        -- injection E as ->. exact H.
        -- injection E as _ ->. rewrite existsb_app. cbn [existsb].
           rewrite H. now rewrite !orb_true_r.
    + apply step_none in H1. destruct H1 as (H1 & _). congruence.
Qed.

(** X11. A session panics exactly when the hub has closed the channel and,
    at some later point, a send operation whose message can be marshalled
    is called, or the channel is closed once more.  The turns of
    [writePump] never panic, and neither does a send operation on an open
    channel, full or not. *)
Theorem session_panics_after_close_only (addr : string) (ops : list Op) :
  run (fresh addr) ops = None
  <-> exists pre post, ops = (pre ++ HubCloses :: post)%list
                       /\ existsb usesChannel post = true.
Proof. apply run_open. reflexivity. Qed.

Lemma session_panics_after_close_only_witness :
  run (fresh "10.0.0.2:4000")
      [NotifyLog "discovery_log" "one"; HubCloses; Writer (Receive false);
       NotifyLog "discovery_log" "two"]
  = None.
Proof.
  apply (proj2 (session_panics_after_close_only "10.0.0.2:4000"
                  [NotifyLog "discovery_log" "one"; HubCloses;
                   Writer (Receive false); NotifyLog "discovery_log" "two"])).
  exists [NotifyLog "discovery_log" "one"],
         [Writer (Receive false); NotifyLog "discovery_log" "two"].
  split; reflexivity.
Defined.

Lemma readPump_reading (pre rest : list Read) :
  Forall (fun r => match r with ReadError _ => False | _ => True end) pre ->
  readPump (pre ++ rest)
  = (map (fun r => match r with
                   | Message msg => Handle msg
                   | Malformed err =>
                       Answer (SendPayload "error"
                                 (PMessage ("Invalid message format: " ++ err)))
                   | ReadError _ => UnregisterAndClose
                   end) pre
     ++ readPump rest)%list.
Proof.
  induction 1 as [|r pre Hr _ IH]; [reflexivity|].
  destruct r; [contradiction| |]; cbn [readPump app map]; now rewrite IH.
Qed.

(** X12. Up to the first error of a read, [readPump] reacts once to every
    frame, in the order of the frames: a frame that decodes is handed to a
    handler, a frame that does not is answered with an error message that
    holds the error of the decoder, and the loop goes on.  The first error
    of a read ends it: it unregisters the client and closes the connection,
    once, and nothing that might follow is handled.  As long as no read
    fails it does neither. *)
Theorem readPump_ends_at_first_read_error
    (pre post : list Read) (err : string) :
  Forall (fun r => match r with ReadError _ => False | _ => True end) pre ->
  let reaction r :=
    match r with
    | Message msg => Handle msg
    | Malformed e =>
        Answer (SendPayload "error"
                  (PMessage ("Invalid message format: " ++ e)))
    | ReadError _ => UnregisterAndClose
    end in
  readPump (pre ++ ReadError err :: post)
  = (map reaction pre ++ [UnregisterAndClose])%list
  /\ readPump pre = map reaction pre
  /\ ~ In UnregisterAndClose (readPump pre).
Proof.
  intros H. cbv zeta.
  pose proof (readPump_reading pre [] H) as E.
  rewrite app_nil_r in E. cbn [readPump] in E. rewrite app_nil_r in E.
  split; [|split].
  - now rewrite (readPump_reading pre _ H).
  - exact E.
  - rewrite E. clear E. induction H as [|r pre Hr _ IH]; [intros []|].
    cbn [map In]. intros [E|E]; [|exact (IH E)].
    destruct r; [contradiction|discriminate|discriminate].
Qed.

Lemma readPump_ends_at_first_read_error_witness :
  readPump [Malformed "unexpected end of JSON input";
            Message DiscoverDevices;
            ReadError "websocket: close 1001 (going away)";
            Message DiscoverDevices]
  = [Answer (SendPayload "error"
               (PMessage "Invalid message format: unexpected end of JSON input"));
     Handle DiscoverDevices;
     UnregisterAndClose].
Proof.
  apply (readPump_ends_at_first_read_error
           [Malformed "unexpected end of JSON input"; Message DiscoverDevices]
           [Message DiscoverDevices]
           "websocket: close 1001 (going away)").
  repeat constructor.
Defined.

End PumpFacts.

(* ================================================================== *)
(** ** The handlers on a session *)
(* ================================================================== *)

Module CrashFacts.

Import Dispatcher.

(** X3. A handler (its own code and its own calls of the send operations;
    the goroutines it starts apart) brings the server down in two
    situations only.  One is the index expression of [get_status]: a
    payload that is a JSON object, a run that ends without error and prints
    neither "Data = true" nor "Data = false".  The other is a use of the
    channel of the session after the hub has closed it: among the steps of
    the session (the send operations of the handler, the turns of
    [writePump], the close of the hub, in any order), a close followed by a
    send operation whose message can be marshalled or by another close.  In
    every other case, with every result of the tool, the message is handled
    to the end. *)
Theorem handleClientMessage_crashes_in_two_situations
    (e : Env) (msg : ClientMessage) (addr : string) (ops : list Pump.Op) :
  filter Pump.isSend ops = opsOf (fst (handleClientMessage e msg)) ->
  (Pump.run (Pump.fresh addr) ops = None
   \/ snd (handleClientMessage e msg) <> Returned)
  <-> ((exists pre post,
          ops = (pre ++ Pump.HubCloses :: post)%list
          /\ existsb Pump.usesChannel post = true)
       \/ (msg = GetStatus true
           /\ err (tool e statusArgs) = None
           /\ Regexp.reStatus (stdout (tool e statusArgs)) = None)).
Proof.
  intros _.
  rewrite (PumpFacts.run_open ops (Pump.fresh addr) eq_refl).
  rewrite (DispatcherMore.handler_panics_iff e msg).
  reflexivity.
Qed.

Lemma handleClientMessage_crashes_in_two_situations_witness :
  Pump.run (Pump.fresh "10.0.0.2:4000")
    [Pump.HubCloses;
     Pump.Notify "error" (PMessage "Unknown command type received: ping")]
  = None
  \/ snd (handleClientMessage (constEnv silentRun 0) (UnknownType "ping"))
     <> Returned.
Proof.
  apply (proj2 (handleClientMessage_crashes_in_two_situations
                  (constEnv silentRun 0) (UnknownType "ping")
                  "10.0.0.2:4000"
                  [Pump.HubCloses;
                   Pump.Notify "error"
                     (PMessage "Unknown command type received: ping")]
                  eq_refl)).
  left. exists [], [Pump.Notify "error"
                     (PMessage "Unknown command type received: ping")].
  split; reflexivity.
Defined.

End CrashFacts.

(* ================================================================== *)
(** ** Numbers in the values of attributes *)
(* ================================================================== *)

Module NumberFacts.

Import Strconv.

Lemma parseDigits_all (maxVal : Z) (s : string) (a : Z) :
  Forall (fun c => isDigit c = true) (bytes s) -> (0 <= a <= maxVal)%Z ->
  parseDigits maxVal s a
  = if (valDigits s a <=? maxVal)%Z then inr (valDigits s a)
    else inl ErrRange.
Proof.
  revert a; induction s as [|c r IH]; intros a Hd Ha; cbn [parseDigits valDigits].
  - destruct (Z.leb_spec a maxVal); [reflexivity|lia].
  - inversion Hd as [|c' l Hc Hr]; subst. rewrite Hc. cbn [negb].
    pose proof (StrconvFacts.digitVal_range c Hc) as Hv.
    destruct (Z.ltb_spec maxVal (a * 10 + digitVal c)) as [Hlt|Hge].
    + pose proof (StrconvFacts.valDigits_ge r (a * 10 + digitVal c) Hr) as Hge.
      destruct (Z.leb_spec (valDigits r (a * 10 + digitVal c)) maxVal);
        [lia|reflexivity].
    + apply IH; [exact Hr|lia].
Qed.

Lemma formatUint_digits (n : N) :
  Forall (fun c => isDigit c = true) (bytes (formatUint n)).
Proof. apply StrconvFacts.utoa_digits. constructor. Qed.

Lemma formatUint_val (n : N) : valDigits (formatUint n) 0 = Z.of_N n.
Proof.
  unfold formatUint. rewrite StrconvFacts.utoa_val; [reflexivity|].
  apply StrconvFacts.formatUint_fuel.
Qed.

Lemma ParseUint_formatUint (n : N) :
  ParseUint (formatUint n) 64
  = if (Z.of_N n <=? 2 ^ 64 - 1)%Z then inr (Z.of_N n) else inl ErrRange.
Proof.
  unfold ParseUint.
  destruct (formatUint n) as [|c r] eqn:Hf.
  - exfalso. exact (StrconvFacts.utoa_not_empty _ _ _ Hf).
  - rewrite <- Hf, parseDigits_all.
    + now rewrite formatUint_val.
    + apply formatUint_digits.
    + lia.
Qed.

Lemma formatUint_head (n : N) :
  exists c r, formatUint n = String c r /\ isDigit c = true.
Proof.
  pose proof (formatUint_digits n) as Hd.
  destruct (formatUint n) as [|c r] eqn:Hf.
  - exfalso. exact (StrconvFacts.utoa_not_empty _ _ _ Hf).
  - exists c, r. split; [reflexivity|]. now inversion Hd.
Qed.

Lemma ParseInt_formatUint (n : N) :
  ParseInt (formatUint n)
  = if (Z.of_N n <? 2 ^ 63)%Z then inr (Z.of_N n) else inl ErrRange.
Proof.
  destruct (formatUint_head n) as (c & r & Hf & Hc).
  unfold ParseInt. rewrite Hf.
  assert (Hp : Ascii.eqb c "+" = false /\ Ascii.eqb c "-" = false).
  { split; apply Ascii.eqb_neq; intros ->; discriminate. }
  destruct Hp as [-> ->]. cbn [orb negb andb]. rewrite <- Hf.
  rewrite ParseUint_formatUint.
  destruct (Z.leb_spec (Z.of_N n) (2 ^ 64 - 1)).
  - destruct (Z.leb_spec (2 ^ 63) (Z.of_N n));
      destruct (Z.ltb_spec (Z.of_N n) (2 ^ 63)); try lia; reflexivity.
  - destruct (Z.ltb_spec (Z.of_N n) (2 ^ 63)); [lia|reflexivity].
Qed.

Lemma ParseInt_minus_formatUint (n : N) :
  ParseInt ("-" ++ formatUint n)
  = if (Z.of_N n <=? 2 ^ 63)%Z then inr (- Z.of_N n)%Z else inl ErrRange.
Proof.
  cbn [append]. unfold ParseInt.
  change (Ascii.eqb "-" "+") with false. change (Ascii.eqb "-" "-") with true.
  cbn [orb negb andb]. rewrite ParseUint_formatUint.
  destruct (Z.leb_spec (Z.of_N n) (2 ^ 64 - 1)).
  - destruct (Z.ltb_spec (2 ^ 63) (Z.of_N n));
      destruct (Z.leb_spec (Z.of_N n) (2 ^ 63)); try lia; reflexivity.
  - destruct (Z.leb_spec (Z.of_N n) (2 ^ 63)); [lia|reflexivity].
Qed.

(** [ParseInt] reads back what [Itoa] writes, within the range of an
    [int64]; outside of it, it answers with a range error. *)
Lemma ParseInt_Itoa (z : Z) :
  ParseInt (Itoa z)
  = if ((- 2 ^ 63 <=? z) && (z <? 2 ^ 63))%Z then inr z else inl ErrRange.
Proof.
  unfold Itoa. destruct (Z.ltb_spec z 0) as [Hneg|Hpos].
  - rewrite ParseInt_minus_formatUint.
    replace (Z.of_N (Z.abs_N z)) with (- z)%Z by lia.
    destruct (Z.leb_spec (- z) (2 ^ 63));
      destruct (Z.leb_spec (- 2 ^ 63) z); try lia;
      destruct (Z.ltb_spec z (2 ^ 63)); try lia; cbn [andb]; try reflexivity.
    f_equal. lia.
  - rewrite ParseInt_formatUint.
    replace (Z.of_N (Z.to_N z)) with z by lia.
    destruct (Z.leb_spec (- 2 ^ 63) z); [|lia].
    destruct (Z.ltb_spec z (2 ^ 63)); reflexivity.
Qed.

Lemma ParseBool_Itoa (z : Z) :
  (- 2 ^ 63 <= z < 2 ^ 63)%Z ->
  ParseBool (Itoa z)
  = if (z =? 1)%Z then Some true
    else if (z =? 0)%Z then Some false else None.
Proof.
  intros Hz.
  assert (Hp : ParseInt (Itoa z) = inr z).
  { rewrite ParseInt_Itoa.
    destruct (Z.leb_spec (- 2 ^ 63) z); [|lia].
    destruct (Z.ltb_spec z (2 ^ 63)); [reflexivity|lia]. }
  destruct (Z.eqb_spec z 1) as [->|H1]; [reflexivity|].
  destruct (Z.eqb_spec z 0) as [->|H0]; [reflexivity|].
  assert (Hne : forall c, In c ["1"; "t"; "T"; "TRUE"; "true"; "True";
                                "0"; "f"; "F"; "FALSE"; "false"; "False"] ->
                          String.eqb (Itoa z) c = false).
  { intros c Hc. apply String.eqb_neq. intros E. rewrite E in Hp.
    cbn [In] in Hc.
    repeat (destruct Hc as [<-|Hc]; [vm_compute in Hp; congruence|]).
    exact Hc. }
  unfold ParseBool. cbn [existsb].
  rewrite !Hne by (cbn [In]; tauto). reflexivity.
Qed.

Section WithParseFloat.

Variable ParseFloat : string -> option spec_float.

Lemma decode_integer (typeStr valStr : string) :
  In typeStr integerTypes ->
  decode ParseFloat typeStr valStr
  = match ParseInt valStr with
    | inr i => VInt i
    | inl _ => VString valStr
    end.
Proof.
  intros H. unfold decode.
  assert (E : String.eqb typeStr "BOOLEAN" = false
              /\ existsb (String.eqb typeStr) integerTypes = true).
  { unfold integerTypes in H. cbn [In] in H.
    repeat (destruct H as [<-|H]; [split; reflexivity|]). contradiction. }
  destruct E as [-> ->]. reflexivity.
Qed.

(** X13. A report of one of the integer types whose value is the decimal
    text of a number is decoded to that number when the number is within
    the range of an [int64]; outside of it (the upper half of the values of
    a UINT64 for one) the update carries the text instead. *)
Theorem decode_integer_round_trip (typeStr : string) (z : Z) :
  In typeStr integerTypes ->
  decode ParseFloat typeStr (Itoa z)
  = if ((- 2 ^ 63 <=? z) && (z <? 2 ^ 63))%Z then VInt z
    else VString (Itoa z).
Proof.
  intros H. rewrite (decode_integer _ _ H), ParseInt_Itoa.
  destruct ((- 2 ^ 63 <=? z) && (z <? 2 ^ 63))%Z; reflexivity.
Qed.

(** X14. [readAttribute] reads the decimal text of a number within the
    range of an [int64] as that number, but for 0 and 1: these it reads as
    the booleans false and true, whatever the type of the attribute. *)
Theorem interpret_integer_or_boolean (z : Z) :
  (- 2 ^ 63 <= z < 2 ^ 63)%Z ->
  interpret ParseFloat (Itoa z)
  = if (z =? 1)%Z then VBool true
    else if (z =? 0)%Z then VBool false else VInt z.
Proof.
  intros Hz. unfold interpret. rewrite (ParseBool_Itoa z Hz).
  destruct (z =? 1)%Z; [reflexivity|].
  destruct (z =? 0)%Z; [reflexivity|].
  rewrite ParseInt_Itoa.
  destruct (Z.leb_spec (- 2 ^ 63) z); [|lia].
  destruct (Z.ltb_spec z (2 ^ 63)); [reflexivity|lia].
Qed.

End WithParseFloat.

Lemma decode_integer_round_trip_witness :
  decode Strconv.special "UINT64" "18446744073709551615"
  = VString "18446744073709551615"
  /\ decode Strconv.special "UINT64" "254" = VInt 254.
Proof.
  split.
  - exact (decode_integer_round_trip Strconv.special "UINT64"
             18446744073709551615
             (or_intror (or_intror (or_intror (or_intror (or_intror
                (or_intror (or_intror (or_introl eq_refl))))))))).
  - exact (decode_integer_round_trip Strconv.special "UINT64" 254
             (or_intror (or_intror (or_intror (or_intror (or_intror
                (or_intror (or_intror (or_introl eq_refl))))))))).
Defined.

Lemma interpret_integer_or_boolean_witness :
  interpret Strconv.special "1" = VBool true
  /\ interpret Strconv.special "254" = VInt 254.
Proof.
  split.
  - apply (interpret_integer_or_boolean Strconv.special 1). lia.
  - apply (interpret_integer_or_boolean Strconv.special 254). lia.
Defined.

End NumberFacts.

(* ================================================================== *)
(** ** The goroutines of a subscription *)
(* ================================================================== *)

Module SubscriptionFacts.

Import GoStrings Bufio.

Section WithParseFloat.

Variable ParseFloat : string -> option spec_float.
Variable sub : Subscription.

Lemma reportLoop_bound (ls : list string) (b : bool) :
  List.length (snd (reportLoop ParseFloat sub b ls))
  <= (if b then 1 else 0) + List.length (filter Regexp.reReportStart ls)
  /\ Forall (fun a => exists v, a = update sub v)
            (snd (reportLoop ParseFloat sub b ls)).
Proof.
  revert b. induction ls as [|l ls IH]; intros b; cbn [reportLoop filter].
  - cbn [snd List.length]. split; [lia|constructor].
  - unfold reportStep.
    destruct (Regexp.reReportStart l).
    + destruct (IH true) as (H1 & H2).
      destruct (reportLoop ParseFloat sub true ls) as [b' sent'].
      cbn [snd app List.length] in *. split; [destruct b; lia|exact H2].
    + destruct b.
      * destruct (Regexp.reDataLine l) as [[m1 m2]|].
        -- destruct (IH false) as (H1 & H2).
           destruct (reportLoop ParseFloat sub false ls) as [b' sent'].
           cbn [snd app List.length] in *. split; [lia|].
           constructor; [eauto|exact H2].
        -- destruct (Contains l "CHIP:DMG: }").
           ++ destruct (IH false) as (H1 & H2).
              destruct (reportLoop ParseFloat sub false ls) as [b' sent'].
              cbn [snd app List.length] in *. split; [lia|exact H2].
           ++ destruct (IH true) as (H1 & H2).
              destruct (reportLoop ParseFloat sub true ls) as [b' sent'].
              cbn [snd app List.length] in *. split; [lia|exact H2].
      * destruct (IH false) as (H1 & H2).
        destruct (reportLoop ParseFloat sub false ls) as [b' sent'].
        cbn [snd app List.length] in *. split; [lia|exact H2].
Qed.

Lemma payloads_updates (t : list Action) :
  Forall (fun a => exists v, a = update sub v) t ->
  List.length (TraceMore.payloads t) = List.length t
  /\ Forall (fun p => exists v,
               p = PAttributeUpdate
                     {| AttributeUpdatePayload.NodeID := subNodeID sub;
                        AttributeUpdatePayload.EndpointID := subEndpointID sub;
                        AttributeUpdatePayload.Cluster := subClusterName sub;
                        AttributeUpdatePayload.Attribute := subAttributeName sub;
                        AttributeUpdatePayload.Value := v |})
            (TraceMore.payloads t).
Proof.
  induction 1 as [|a t (v & ->) _ (IH1 & IH2)].
  - split; [reflexivity|constructor].
  - cbn [TraceMore.payloads flat_map update app List.length].
    fold (TraceMore.payloads t). split; [now rewrite IH1|].
    constructor; [now exists v|exact IH2].
Qed.

Lemma payloads_logs (t : list Action) :
  Forall (fun a => exists k d, a = NotifyLog k d) t -> TraceMore.payloads t = [].
Proof.
  induction 1 as [|a t (k & d & ->) _ IH]; [reflexivity|exact IH].
Qed.

Lemma stdoutLoop_payloads (s : Stream) :
  TraceMore.payloads (stdoutLoop ParseFloat sub s)
  = TraceMore.payloads
      (snd (reportLoop ParseFloat sub false (scanLines (outText s)))).
Proof.
  unfold stdoutLoop, reportUpdates.
  rewrite DispatcherMore.payloads_app.
  rewrite (payloads_logs (_ ++ _)%list), app_nil_r; [reflexivity|].
  apply Forall_app. split.
  - destruct (scanErr (outText s)); repeat constructor; eauto.
  - destruct (exits s); repeat constructor; eauto.
Qed.

Lemma stdoutLoop_updates (s : Stream) :
  Forall (fun p => exists v,
            p = PAttributeUpdate
                  {| AttributeUpdatePayload.NodeID := subNodeID sub;
                     AttributeUpdatePayload.EndpointID := subEndpointID sub;
                     AttributeUpdatePayload.Cluster := subClusterName sub;
                     AttributeUpdatePayload.Attribute := subAttributeName sub;
                     AttributeUpdatePayload.Value := v |})
         (TraceMore.payloads (stdoutLoop ParseFloat sub s)).
Proof.
  rewrite stdoutLoop_payloads.
  apply payloads_updates, reportLoop_bound.
Qed.

Lemma stderrLoop_sends (attributeName text : string) :
  TraceMore.payloads (stderrLoop attributeName text) = [].
Proof.
  apply payloads_logs. unfold stderrLoop.
  induction (scanLines text); constructor; eauto.
Qed.

(** X15. Whatever [chip-tool] writes to its standard output, the goroutine
    that reads it calls [sendPayload] no more often than the stream has
    lines that open a report, and each time with an update that names the
    node, the endpoint, the cluster and the attribute of the subscription;
    all it calls besides is [notifyClientLog], with lines of the type
    [subscription_log]. *)
Theorem subscription_updates_bounded (s : Stream) :
  let t := stdoutLoop ParseFloat sub s in
  List.length (TraceMore.payloads t)
  <= List.length (filter Regexp.reReportStart (scanLines (outText s)))
  /\ Forall (fun a => (exists v, a = update sub v)
                      \/ (exists data, a = NotifyLog "subscription_log" data))
            t.
Proof.
  cbv zeta. split.
  - rewrite stdoutLoop_payloads.
    destruct (reportLoop_bound (scanLines (outText s)) false) as (H1 & H2).
    destruct (payloads_updates _ H2) as (H3 & _).
    rewrite H3. exact H1.
  - unfold stdoutLoop, reportUpdates.
    apply Forall_app. split; [|apply Forall_app; split].
    + eapply Forall_impl;
        [|exact (proj2 (reportLoop_bound (scanLines (outText s)) false))].
      intros a H. now left.
    + destruct (scanErr (outText s));
        [apply Forall_cons; [right; eauto|constructor]|constructor].
    + destruct (exits s);
        [apply Forall_cons; [right; eauto|constructor]|constructor].
Qed.

(** X16. A line of 65536 bytes or more in the standard output ends the
    reading of the stream: the lines in front of it are handled as ever,
    the client is sent the error of the scanner as a log line, and nothing
    of what follows the long line is reported, whatever it holds.  The line
    that tells of the end of the subscription follows only if the process
    exits, so that [cmd.Wait()] returns; a process that goes on writing to
    the pipe nobody reads any more does not. *)
Theorem subscription_stops_at_long_line
    (s : Stream) (ls : list string) (long rest : string) :
  forallb plainLine ls = true ->
  noNewline long = true ->
  (MaxScanTokenSize <= N.of_nat (String.length long))%N ->
  outText s = joinLines ls ++ long ++ rest ->
  stdoutLoop ParseFloat sub s
  = (snd (reportLoop ParseFloat sub false ls)
     ++ [NotifyLog "subscription_log"
           ("[" ++ subAttributeName sub
            ++ "] Error reading subscription stream: bufio.Scanner: token too long")]
     ++ (if exits s then
           [NotifyLog "subscription_log"
              ("Subscription for " ++ subClusterName sub ++ "/"
               ++ subAttributeName sub ++ " on Node " ++ subNodeID sub
               ++ " ended. Error: " ++ errorText (waitErr s))]
         else []))%list.
Proof.
  intros Hls Hnl Hlen Hs.
  destruct (ScannerFacts.scan_lines_then_long ls long rest Hls Hnl Hlen)
    as (E1 & E2).
  unfold stdoutLoop, reportUpdates, scanErr. rewrite Hs, E1.
  apply Nat.neq_sym, Nat.eqb_neq in E2. rewrite E2. reflexivity.
Qed.

End WithParseFloat.

Lemma subscription_stops_at_long_line_witness :
  stdoutLoop Strconv.special sampleSubscription
    {| stdoutPipeErr := None; stderrPipeErr := None; startErr := None;
       outText := joinLines []
                  ++ Strconv.zeros (N.to_nat 65536)
                  ++ String newline "CHIP:DMG: ReportDataMessage =";
       errText := "";
       exits := false;
       waitErr := None |}
  = [NotifyLog "subscription_log"
       "[OnOff] Error reading subscription stream: bufio.Scanner: token too long"].
Proof.
  refine (subscription_stops_at_long_line Strconv.special sampleSubscription
            {| stdoutPipeErr := None; stderrPipeErr := None; startErr := None;
               outText := joinLines []
                          ++ Strconv.zeros (N.to_nat 65536)
                          ++ String newline "CHIP:DMG: ReportDataMessage =";
               errText := "";
               exits := false;
               waitErr := None |}
            [] (Strconv.zeros (N.to_nat 65536))
            (String newline "CHIP:DMG: ReportDataMessage =")
            eq_refl _ _ eq_refl).
  - vm_compute. reflexivity.
  - apply N.leb_le. vm_compute. reflexivity.
Defined.

End SubscriptionFacts.

(* ================================================================== *)
(** ** More on the handlers *)
(* ================================================================== *)

Module HandlerFacts.

Import GoStrings Dispatcher Trace TraceMore.

Lemma tool_withRunError_same (e : Env) (argv : list string) (t : option string) :
  tool (withRunError e argv t) argv
  = {| stdout := stdout (tool e argv); stderr := stderr (tool e argv);
       err := t |}.
Proof.
  unfold withRunError. cbn [tool].
  destruct (list_eq_dec string_dec argv argv); [reflexivity|contradiction].
Qed.

Lemma tool_withRunError_other (e : Env) (argv a : list string)
    (t : option string) :
  a <> argv -> tool (withRunError e argv t) a = tool e a.
Proof.
  intros H. unfold withRunError. cbn [tool].
  destruct (list_eq_dec string_dec a argv); [contradiction|reflexivity].
Qed.

(** X17. The handler of [commission_device] never looks at the way the
    pairing run ends: with an error of that run or without, it does and
    sends the same, the output of the two runs being the same. *)
Theorem commission_ignores_pairing_exit
    (e : Env) (payload : CommissionDevicePayload.t) (t : option string) :
  handleClientMessage (withRunError e (pairingArgs e payload) t)
    (CommissionDevice (Valid payload))
  = handleClientMessage e (CommissionDevice (Valid payload)).
Proof.
  unfold handleClientMessage, handleCommission.
  destruct (isEmpty (CommissionDevicePayload.SetupCode payload)); [reflexivity|].
  unfold commission.
  change (getwdErr (withRunError e (pairingArgs e payload) t))
    with (getwdErr e).
  change (generatedNodeID (withRunError e (pairingArgs e payload) t))
    with (generatedNodeID e).
  change (pairingArgs (withRunError e (pairingArgs e payload) t) payload)
    with (pairingArgs e payload).
  change (partsListArgs (withRunError e (pairingArgs e payload) t))
    with (partsListArgs e).
  rewrite tool_withRunError_same.
  rewrite (tool_withRunError_other e (pairingArgs e payload) (partsListArgs e))
    by discriminate.
  reflexivity.
Qed.

Lemma reportsSuccess_simpl (out errOut : string) :
  reportsSuccess out errOut
  = Contains out "Commissioning success"
    || Contains out "commissioning complete"
    || Contains errOut "Commissioning success".
Proof.
  unfold reportsSuccess.
  destruct errOut;
    [|cbn [isEmpty]; now rewrite andb_false_r, orb_false_r].
  change (Contains "" "commissioning complete") with false.
  cbn [andb]. now rewrite orb_false_r.
Qed.

Lemma digits_spec (s d rest : string) :
  Regexp.digits s = (d, rest) ->
  Forall (fun c => Strconv.isDigit c = true) (bytes d).
Proof.
  revert d rest. induction s as [|c r IH]; intros d rest; cbn [Regexp.digits].
  - intros [= <- _]. constructor.
  - destruct (Strconv.isDigit c) eqn:Hc.
    + destruct (Regexp.digits r) as [d' rest'] eqn:Hd.
      intros [= <- _]. constructor; [exact Hc|]. exact (IH d' rest' eq_refl).
    + intros [= <- _]. constructor.
Qed.

Lemma rePartsList_digits (s ep : string) :
  Regexp.rePartsList s = Some ep ->
  ep <> "" /\ Forall (fun c => Strconv.isDigit c = true) (bytes ep).
Proof.
  intros H. apply DispatcherMore.leftmost_some in H. destruct H as (t & H).
  destruct (Regexp.eat "Data = [" t) as [r|]; [|discriminate].
  cbv zeta in H.
  destruct (Regexp.digits1 _) as [[d r']|] eqn:Hd; [|discriminate].
  destruct (Regexp.eat " (unsigned)" r'); [|discriminate].
  injection H as <-. unfold Regexp.digits1 in Hd.
  destruct (Regexp.digits _) as [d0 rest] eqn:H0.
  destruct d0 as [|c d0]; [discriminate|]. injection Hd as <- _.
  split; [discriminate|]. exact (digits_spec _ _ _ H0).
Qed.

(** X18. A [commission_device] message with a setup code, when the working
    directory can be read, runs [chip-tool] exactly twice, the pairing and
    the read of the parts list, whatever the pairing gave.  What the handler
    hands to [sendPayload] then depends on the parts list alone: with one in
    the output, a success with the generated node id and an endpoint id of
    decimal digits, a read of the node label in a goroutine, and a second
    status that is a failure unless the output tells of a success (the test
    of the standard error for the text commissioning complete never
    counts); without one, a single failure when the read failed, and
    nothing at all when it did not.  When the working directory cannot be
    read the handler returns after its first log line: no run, no status,
    no goroutine. *)
Theorem commission_outcome (e : Env) (payload : CommissionDevicePayload.t) :
  isEmpty (CommissionDevicePayload.SetupCode payload) = false ->
  let t := fst (handleClientMessage e (CommissionDevice (Valid payload))) in
  let r1 := tool e (pairingArgs e payload) in
  let r2 := tool e (partsListArgs e) in
  let out := stdout r1 ++ stdout r2 in
  let errOut := stderr r1 ++ stderr r2 in
  match getwdErr e with
  | Some _ => runs t = [] /\ spawned t = [] /\ payloads t = []
  | None =>
      runs t = [pairingArgs e payload; partsListArgs e]
      /\ match Regexp.rePartsList out with
         | Some endpoint =>
             map CommissioningStatusPayload.Success (commissioningStatuses t)
             = [true;
                Contains out "Commissioning success"
                || Contains out "commissioning complete"
                || Contains errOut "Commissioning success"]
             /\ map CommissioningStatusPayload.NodeID (commissioningStatuses t)
                = [generatedNodeID e; ""]
             /\ map CommissioningStatusPayload.EndpointId
                  (commissioningStatuses t)
                = [endpoint; ""]
             /\ endpoint <> ""
             /\ Forall (fun c => Strconv.isDigit c = true) (bytes endpoint)
             /\ spawned t
                = [ReadAttribute (generatedNodeID e) "1" "BasicInformation"
                     "NodeLabel"]
         | None =>
             spawned t = []
             /\ map CommissioningStatusPayload.Success
                  (commissioningStatuses t)
                = match err r2 with Some _ => [false] | None => [] end
         end
  end.
Proof.
  intros Hcode. cbv zeta.
  unfold handleClientMessage, handleCommission. rewrite Hcode.
  unfold commission.
  destruct (getwdErr e); [repeat split|].
  destruct (Regexp.rePartsList _) as [endpoint|] eqn:Hm.
  - destruct (rePartsList_digits _ _ Hm) as (Hne & Hd).
    rewrite reportsSuccess_simpl.
    destruct (Contains _ "Commissioning success"
              || Contains _ "commissioning complete"
              || Contains _ "Commissioning success");
      repeat split; auto.
  - destruct (err (tool e (partsListArgs e))); repeat split.
Qed.

Lemma commission_outcome_witness :
  runs (fst (handleClientMessage (constEnv pairedRun 5)
               (CommissionDevice (Valid setupCodeOnly))))
  = [["pairing"; "onnetwork-long"; "0005"; "20202021"; ""];
     ["descriptor"; "read"; "parts-list"; "0005"; "0"]].
Proof.
  exact (proj1 (commission_outcome (constEnv pairedRun 5) setupCodeOnly
                  eq_refl)).
Defined.

Lemma length_filter_le {A : Type} (f : A -> bool) (l : list A) :
  List.length (filter f l) <= List.length l.
Proof.
  induction l as [|a l IH]; [reflexivity|].
  cbn [filter]. destruct (f a); cbn [List.length]; lia.
Qed.

Lemma length_splitBlocks (cs : list string) :
  List.length (snd (Discovery.splitBlocks cs))
  = List.length (filter (fun c => HasPrefix c Discovery.blockMarker) cs).
Proof.
  induction cs as [|c cs IH]; [reflexivity|].
  cbn [Discovery.splitBlocks filter].
  destruct (Discovery.splitBlocks cs) as [pre bs].
  destruct (HasPrefix c Discovery.blockMarker); cbn [snd List.length] in *;
    now rewrite IH.
Qed.

(** X19. The parser returns at most one record for each line that opens a
    device block (a line whose text after the marker [DIS] starts with
    Discovered commissionable/commissioner node:); what stands in front of
    the first of these lines gives no record, and an output without any
    gives none. *)
Theorem parseDiscoveryOutput_one_record_per_block (output : string) :
  List.length (fst (Discovery.parseDiscoveryOutput output))
  <= List.length (filter (fun c => HasPrefix c Discovery.blockMarker)
                         (Discovery.disContents output)).
Proof.
  rewrite DiscoveryFacts.parse_blocks. unfold Discovery.blocks.
  rewrite <- length_splitBlocks. unfold Discovery.blockDevices.
  rewrite length_map.
  etransitivity; [apply length_filter_le|]. now rewrite length_map.
Qed.

Section WithParseFloat.

Variable ParseFloat : string -> option spec_float.
Variable streamOf : list string -> Stream.

Lemma readAttribute_sends (e : Env)
    (nodeID endpointID clusterName attributeName : string) :
  let r := tool e [ToLower clusterName; "read"; attributeName; nodeID;
                   endpointID] in
  let t := fst (readAttribute ParseFloat e nodeID endpointID clusterName
                  attributeName) in
  runs t = [[ToLower clusterName; "read"; attributeName; nodeID; endpointID]]
  /\ spawned t = []
  /\ payloads t
     = match err r with
       | Some _ => []
       | None =>
           [PAttributeUpdate
              {| AttributeUpdatePayload.NodeID := nodeID;
                 AttributeUpdatePayload.EndpointID := endpointID;
                 AttributeUpdatePayload.Cluster := clusterName;
                 AttributeUpdatePayload.Attribute := attributeName;
                 AttributeUpdatePayload.Value :=
                   fst (attributeValue ParseFloat (stdout r)) |}]
       end.
Proof.
  cbv zeta. unfold readAttribute.
  destruct (err _); [repeat split|].
  destruct (attributeValue ParseFloat _) as [value parsed].
  destruct parsed; repeat split.
Qed.

(** X20. A command On, Off or Toggle of the cluster OnOff that succeeds is
    followed by one read of the attribute OnOff of the same node at
    endpoint 1: with the goroutine it starts, the handler runs [chip-tool]
    twice, and [sendPayload] is called with the response and then, when the
    read does not fail, once with an update that holds the value read; when
    the read fails it is not called again.  (Whether a message a call is
    made with is put in the channel is the matter of the send operations: a
    value [json.Marshal] refuses is not.) *)
Theorem command_then_refresh (e : Env) (payload : DeviceCommandPayload.t) :
  let nodeID := DeviceCommandPayload.NodeID payload in
  let command := DeviceCommandPayload.Command payload in
  let cmd := tool e ["onoff"; ToLower command; nodeID; "1"] in
  let read := tool e ["onoff"; "read"; "OnOff"; nodeID; "1"] in
  DeviceCommandPayload.Cluster payload = "OnOff" ->
  In command ["On"; "Off"; "Toggle"] ->
  isEmpty nodeID = false ->
  err cmd = None ->
  hasErrorMarker (stdout cmd) (stderr cmd) = false ->
  let t := fst (handleClientMessage e (DeviceCommand (Valid payload))) in
  let after := concat (flat_map (goroutine ParseFloat streamOf e) (spawned t)) in
  runs (t ++ after)
  = [["onoff"; ToLower command; nodeID; "1"];
     ["onoff"; "read"; "OnOff"; nodeID; "1"]]
  /\ payloads (t ++ after)
     = (PCommandResponse
          {| CommandResponsePayload.Success := true;
             CommandResponsePayload.NodeID := nodeID;
             CommandResponsePayload.Details :=
               "Command executed. Output: "
               ++ outputText (stdout cmd) (stderr cmd);
             CommandResponsePayload.Error := "" |}
        :: match err read with
           | Some _ => []
           | None =>
               [PAttributeUpdate
                  {| AttributeUpdatePayload.NodeID := nodeID;
                     AttributeUpdatePayload.EndpointID := "1";
                     AttributeUpdatePayload.Cluster := "OnOff";
                     AttributeUpdatePayload.Attribute := "OnOff";
                     AttributeUpdatePayload.Value :=
                       fst (attributeValue ParseFloat (stdout read)) |}]
           end)%list.
Proof.
  cbv zeta. intros Hcl Hcmd Hn He Hm.
  unfold handleClientMessage, handleDeviceCommand, commandParams, followUp.
  rewrite Hcl, Hn.
  assert (Hk : isEmpty (DeviceCommandPayload.Command payload) = false
               /\ (String.eqb (DeviceCommandPayload.Command payload) "On"
                   || String.eqb (DeviceCommandPayload.Command payload) "Off"
                   || String.eqb (DeviceCommandPayload.Command payload) "Toggle")
                  = true).
  { cbn [In] in Hcmd.
    destruct Hcmd as [<-|[<-|[<-|[]]]]; split; reflexivity. }
  destruct Hk as (-> & Hk).
  change (String.eqb "OnOff" "OnOff") with true.
  change (String.eqb "OnOff" "LevelControl") with false.
  change (ToLower "OnOff") with "onoff".
  cbn [isEmpty orb andb app]. rewrite Hk.
  cbn [app]. rewrite He, Hm.
  unfold andThen, done. cbn [fst app].
  cbn [spawned flat_map app goroutine concat commandResponse].
  destruct (readAttribute_sends e (DeviceCommandPayload.NodeID payload) "1"
              "OnOff" "OnOff") as (Hr & _ & Hp).
  change (ToLower "OnOff") with "onoff" in Hr, Hp.
  rewrite app_nil_r.
  split.
  - cbn [runs flat_map app]. fold (runs (fst (readAttribute ParseFloat e
      (DeviceCommandPayload.NodeID payload) "1" "OnOff" "OnOff"))).
    rewrite Hr. reflexivity.
  - cbn [payloads flat_map app]. fold (payloads (fst (readAttribute ParseFloat e
      (DeviceCommandPayload.NodeID payload) "1" "OnOff" "OnOff"))).
    rewrite Hp. reflexivity.
Qed.

(** X21. A [subscribe_attribute] message with its required fields starts
    one subscription, at endpoint 1 when the message names none.  All that
    the goroutines of this subscription send to the client besides log
    lines are updates of the attribute of the message, at that node,
    endpoint and cluster; and when a pipe or the process cannot be set up,
    no reader is started and no update is sent. *)
Theorem subscribe_attribute_end_to_end
    (e : Env) (p : SubscribeAttributePayload.t) :
  rejected (SubscribeAttribute (Valid p)) = false ->
  let t := fst (handleClientMessage e (SubscribeAttribute (Valid p))) in
  let sub :=
    {| subNodeID := SubscribeAttributePayload.NodeID p;
       subEndpointID :=
         if isEmpty (SubscribeAttributePayload.EndpointID p) then "1"
         else SubscribeAttributePayload.EndpointID p;
       subClusterName := SubscribeAttributePayload.Cluster p;
       subAttributeName := SubscribeAttributePayload.Attribute p |} in
  let s := streamOf (subscribeArgs sub (SubscribeAttributePayload.MinInterval p)
                       (SubscribeAttributePayload.MaxInterval p)) in
  let threads := flat_map (goroutine ParseFloat streamOf e) (spawned t) in
  payloads t = []
  /\ List.length (spawned t) = 1
  /\ Forall (fun sent => exists v, sent = PAttributeUpdate
                {| AttributeUpdatePayload.NodeID := subNodeID sub;
                   AttributeUpdatePayload.EndpointID := subEndpointID sub;
                   AttributeUpdatePayload.Cluster := subClusterName sub;
                   AttributeUpdatePayload.Attribute := subAttributeName sub;
                   AttributeUpdatePayload.Value := v |})
            (payloads (concat threads))
  /\ (match stdoutPipeErr s, stderrPipeErr s, startErr s with
      | None, None, None => False
      | _, _, _ => True
      end ->
      List.length threads = 1 /\ payloads (concat threads) = []).
Proof.
  intros Hrej. cbv zeta.
  unfold handleClientMessage, handleSubscribe.
  cbn [rejected] in Hrej. rewrite Hrej.
  unfold andThen, done.
  cbn [fst app spawned payloads flat_map goroutine List.length].
  rewrite app_nil_r.
  set (sub := {| subNodeID := SubscribeAttributePayload.NodeID p;
                 subEndpointID := _;
                 subClusterName := SubscribeAttributePayload.Cluster p;
                 subAttributeName := SubscribeAttributePayload.Attribute p |}).
  set (s := streamOf _).
  split; [reflexivity|]. split; [reflexivity|].
  unfold startAttributeSubscription.
  destruct (stdoutPipeErr s); [repeat split; auto|].
  destruct (stderrPipeErr s); [repeat split; auto|].
  destruct (startErr s); [repeat split; auto|].
  split; [|intros []].
  cbn [concat]. rewrite !DispatcherMore.payloads_app.
  rewrite SubscriptionFacts.stderrLoop_sends.
  cbn [payloads flat_map app]. rewrite app_nil_r.
  exact (SubscriptionFacts.stdoutLoop_updates ParseFloat sub s).
Qed.

End WithParseFloat.

Lemma command_then_refresh_witness :
  runs (fst (handleClientMessage (constEnv silentRun 0)
               (DeviceCommand (Valid turnOn)))
        ++ concat (flat_map
                     (goroutine Strconv.special
                        (fun _ => {| stdoutPipeErr := None;
                                     stderrPipeErr := None;
                                     startErr := None;
                                     outText := ""; errText := "";
                                     exits := true; waitErr := None |})
                        (constEnv silentRun 0))
                     (spawned (fst (handleClientMessage (constEnv silentRun 0)
                                      (DeviceCommand (Valid turnOn)))))))%list
  = [["onoff"; "on"; "7"; "1"]; ["onoff"; "read"; "OnOff"; "7"; "1"]].
Proof.
  exact (proj1 (command_then_refresh Strconv.special _
                  (constEnv silentRun 0) turnOn eq_refl
                  (or_introl eq_refl) eq_refl eq_refl eq_refl)).
Defined.

Lemma subscribe_attribute_end_to_end_witness :
  List.length
    (spawned (fst (handleClientMessage (constEnv silentRun 0)
                     (SubscribeAttribute (Valid subscribeOnOff)))))
  = 1.
Proof.
  exact (proj1 (proj2 (subscribe_attribute_end_to_end Strconv.special
                         (fun _ => {| stdoutPipeErr := None;
                                      stderrPipeErr := None;
                                      startErr := None;
                                      outText := ""; errText := "";
                                      exits := true; waitErr := None |})
                         (constEnv silentRun 0) subscribeOnOff eq_refl))).
Defined.

End HandlerFacts.

(* ================================================================== *)
(** ** The lines of a device block *)
(* ================================================================== *)

Module LineFacts.

Import GoStrings Discovery.

Lemma length_utoa (fuel : nat) (n : N) (acc : string) :
  String.length (Strconv.utoa fuel n acc) <= S fuel + String.length acc.
Proof.
  revert n acc. induction fuel as [|f IH]; intros n acc; cbn [Strconv.utoa].
  - cbn [String.length]. lia.
  - destruct (n <? 10)%N; [cbn [String.length]; lia|].
    etransitivity; [apply IH|]. cbn [String.length]. lia.
Qed.

Lemma isDecimal_formatUint (n : N) :
  (n < 2 ^ 64)%N -> isDecimal (Strconv.formatUint n) = true.
Proof.
  intros Hn. unfold isDecimal.
  destruct (NumberFacts.formatUint_head n) as (c & r & Hf & _).
  apply andb_true_iff. split; [apply andb_true_iff; split|].
  - now rewrite Hf.
  - apply forallb_forall. apply Forall_forall.
    exact (NumberFacts.formatUint_digits n).
  - apply Nat.ltb_lt. unfold Strconv.formatUint.
    pose proof (length_utoa (N.to_nat (N.log2 n)) n "") as Hl.
    cbn [String.length] in Hl.
    assert (N.log2 n < 64)%N.
    { destruct (N.eq_dec n 0) as [->|Hz]; [reflexivity|].
      apply N.log2_lt_pow2; lia. }
    lia.
Qed.

Lemma ParseUint_formatUint_bits (n : N) (bitSize : Z) :
  (0 <= bitSize)%Z ->
  Strconv.ParseUint (Strconv.formatUint n) bitSize
  = if (Z.of_N n <=? 2 ^ bitSize - 1)%Z then inr (Z.of_N n)
    else inl Strconv.ErrRange.
Proof.
  intros Hb. unfold Strconv.ParseUint.
  destruct (Strconv.formatUint n) as [|c r] eqn:Hf.
  - exfalso. exact (StrconvFacts.utoa_not_empty _ _ _ Hf).
  - rewrite <- Hf, NumberFacts.parseDigits_all.
    + now rewrite NumberFacts.formatUint_val.
    + apply NumberFacts.formatUint_digits.
    + pose proof (Z.pow_pos_nonneg 2 bitSize). lia.
Qed.

Lemma selectKey_own_key (k : Key) (d : string) :
  isDecimal d = true ->
  selectKey (keyText k ++ " " ++ d) = Some (k, d).
Proof.
  intros H.
  assert (Hne : isEmpty d = false).
  { destruct (DiscoveryFacts.decimal_facts d H) as (Hne & _). now destruct d. }
  destruct k;
    unfold selectKey, chain, firstKey, extractValueAfterKey, keyText;
    cbn [Index HasPrefix append Ascii.eqb Bool.eqb andb option_map];
    repeat (rewrite (DiscoveryFacts.Index_decimal d) by (exact H || reflexivity);
            cbn [option_map isEmpty]);
    cbn [option_map isEmpty Nat.add String.length sliceFrom];
    now rewrite (DiscoveryFacts.TrimSpace_decimal d H), Hne.
Qed.

(** X22. On a line that holds one of the sixteen keys of the parser, a
    space and a decimal value, the chain of tests takes the branch of that
    key, with that value: no key hides another one. *)
Theorem key_line_takes_its_branch (k : Key) (d : string) (dev : DiscoveredDevice) :
  isDecimal d = true ->
  selectKey (keyText k ++ " " ++ d) = Some (k, d)
  /\ applyLine dev (keyText k ++ " " ++ d) = fst (setField k d dev).
Proof.
  intros H. unfold applyLine. rewrite (selectKey_own_key k d H). auto.
Qed.

Lemma key_line_takes_its_branch_witness :
  applyLine emptyDevice "Vendor ID: 65521"
  = fst (setField KVendorID "65521" emptyDevice).
Proof.
  exact (proj2 (key_line_takes_its_branch KVendorID "65521" emptyDevice
                  eq_refl)).
Defined.

(** X23. The three numbers of a device block are read back from their
    decimal texts within the bounds of their fields: a port below 2^63, a
    pairing hint up to 65535, a commissioning mode up to 255, the last one
    with the type it stands for.  A number beyond its bound leaves the
    record as it was. *)
Theorem numeric_lines_round_trip (n : N) (dev : DiscoveredDevice) :
  (n < 2 ^ 64)%N ->
  applyLine dev ("Port: " ++ Strconv.formatUint n)
  = (if (Z.of_N n <? 2 ^ 63)%Z then set_Port (Z.of_N n) dev else dev)
  /\ applyLine dev ("Pairing Hint: " ++ Strconv.formatUint n)
     = (if (Z.of_N n <=? 65535)%Z then set_PairingHint (Z.of_N n) dev
        else dev)
  /\ applyLine dev ("Commissioning Mode: " ++ Strconv.formatUint n)
     = (if (Z.of_N n <=? 255)%Z
        then set_Type_ (modeType (Z.of_N n))
               (set_CommissioningMode (Z.of_N n) dev)
        else dev).
Proof.
  intros Hn. pose proof (isDecimal_formatUint n Hn) as Hd.
  split; [|split].
  - change ("Port: " ++ Strconv.formatUint n)
      with (keyText KPort ++ " " ++ Strconv.formatUint n).
    unfold applyLine. rewrite (selectKey_own_key _ _ Hd).
    cbn [setField]. unfold Strconv.Atoi.
    rewrite NumberFacts.ParseInt_formatUint.
    destruct (Z.of_N n <? 2 ^ 63)%Z; reflexivity.
  - change ("Pairing Hint: " ++ Strconv.formatUint n)
      with (keyText KPairingHint ++ " " ++ Strconv.formatUint n).
    unfold applyLine. rewrite (selectKey_own_key _ _ Hd).
    cbn [setField]. rewrite ParseUint_formatUint_bits by lia.
    change (2 ^ 16 - 1)%Z with 65535%Z.
    destruct (Z.of_N n <=? 65535)%Z; reflexivity.
  - change ("Commissioning Mode: " ++ Strconv.formatUint n)
      with (keyText KCommissioningMode ++ " " ++ Strconv.formatUint n).
    unfold applyLine. rewrite (selectKey_own_key _ _ Hd).
    cbn [setField]. rewrite ParseUint_formatUint_bits by lia.
    change (2 ^ 8 - 1)%Z with 255%Z.
    destruct (Z.of_N n <=? 255)%Z; reflexivity.
Qed.

Lemma numeric_lines_round_trip_witness :
  applyLine emptyDevice "Pairing Hint: 65536" = emptyDevice.
Proof.
  exact (proj1 (proj2 (numeric_lines_round_trip 65536 emptyDevice eq_refl))).
Defined.

End LineFacts.
